(** * Event chatbot: the dialog engine of [chatController.chat]

    A shallow embedding of the chat request handler (intent resolution,
    the draft and confirmation sub-flows of event creation, discovery with
    its de-duplication and placeholder filter), of
    [eventService.createRegistration] / [createEvent] and of the helpers
    [calculateSimilarity] / [editDistance], with the properties of the
    specification stated and settled against them; and of what the
    handler calls around them: [generateContextualSuggestions],
    [safeSaveConversation] with its retries, and [serperService]'s
    [searchEvents] and [searchEventDetails], with the properties the code
    itself shows.

    Conventions of the embedding.
    - JavaScript strings are [string]s of 8-bit characters; [toLowerCase]
      and [trim] act on the ASCII range (letters A-Z, white space 9-13
      and 32), which is where the code's literals live.
    - [null] / [undefined] are [None]; truthiness of a string-or-null value
      is [truthy].
    - The hosted language model, the date and time parsers built on it
      and the search client are oracles: the handler is parametrised by
      them ([Oracle]) and every theorem quantifies over them.
    - MongoDB collections are lists of documents held in [World]; a [save]
      fails only through the schema's own validators.
    - Every outbound call is recorded in the world's [trace]. *)

From Stdlib Require Import String Ascii List Bool Arith ZArith QArith Lia.
From stdpp Require Import base option list.
Import ListNotations.

Local Open Scope string_scope.
Local Open Scope bool_scope.
Local Open Scope nat_scope.

(* ===================================================================== *)
(** ** JavaScript string primitives used by the handler *)
(* ===================================================================== *)

Module JS.

(** Characters removed by [String.prototype.trim] (ASCII range). *)
Definition isSpace (c : ascii) : bool :=
  let n := nat_of_ascii c in
  ((9 <=? n) && (n <=? 13)) || (n =? 32).

Definition isUpper (c : ascii) : bool :=
  let n := nat_of_ascii c in (65 <=? n) && (n <=? 90).

Definition lowerChar (c : ascii) : ascii :=
  if isUpper c then ascii_of_nat (nat_of_ascii c + 32) else c.

(** [s.toLowerCase()] on the ASCII range: letters A-Z are mapped, every
    other character is kept, and so is the length. ([CaseFolding] takes
    the lower-casing as any function.) *)
Fixpoint toLowerCase (s : string) : string :=
  match s with
  | EmptyString => EmptyString
  | String c s' => String (lowerChar c) (toLowerCase s')
  end.

Fixpoint trimStart (s : string) : string :=
  match s with
  | EmptyString => EmptyString
  | String c s' => if isSpace c then trimStart s' else s
  end.

Fixpoint trimEnd (s : string) : string :=
  match s with
  | EmptyString => EmptyString
  | String c s' =>
      match trimEnd s' with
      | EmptyString => if isSpace c then EmptyString else String c EmptyString
      | t => String c t
      end
  end.

(** [s.trim()] on the ASCII range: white space 9-13 and 32 is removed,
    other white space (U+00A0 and the like) is not. *)
Definition trim (s : string) : string := trimEnd (trimStart s).

(** [s.replace(/[...]/g, '')] for a character class given as a list. *)
Fixpoint removeChars (cls : list ascii) (s : string) : string :=
  match s with
  | EmptyString => EmptyString
  | String c s' =>
      if existsb (Ascii.eqb c) cls then removeChars cls s'
      else String c (removeChars cls s')
  end.

(** [s.startsWith(p)] *)
Definition startsWith (s p : string) : bool := String.prefix p s.

(** [s.includes(p)] *)
Fixpoint includes (s p : string) : bool :=
  String.prefix p s ||
  match s with
  | EmptyString => false
  | String _ s' => includes s' p
  end.

(** Truthiness of a string-or-null value: [null], [undefined] and the
    empty string are falsy. *)
Definition truthy (v : option string) : bool :=
  match v with
  | Some s => negb (String.eqb s "")
  | None => false
  end.

(** The value itself when truthy, for [if (v) { ... v ... }]. *)
Definition whenTruthy (v : option string) : option string :=
  if truthy v then v else None.

(** [a || b] on string-or-null values. *)
Definition or_ (a b : option string) : option string :=
  if truthy a then a else b.

(** [v === s] for a string-or-null [v]. *)
Definition isString (v : option string) (s : string) : bool :=
  match v with
  | Some x => String.eqb x s
  | None => false
  end.

(** [l.join(sep)] *)
Fixpoint join (sep : string) (l : list string) : string :=
  match l with
  | [] => ""
  | [x] => x
  | x :: rest => x ++ sep ++ join sep rest
  end.

(** [s.replace(/\.\.\./g, '')] *)
Fixpoint removeEllipses (s : string) : string :=
  match s with
  | String "." (String "." (String "." rest)) => removeEllipses rest
  | String c rest => String c (removeEllipses rest)
  | EmptyString => EmptyString
  end.

Definition newline : string := String (ascii_of_nat 10) EmptyString.

(** [charAt(i)]: the empty string out of range. *)
Definition charAt (s : string) (i : nat) : option ascii := String.get i s.

End JS.

(* ===================================================================== *)
(** ** [editDistance] and [calculateSimilarity] *)
(* ===================================================================== *)

Module Similarity.

(** [a[i] = v] on a JavaScript array of numbers. The loops below write at
    most one slot past the end, where the array grows by one. (Further out
    JavaScript would leave holes; that case is filled with zeros here and
    never arises.) *)
Definition arraySet (a : list nat) (i v : nat) : list nat :=
  if i <? length a then <[i:=v]> a
  else a ++ replicate (i - length a) 0 ++ [v].

Definition arrayGet (a : list nat) (i : nat) : nat := default 0 (a !! i).

Definition charNeq (a b : option ascii) : bool :=
  match a, b with
  | Some x, Some y => negb (Ascii.eqb x y)
  | None, None => false
  | _, _ => true
  end.

(** Body of the inner [for (let j = 0; j <= s2.length; j++)] loop: the
    state is [(costs, lastValue)]. *)
Definition innerStep (s1 s2 : string) (i : nat) (st : list nat * nat) (j : nat)
  : list nat * nat :=
  let '(costs, lastValue) := st in
  if i =? 0 then (arraySet costs j j, lastValue)
  else if 0 <? j then
    let newValue := arrayGet costs (j - 1) in
    let newValue :=
      if charNeq (JS.charAt s1 (i - 1)) (JS.charAt s2 (j - 1))
      then Nat.min (Nat.min newValue lastValue) (arrayGet costs j) + 1
      else newValue in
    (arraySet costs (j - 1) lastValue, newValue)
  else st.

(** Body of the outer [for (let i = 0; i <= s1.length; i++)] loop. *)
Definition outerStep (s1 s2 : string) (costs : list nat) (i : nat) : list nat :=
  let '(costs, lastValue) :=
    fold_left (innerStep s1 s2 i) (List.seq 0 (S (String.length s2))) (costs, i) in
  if 0 <? i then arraySet costs (String.length s2) lastValue else costs.

Definition editDistance (s1 s2 : string) : nat :=
  let s1 := JS.toLowerCase s1 in
  let s2 := JS.toLowerCase s2 in
  let costs := fold_left (outerStep s1 s2) (List.seq 0 (S (String.length s1))) [] in
  arrayGet costs (String.length s2).

(** [calculateSimilarity]: the quotient is a double in the source. It is
    kept exact here; for strings shorter than 2^49 characters a correctly
    rounded quotient of two such integers compares with the literal [0.9]
    exactly as the exact quotient compares with 9/10. *)
Definition calculateSimilarity (s1 s2 : string) : Q :=
  let longer := if String.length s2 <? String.length s1 then s1 else s2 in
  let shorter := if String.length s2 <? String.length s1 then s2 else s1 in
  let longerLength := String.length longer in
  if longerLength =? 0 then 1%Q
  else ((Z.of_nat longerLength - Z.of_nat (editDistance longer shorter))
          # Pos.of_nat longerLength)%Q.

(** [x > y] on the exact quotients. *)
Definition Qgtb (x y : Q) : bool := negb (Qle_bool x y).

Definition threshold : Q := (9 # 10)%Q.

End Similarity.

(* ===================================================================== *)
(** ** Data model: conversations, drafts, events, registrations *)
(* ===================================================================== *)

Module Model.

(** MongoDB ObjectIds, and valid JavaScript dates as milliseconds since the
    epoch (the parsers below never hand out an invalid date). *)
Definition ObjectId := nat.
Definition Date := Z.

(** [date.setHours(h, m, 0, 0)], local time taken as UTC. *)
Definition setHours (d : Date) (h m : nat) : Date :=
  (d / 86400000 * 86400000 + Z.of_nat h * 3600000 + Z.of_nat m * 60000)%Z.

Record UserLocation := mkUserLocation {
  city : option string;
  region : option string
}.

(** One web result as kept by [searchEventDetails]. *)
Record Snippet := mkSnippet {
  sn_title : string;
  sn_snippet : string;
  sn_link : string
}.

(** What [searchEventDetails] returns, as far as the handler reads it. *)
Record SerperDetails := mkSerperDetails {
  found : bool;
  rawSnippets : list Snippet
}.

(** [context.creatingEvent], with the keys written at lines 1001-1017. *)
Record CreatingEvent := mkCreatingEvent {
  title : string;
  serperDetails : option SerperDetails;
  missingInfo : list string;
  shownEventCard : bool;
  waitingForConfirmation : bool;
  formattedDisplay : string;
  top5Snippets : list Snippet;
  top5SnippetsSection : option string;
  top5LinksSection : option string;
  extractedDate : option string;
  extractedTime : option string;
  extractedLocation : option string;
  serperExtractedDate : option string;
  serperExtractedTime : option string;
  serperExtractedLocation : option string
}.

(** [conversation.context]: the keys used by the modelled flows. A missing
    key is [None]; [delete context.creatingEvent] sets it to [None]. *)
Record Context := mkContext {
  creatingEvent : option CreatingEvent;
  lastEventIds : option (list ObjectId);
  lastSearchQuery : option string
}.

Definition emptyContext : Context :=
  {| creatingEvent := None; lastEventIds := None; lastSearchQuery := None |}.

Record Message := mkMessage { role : string; content : string }.

Record Conversation := mkConversation {
  sessionId : string;
  convUserId : ObjectId;
  messages : list Message;
  lastIntent : option string;
  context : Context
}.

(** Result of [extractEventDetailsWithAI]. *)
Record ExtractedDetails := mkExtractedDetails {
  intent : string;
  eventTitle : option string;
  date : option string;
  time : option string;
  location : option string;
  category : option string;
  useUserLocation : bool
}.

(** A plain object handed to [new Event(...)]: every schema path may be
    missing ([undefined] or [null]). *)
Record EventData := mkEventData {
  ed_title : option string;
  ed_category : option string;
  ed_startDate : option Date;
  ed_endDate : option Date;
  ed_location : option string;
  ed_lat : option Q;
  ed_lng : option Q;
  ed_mode : option string;
  ed_price : option string;
  ed_snippet : option string;
  ed_description : option string;
  ed_source : option string;
  ed_sourceUrl : option string;
  ed_userId : option ObjectId
}.

Definition noEventData : EventData :=
  {| ed_title := None; ed_category := None; ed_startDate := None;
     ed_endDate := None; ed_location := None; ed_lat := None; ed_lng := None;
     ed_mode := None; ed_price := None; ed_snippet := None;
     ed_description := None; ed_source := None; ed_sourceUrl := None;
     ed_userId := None |}.

(** A stored Event document: the schema of [models/Event.js] applied to an
    [EventData], plus the bookkeeping paths the schema fills in itself. *)
Record Event := mkEvent {
  ev_id : ObjectId;
  ev_data : EventData;
  ev_attendeesCount : nat;
  ev_createdAt : Date;
  ev_updatedAt : Date
}.

(** Schema setters: [trim: true] on title, category and location, and the
    default of [source], which fills in a missing key: the flows modelled
    here always pass a source, and a [source: null], which mongoose would
    leave as it is, is not among their inputs. *)
Definition castEventData (d : EventData) : EventData :=
  {| ed_title := JS.trim <$> ed_title d;
     ed_category := JS.trim <$> ed_category d;
     ed_startDate := ed_startDate d;
     ed_endDate := ed_endDate d;
     ed_location := JS.trim <$> ed_location d;
     ed_lat := ed_lat d;
     ed_lng := ed_lng d;
     ed_mode := ed_mode d;
     ed_price := ed_price d;
     ed_snippet := ed_snippet d;
     ed_description := ed_description d;
     ed_source := Some (default "user_created" (ed_source d));
     ed_sourceUrl := ed_sourceUrl d;
     ed_userId := ed_userId d |}.

Definition oneOf (allowed : list string) (v : option string) : bool :=
  match v with
  | None => true
  | Some s => existsb (String.eqb s) allowed
  end.

(** Schema validators run by [save]: [required] on title (a non-empty
    string) and userId, the enums of mode and source. *)
Definition validEventData (d : EventData) : bool :=
  JS.truthy (ed_title d)
  && bool_decide (is_Some (ed_userId d))
  && oneOf ["online"; "offline"; "hybrid"] (ed_mode d)
  && oneOf ["user_created"; "serpapi"; "serper"; "discovery"] (ed_source d).

(** A search result as built by [searchEvents] (its [eventData] literal):
    title, source, sourceUrl, startDate and snippet are always set there,
    category and location may be [null], mode and price are [null]. *)
Record Candidate := mkCandidate {
  c_title : string;
  c_category : option string;
  c_location : option string;
  c_source : string;
  c_sourceUrl : string;
  c_startDate : Date;
  c_snippet : string
}.

(** [{ ...eventData, userId }] *)
Definition candidateData (c : Candidate) (userId : ObjectId) : EventData :=
  {| ed_title := Some (c_title c);
     ed_category := c_category c;
     ed_startDate := Some (c_startDate c);
     ed_endDate := None;
     ed_location := c_location c;
     ed_lat := None; ed_lng := None;
     ed_mode := None; ed_price := None;
     ed_snippet := Some (c_snippet c);
     ed_description := None;
     ed_source := Some (c_source c);
     ed_sourceUrl := Some (c_sourceUrl c);
     ed_userId := Some userId |}.

Record Registration := mkRegistration {
  reg_id : ObjectId;
  reg_userId : ObjectId;
  reg_eventId : ObjectId;
  reg_name : string;
  reg_email : string;
  reg_status : string
}.

Record User := mkUser {
  user_id : ObjectId;
  username : option string;
  user_email : option string
}.

End Model.

(* ===================================================================== *)
(** ** Effects: stores, outbound calls, exceptions *)
(* ===================================================================== *)

Module Effects.
Import Model.

(** The prompts sent through [generateResponse] by the modelled flows,
    with the data interpolated into them. The wording of a prompt is
    immaterial: the model's answer is an arbitrary string. *)
Inductive Prompt :=
| ContextIntentPrompt (message : string)
| ConfirmationPrompt (title message : string)
| DirectUnderstandingPrompt (message : string)
| EventCardPrompt (title snippets links : string)
| EventCardPromptFallback (title snippets links : string)
| CreationErrorPrompt (title error : string)
| CreationErrorPromptFallback (title error : string)
| EditPrompt (title message : string)
| ClarifyPrompt (title message : string)
| CategoryExtractionPrompt (message eventTitle : string)
| NoEventsPrompt (message : string)
| DiscoveryPrompt (message : string) (shown : list string)
| AskEventTitlePrompt
| DisplayPrompt (eventTitle snippets links : string)
| GeneralPrompt (message : string).

Record SearchFilters := mkSearchFilters {
  sf_location : option string;
  sf_category : option string;
  sf_date : option string;
  sf_city : option string;
  sf_region : option string
}.

(** Outbound calls, in the order they are issued. *)
Inductive Call :=
| CallExtractEventDetails (message : string)
| CallGenerateResponse (p : Prompt)
| CallParseDate (dateString : string)
| CallParseTime (timeString : string)
| CallResolveUserLocation (userId : ObjectId)
| CallSearchEvents (query : string) (filters : SearchFilters)
| CallValidateEvents (candidates : list Candidate)
| CallEventSave (ev : Event)
| CallConversationSave (sessionId : string)
| CallRegistrationSave (reg : Registration)
| CallSendRegistrationEmail (to : string) (eventId : ObjectId)
| CallAddSubscriber (email : string) (eventId : ObjectId)
| CallSearchEventDetails (eventName : string)
| CallExtractFromSnippets (eventTitle : string)
| CallFormatSnippets (snippets : list Snippet).

(** External collaborators. Each answer may depend on everything that was
    called before (the trace), so two identical requests need not get the
    same answer.
    - [extractEventDetailsWithAI], [parseDateWithAI], [parseTimeWithAI]
      and [generateResponse] catch their own failures in the source and
      always return: a value, or [null] for the two parsers.
      [parseDateWithAI] returns a valid date or [null];
      [parseTimeWithAI] returns [{hours, minutes}] or [null].
    - [resolveUserLocation] stands for step 2 of the handler (lines
      156-179): the user's reverse-geocoded or last known location.
    - [validationAnswer] is the JSON array of 1-based indices found in the
      validator's answer (lines 1168-1186), [None] when no array is found
      or it does not parse.
    - [searchEventDetails] is the web search for one event name; it
      catches its own failures.
    - [extractFromSnippets] is the direct completion call of lines
      759-799 with its JSON parsing: the [date], [time] and [location] of
      the answer, [None] when the call or the parsing throws (the [catch]
      leaves the three values [null]).
    - [formatSnippets] is the direct completion call of lines 894-913:
      the answer's text, [None] when the call throws.
    - [stripFieldLines] is the chain of thirteen regular-expression
      replacements applied to a generated card (lines 395-407, 574-586). *)
Record Oracle := mkOracle {
  extractEventDetailsWithAI : list Call -> string -> Context -> ExtractedDetails;
  generateResponse : list Call -> Prompt -> string;
  parseDateWithAI : list Call -> string -> option Date;
  parseTimeWithAI : list Call -> string -> option (nat * nat);
  resolveUserLocation : list Call -> ObjectId -> option UserLocation;
  searchEvents : list Call -> string -> SearchFilters -> list Candidate;
  validationAnswer : list Call -> list Candidate -> option (list nat);
  searchEventDetails : list Call -> string -> SerperDetails;
  extractFromSnippets :
    list Call -> string -> list Snippet ->
    option (option string * option string * option string);
  formatSnippets : list Call -> list Snippet -> option string;
  randomUUID : list Call -> string;
  now : list Call -> Date;
  stripFieldLines : string -> string
}.

Record World := mkWorld {
  eventsDb : list Event;
  registrationsDb : list Registration;
  conversationsDb : list Conversation;
  usersDb : list User;
  nextObjectId : ObjectId;
  trace : list Call
}.

Definition emptyWorld : World :=
  {| eventsDb := []; registrationsDb := []; conversationsDb := [];
     usersDb := []; nextObjectId := 0; trace := [] |}.

Inductive Exn :=
| TypeError (msg : string)
| ValidationError (path : string)
| DuplicateKeyError.

Inductive Res (A : Type) :=
| Ok (a : A)
| Throw (e : Exn).
Arguments Ok {A} a.
Arguments Throw {A} e.

(** Computations of the handler: they read and update the world, and
    either return or throw. *)
Definition M (A : Type) : Type := World -> Res A * World.

Definition ret {A} (a : A) : M A := fun w => (Ok a, w).

Definition bind {A B} (c : M A) (k : A -> M B) : M B :=
  fun w =>
    match c w with
    | (Ok a, w') => k a w'
    | (Throw e, w') => (Throw e, w')
    end.

Definition throw {A} (e : Exn) : M A := fun w => (Throw e, w).

(** [try { c } catch (error) { h error }] *)
Definition tryCatch {A} (c : M A) (h : Exn -> M A) : M A :=
  fun w =>
    match c w with
    | (Ok a, w') => (Ok a, w')
    | (Throw e, w') => h e w'
    end.

Definition getWorld : M World := fun w => (Ok w, w).

Definition record (c : Call) : M unit :=
  fun w =>
    (Ok tt, {| eventsDb := eventsDb w; registrationsDb := registrationsDb w;
               conversationsDb := conversationsDb w; usersDb := usersDb w;
               nextObjectId := nextObjectId w; trace := trace w ++ [c] |}).

Declare Scope handler_scope.
Delimit Scope handler_scope with handler.
Notation "x <- c ;; k" := (bind c (fun x => k))
  (at level 100, c at next level, right associativity) : handler_scope.
Notation "c ;;; k" := (bind c (fun _ => k))
  (at level 100, right associativity) : handler_scope.
Local Open Scope handler_scope.

Section WithOracle.
Context (O : Oracle).

(** Consult an oracle on the trace so far, then log the call. *)
Definition ask {A} (c : Call) (answer : list Call -> A) : M A :=
  w <- getWorld ;;
  record c ;;;
  ret (answer (trace w)).

Definition askExtract (message : string) (ctx : Context) : M ExtractedDetails :=
  ask (CallExtractEventDetails message)
      (fun t => extractEventDetailsWithAI O t message ctx).

Definition askGenerate (p : Prompt) : M string :=
  ask (CallGenerateResponse p) (fun t => generateResponse O t p).

Definition askParseDate (s : string) : M (option Date) :=
  ask (CallParseDate s) (fun t => parseDateWithAI O t s).

Definition askParseTime (s : string) : M (option (nat * nat)) :=
  ask (CallParseTime s) (fun t => parseTimeWithAI O t s).

Definition askUserLocation (userId : ObjectId) : M (option UserLocation) :=
  ask (CallResolveUserLocation userId) (fun t => resolveUserLocation O t userId).

(** [new Event(data)]: a fresh [_id], the schema's setters and defaults. *)
Definition newEvent (data : EventData) : M Event :=
  fun w =>
    (Ok {| ev_id := nextObjectId w;
           ev_data := castEventData data;
           ev_attendeesCount := 0;
           ev_createdAt := now O (trace w);
           ev_updatedAt := now O (trace w) |},
     {| eventsDb := eventsDb w; registrationsDb := registrationsDb w;
        conversationsDb := conversationsDb w; usersDb := usersDb w;
        nextObjectId := S (nextObjectId w); trace := trace w |}).

(** [await event.save()]: validation, then insertion. *)
Definition saveEvent (ev : Event) : M unit :=
  fun w =>
    if validEventData (ev_data ev) then
      (Ok tt,
       {| eventsDb := eventsDb w ++ [ev]; registrationsDb := registrationsDb w;
          conversationsDb := conversationsDb w; usersDb := usersDb w;
          nextObjectId := nextObjectId w;
          trace := trace w ++ [CallEventSave ev] |})
    else (Throw (ValidationError "Event"), w).

(** [Conversation.findOne({ sessionId, userId })] *)
Definition findConversation (sid : string) (uid : ObjectId) (w : World)
  : option Conversation :=
  List.find (fun c => String.eqb (sessionId c) sid && (convUserId c =? uid))
            (conversationsDb w).

Fixpoint replaceConversation (conv : Conversation) (db : list Conversation)
  : list Conversation :=
  match db with
  | [] => [conv]
  | c :: db' =>
      if String.eqb (sessionId c) (sessionId conv) then conv :: db'
      else c :: replaceConversation conv db'
  end.

(** [safeSaveConversation]: the document is written under its session id;
    the unique index on [sessionId] rejects a second document with the
    same session id (another user's), which the helper reports as a
    failed save. Nothing is thrown. *)
Definition safeSaveConversation (conv : Conversation) : M bool :=
  fun w =>
    if existsb (fun c => String.eqb (sessionId c) (sessionId conv)
                         && negb (convUserId c =? convUserId conv))
               (conversationsDb w)
    then (Ok false, w)
    else
      (Ok true,
       {| eventsDb := eventsDb w; registrationsDb := registrationsDb w;
          conversationsDb := replaceConversation conv (conversationsDb w);
          usersDb := usersDb w; nextObjectId := nextObjectId w;
          trace := trace w ++ [CallConversationSave (sessionId conv)] |}).

End WithOracle.

End Effects.

(* ===================================================================== *)
(** ** [eventService]: [createEvent] and [createRegistration] *)
(* ===================================================================== *)

Module EventService.
Import Model Effects.
Local Open Scope handler_scope.

Inductive CreateResult :=
| CreateSuccess (event : Event)
| CreateFailure (error : string).

Inductive RegistrationResult :=
| RegistrationSuccess (registration : Registration)
| RegistrationFailure (error : string).

(** [Registration.findOne({ userId, eventId })] *)
Definition findRegistration (userId eventId : ObjectId) (w : World)
  : option Registration :=
  List.find (fun r => (reg_userId r =? userId) && (reg_eventId r =? eventId))
            (registrationsDb w).

Definition findEventById (eventId : ObjectId) (w : World) : option Event :=
  List.find (fun e => ev_id e =? eventId) (eventsDb w).

Definition findUserById (userId : ObjectId) (w : World) : option User :=
  List.find (fun u => user_id u =? userId) (usersDb w).

(** [new Registration({...})]: a fresh [_id]; the schema trims the name
    and trims and lower-cases the email. *)
Definition newRegistration (userId eventId : ObjectId) (name email : string)
  : M Registration :=
  fun w =>
    (Ok {| reg_id := nextObjectId w; reg_userId := userId;
           reg_eventId := eventId; reg_name := JS.trim name;
           reg_email := JS.toLowerCase (JS.trim email);
           reg_status := "confirmed" |},
     {| eventsDb := eventsDb w; registrationsDb := registrationsDb w;
        conversationsDb := conversationsDb w; usersDb := usersDb w;
        nextObjectId := S (nextObjectId w); trace := trace w |}).

(** [await registration.save()]: the [required] validators on name and
    email, then the unique index on [(userId, eventId)] (error code
    11000), then insertion. *)
Definition saveRegistration (reg : Registration) : M unit :=
  fun w =>
    if String.eqb (reg_name reg) "" || String.eqb (reg_email reg) ""
    then (Throw (ValidationError "Registration"), w)
    else if existsb (fun r => (reg_userId r =? reg_userId reg)
                              && (reg_eventId r =? reg_eventId reg))
                    (registrationsDb w)
    then (Throw DuplicateKeyError, w)
    else
      (Ok tt,
       {| eventsDb := eventsDb w; registrationsDb := registrationsDb w ++ [reg];
          conversationsDb := conversationsDb w; usersDb := usersDb w;
          nextObjectId := nextObjectId w;
          trace := trace w ++ [CallRegistrationSave reg] |}).

Definition alreadyRegistered : string :=
  "You are already registered for this event".

(** The notification mail is fired without being awaited and the
    Mailchimp call sits in its own [try]: neither can fail the
    registration; both are logged in the trace. *)
Definition createRegistration (userId eventId : ObjectId) (name email : string)
  : M RegistrationResult :=
  tryCatch
    (w <- getWorld ;;
     match findRegistration userId eventId w with
     | Some _ => ret (RegistrationFailure alreadyRegistered)
     | None =>
         registration <- newRegistration userId eventId name email ;;
         saveRegistration registration ;;;
         w' <- getWorld ;;
         let event := findEventById eventId w' in
         let user := findUserById userId w' in
         (match user, event with
          | Some u, Some e =>
              match JS.whenTruthy (user_email u) with
              | Some to => record (CallSendRegistrationEmail to (ev_id e))
              | None => ret tt
              end
          | _, _ => ret tt
          end) ;;;
         (match JS.whenTruthy (Some email), event with
          | Some em, Some e => record (CallAddSubscriber em (ev_id e))
          | _, _ => ret tt
          end) ;;;
         ret (RegistrationSuccess registration)
     end)
    (fun error =>
       match error with
       | DuplicateKeyError => ret (RegistrationFailure alreadyRegistered)
       | _ => ret (RegistrationFailure "Registration failed")
       end).

Section WithOracle.
Context (O : Oracle).

(** [createEvent]: any failure of the construction or of the save is
    reported as a failed result. *)
Definition createEvent (eventData : EventData) : M CreateResult :=
  tryCatch
    (event <- newEvent O eventData ;;
     saveEvent event ;;;
     ret (CreateSuccess event))
    (fun _ => ret (CreateFailure "Failed to create event")).

End WithOracle.

End EventService.

(* ===================================================================== *)
(** ** [chatController.chat]: intent resolution and the confirmation
       sub-flow of event creation *)
(* ===================================================================== *)

Module Chat.
Import Model Effects EventService.
Local Open Scope handler_scope.

Record Request := mkRequest {
  req_sessionId : string;
  req_message : string;
  req_userId : ObjectId
}.

(** What the handler sends back. [Elsewhere] marks a turn that leaves the
    modelled part of the handler (registration, reminder, general replies,
    and the common tail with its suggestions): the conversation is handed
    over as it stands in memory. *)
Inductive Response :=
| Status400 (error : string)
| Status500 (error : string)
| Json (reply : string) (sessionId : string) (refreshEvents : bool)
| Elsewhere (flow : string) (conv : Conversation).

Inductive ConfirmationIntent := Proceed | Edit | Unclear.

Definition setContext (conv : Conversation) (ctx : Context) : Conversation :=
  {| sessionId := sessionId conv; convUserId := convUserId conv;
     messages := messages conv; lastIntent := lastIntent conv;
     context := ctx |}.

Definition setLastIntent (conv : Conversation) (i : string) : Conversation :=
  {| sessionId := sessionId conv; convUserId := convUserId conv;
     messages := messages conv; lastIntent := Some i;
     context := context conv |}.

Definition pushMessage (conv : Conversation) (m : Message) : Conversation :=
  {| sessionId := sessionId conv; convUserId := convUserId conv;
     messages := messages conv ++ [m]; lastIntent := lastIntent conv;
     context := context conv |}.

Definition setIntent (d : ExtractedDetails) (i : string) : ExtractedDetails :=
  {| intent := i; eventTitle := eventTitle d; date := date d; time := time d;
     location := location d; category := category d;
     useUserLocation := useUserLocation d |}.

(** [conversation.context?.creatingEvent?.waitingForConfirmation] *)
Definition isWaiting (conv : Conversation) : bool :=
  match creatingEvent (context conv) with
  | Some ce => waitingForConfirmation ce
  | None => false
  end.

(** [{ intent: 'create', eventTitle: null }] *)
Definition forcedCreate : ExtractedDetails :=
  {| intent := "create"; eventTitle := None; date := None; time := None;
     location := None; category := None; useUserLocation := false |}.

(** [message.toLowerCase().trim().replace(/[.,!?]/g, '').trim()] *)
Definition messageLower (message : string) : string :=
  JS.trim (JS.removeChars ["."; ","; "!"; "?"]%char
             (JS.trim (JS.toLowerCase message))).

(** [message.toLowerCase().trim().replace(/[.,!?;:]/g, '').trim()] *)
Definition messageLowerFinal (message : string) : string :=
  JS.trim (JS.removeChars ["."; ","; "!"; "?"; ";"; ":"]%char
             (JS.trim (JS.toLowerCase message))).

(** Line 215: the positive confirmations. *)
Definition positiveConfirmation (m : string) : bool :=
  String.eqb m "yes" || JS.startsWith m "yes " ||
  JS.includes m "proceed" ||
  String.eqb m "ok" || String.eqb m "okay" || String.eqb m "sure" ||
  String.eqb m "confirm" || JS.includes m "go ahead" ||
  JS.includes m "create it".

(** Line 224: "no" to editing. *)
Definition negativeConfirmation (m : string) : bool :=
  String.eqb m "no" || String.eqb m "nope" || String.eqb m "nah" ||
  String.eqb m "n" ||
  String.eqb m "no." || String.eqb m "no!" || String.eqb m "no," ||
  JS.startsWith m "no " || JS.startsWith m "no." || JS.startsWith m "no,".

(** The negative tokens "no", "nope", "nah", "n" (the first four
    alternatives of line 224, again at lines 272 and 475). *)
Definition isNegativeToken (m : string) : bool :=
  String.eqb m "no" || String.eqb m "nope" || String.eqb m "nah"
  || String.eqb m "n".

(** Line 475: the last look for a "no" once the reply stayed unclear. *)
Definition fallbackNegative (m : string) : bool :=
  String.eqb m "no" || String.eqb m "nope" || String.eqb m "nah" ||
  String.eqb m "n" ||
  JS.startsWith m "no " || String.eqb m "not" || String.eqb m "nope.".

(** [`${userLocation.city || ''}, ${userLocation.region || ''}`.trim()] *)
Definition userLocationString (ul : UserLocation) : string :=
  JS.trim (default "" (JS.whenTruthy (city ul)) ++ ", "
           ++ default "" (JS.whenTruthy (region ul))).

(** [savedExtractedLocation || (userLocation ? ... : null) || null] *)
Definition finalLocation (ce : CreatingEvent) (userLocation : option UserLocation)
  : option string :=
  JS.or_ (JS.or_ (extractedLocation ce) (userLocationString <$> userLocation))
         None.

(** The object literal of lines 339-347 and 526-532. *)
Definition eventDataOf (ce : CreatingEvent) (finalEventDate : option Date)
    (userLocation : option UserLocation) (userId : ObjectId) : EventData :=
  {| ed_title := Some (title ce);
     ed_category := None;
     ed_startDate := finalEventDate;
     ed_endDate := None;
     ed_location := JS.whenTruthy (finalLocation ce userLocation);
     ed_lat := None; ed_lng := None;
     ed_mode := None; ed_price := None;
     ed_snippet := None; ed_description := None;
     ed_source := Some "user_created";
     ed_sourceUrl := None;
     ed_userId := Some userId |}.

(** [lastEventIds.unshift(id)] after [if (!lastEventIds) lastEventIds = []]. *)
Definition unshiftEventId (ctx : Context) (id : ObjectId) : list ObjectId :=
  id :: default [] (lastEventIds ctx).

Section WithOracle.
Context (O : Oracle).

(** *** Step 1: intent resolution (lines 101-150) *)
Definition resolveIntent (conv : Conversation) (message : string)
  : M (string * ExtractedDetails) :=
  if isWaiting conv then ret ("create", forcedCreate)
  else
    extractedDetails <- askExtract O message (context conv) ;;
    let intent0 := intent extractedDetails in
    let ctx := context conv in
    if String.eqb intent0 "general"
       && (JS.truthy (lastSearchQuery ctx)
           || match lastEventIds ctx with
              | Some ids => 0 <? length ids
              | None => false
              end
           || bool_decide (is_Some (creatingEvent ctx)))
    then
      contextResponse <- askGenerate O (ContextIntentPrompt message) ;;
      let responseLower := JS.trim (JS.toLowerCase contextResponse) in
      if JS.includes responseLower "discovery"
      then ret ("discovery", setIntent extractedDetails "discovery")
      else if JS.includes responseLower "create"
      then ret ("create", setIntent extractedDetails "create")
      else ret (intent0, extractedDetails)
    else ret (intent0, extractedDetails).

(** *** Confirmation classification (lines 207-276)

    The [catch] of line 269 is not modelled: [generateResponse] returns a
    fallback sentence instead of throwing, and nothing else in that [try]
    can throw. *)
Definition classifyConfirmation (ce : CreatingEvent) (message : string)
  : M ConfirmationIntent :=
  let messageLower := messageLower message in
  if positiveConfirmation messageLower then ret Proceed
  else if negativeConfirmation messageLower then ret Proceed
  else
    confirmationResponse <-
      askGenerate O (ConfirmationPrompt (title ce) message) ;;
    let responseLower := JS.trim (JS.toLowerCase confirmationResponse) in
    if JS.includes responseLower "proceed" then ret Proceed
    else if JS.includes responseLower "edit" then ret Edit
    else
      directResponse <- askGenerate O (DirectUnderstandingPrompt message) ;;
      let directLower := JS.trim (JS.toLowerCase directResponse) in
      if JS.includes directLower "proceed" then ret Proceed
      else if JS.includes directLower "edit" then ret Edit
      else ret Unclear.

(** *** Date resolution (lines 291-317 and 494-511): the stored date first,
    the web-extracted one second. Returns [(finalEventDate, hasRealDate)]. *)
Definition resolveFinalDate (ce : CreatingEvent) : M (option Date * bool) :=
  first <-
    match JS.whenTruthy (extractedDate ce) with
    | Some savedExtractedDate =>
        finalEventDate <- askParseDate O (JS.trim savedExtractedDate) ;;
        ret (finalEventDate, bool_decide (is_Some finalEventDate))
    | None => ret (None, false)
    end ;;
  let '(finalEventDate, hasRealDate) := first in
  match JS.whenTruthy (serperExtractedDate ce) with
  | Some serperDate =>
      if negb hasRealDate then
        finalEventDate <- askParseDate O (JS.trim serperDate) ;;
        ret (finalEventDate, bool_decide (is_Some finalEventDate))
      else ret (finalEventDate, hasRealDate)
  | None => ret (finalEventDate, hasRealDate)
  end.

(** *** Time adjustment, main proceed path (lines 326-333):
    [finalEventDate.setHours(...)] is reached whenever a stored time
    parses, whether or not a date was found. *)
Definition applyTimeMain (ce : CreatingEvent) (finalEventDate : option Date)
  : M (option Date) :=
  match JS.whenTruthy (extractedTime ce) with
  | Some savedExtractedTime =>
      timeObj <- askParseTime O savedExtractedTime ;;
      match timeObj with
      | Some (hours, minutes) =>
          match finalEventDate with
          | Some d => ret (Some (setHours d hours minutes))
          | None =>
              throw (TypeError "Cannot read properties of null (reading 'setHours')")
          end
      | None => ret finalEventDate
      end
  | None => ret finalEventDate
  end.

(** *** Time adjustment, unclear/"no" fallback (lines 517-522):
    [if (savedExtractedTime && finalEventDate)]. *)
Definition applyTimeFallback (ce : CreatingEvent) (finalEventDate : option Date)
  : M (option Date) :=
  match JS.whenTruthy (extractedTime ce), finalEventDate with
  | Some savedExtractedTime, Some d =>
      timeObj <- askParseTime O savedExtractedTime ;;
      match timeObj with
      | Some (hours, minutes) => ret (Some (setHours d hours minutes))
      | None => ret finalEventDate
      end
  | _, _ => ret finalEventDate
  end.

Definition respond (conv : Conversation) (reply : string) (refresh : bool)
  : M Response :=
  _saved <- safeSaveConversation conv ;;
  ret (Json reply (sessionId conv) refresh).

(** *** Proceed, main path (lines 281-447) *)
Definition proceedMain (conv : Conversation) (ce : CreatingEvent)
    (userLocation : option UserLocation) (userId : ObjectId) : M Response :=
  resolved <- resolveFinalDate ce ;;
  finalEventDate <- applyTimeMain ce (fst resolved) ;;
  let eventData := eventDataOf ce finalEventDate userLocation userId in
  createResult <- createEvent O eventData ;;
  match createResult with
  | CreateSuccess event =>
      let ids := take 5 (unshiftEventId (context conv) (ev_id event)) in
      reply <- askGenerate O
                 (EventCardPrompt (title ce)
                    (default "" (JS.whenTruthy (top5SnippetsSection ce)))
                    (default "" (JS.whenTruthy (top5LinksSection ce)))) ;;
      let reply := stripFieldLines O reply in
      let conv := setContext conv
                    {| creatingEvent := None; lastEventIds := Some ids;
                       lastSearchQuery := lastSearchQuery (context conv) |} in
      respond conv reply true
  | CreateFailure error =>
      reply <- askGenerate O (CreationErrorPrompt (title ce) error) ;;
      respond conv reply false
  end.

(** *** Proceed, reached from the unclear branch (lines 477-613) *)
Definition proceedFallback (conv : Conversation) (ce : CreatingEvent)
    (userLocation : option UserLocation) (userId : ObjectId) : M Response :=
  resolved <- resolveFinalDate ce ;;
  finalEventDate <- applyTimeFallback ce (fst resolved) ;;
  let eventData := eventDataOf ce finalEventDate userLocation userId in
  createResult <- createEvent O eventData ;;
  match createResult with
  | CreateSuccess event =>
      let ids := unshiftEventId (context conv) (ev_id event) in
      reply <- askGenerate O
                 (EventCardPromptFallback (title ce)
                    (default "" (JS.whenTruthy (top5SnippetsSection ce)))
                    (default "" (JS.whenTruthy (top5LinksSection ce)))) ;;
      let reply := stripFieldLines O reply in
      let conv := setContext conv
                    {| creatingEvent := None; lastEventIds := Some ids;
                       lastSearchQuery := lastSearchQuery (context conv) |} in
      respond conv reply true
  | CreateFailure error =>
      reply <- askGenerate O (CreationErrorPromptFallback (title ce) error) ;;
      respond conv reply false
  end.

(** *** Edit (lines 448-471): the context is saved as it is. *)
Definition editBranch (conv : Conversation) (ce : CreatingEvent)
    (message : string) : M Response :=
  reply <- askGenerate O (EditPrompt (title ce) message) ;;
  respond conv reply false.

(** *** Unclear (lines 472-639) *)
Definition unclearBranch (conv : Conversation) (ce : CreatingEvent)
    (message : string) (userLocation : option UserLocation) (userId : ObjectId)
  : M Response :=
  if fallbackNegative (messageLowerFinal message)
  then proceedFallback conv ce userLocation userId
  else
    reply <- askGenerate O (ClarifyPrompt (title ce) message) ;;
    respond conv reply false.

(** *** The confirmation sub-flow (lines 189-640) *)
Definition confirmationFlow (conv : Conversation) (ce : CreatingEvent)
    (message : string) (userLocation : option UserLocation) (userId : ObjectId)
  : M Response :=
  confirmationIntent <- classifyConfirmation ce message ;;
  match confirmationIntent with
  | Proceed => proceedMain conv ce userLocation userId
  | Edit => editBranch conv ce message
  | Unclear => unclearBranch conv ce message userLocation userId
  end.

(** *** Building and showing the draft (lines 642-1055) *)

(** [s] as a condition: the empty string is falsy. *)
Definition nonEmpty (s : string) : bool := negb (String.eqb s "").

Definition rawSnippetsSection (top5Snippets : list Snippet) : string :=
  JS.join (JS.newline ++ JS.newline)
    (List.filter nonEmpty (map sn_snippet top5Snippets)).

Definition linksSection (top5Snippets : list Snippet) : string :=
  JS.join JS.newline (List.filter nonEmpty (map sn_link top5Snippets)).

Definition missing (label : string) (has : bool) : list string :=
  if has then [] else [label].

(** Reached with [intent = 'create'] (or a stored draft) when no
    confirmation is awaited. The [else] of line 1018 repeats the condition
    of line 857 and cannot be taken; the dates and times parsed at lines
    697-708 are not used afterwards. *)
Definition draftBuild (conv : Conversation) (message : string)
    (extractedDetails : ExtractedDetails) (userLocation : option UserLocation)
  : M Response :=
  (* lines 644-649 *)
  let conv :=
    if isWaiting conv
    then setContext conv
           {| creatingEvent := None;
              lastEventIds := lastEventIds (context conv);
              lastSearchQuery := lastSearchQuery (context conv) |}
    else conv in
  let stored := creatingEvent (context conv) in
  (* lines 651-664 *)
  let eventTitle :=
    match stored with
    | Some ce => JS.or_ (Some (title ce)) (eventTitle extractedDetails)
    | None => eventTitle extractedDetails
    end in
  let cached := stored ≫= serperDetails in
  match JS.whenTruthy eventTitle with
  | None =>
      reply <- askGenerate O AskEventTitlePrompt ;;
      respond conv reply false
  | Some eventTitle =>
      (* lines 680-686 *)
      eventDetailsFromSerper <-
        match cached with
        | Some details => ret details
        | None => ask (CallSearchEventDetails eventTitle)
                      (fun t => searchEventDetails O t eventTitle)
        end ;;
      (* lines 697-708 *)
      _eventDate <-
        match JS.whenTruthy (date extractedDetails) with
        | Some d => askParseDate O d
        | None => ret None
        end ;;
      _eventTime <-
        match JS.whenTruthy (time extractedDetails) with
        | Some t => askParseTime O t
        | None => ret None
        end ;;
      (* lines 716-718 *)
      let userProvidedDate := JS.whenTruthy (date extractedDetails) in
      let userProvidedTime := JS.whenTruthy (time extractedDetails) in
      let userProvidedLocation := JS.whenTruthy (location extractedDetails) in
      (* lines 721-799 *)
      let hasSnippets :=
        found eventDetailsFromSerper
        && (0 <? length (rawSnippets eventDetailsFromSerper)) in
      extracted <-
        (if hasSnippets
         then ask (CallExtractFromSnippets eventTitle)
                  (fun t => extractFromSnippets O t eventTitle
                              (take 10 (rawSnippets eventDetailsFromSerper)))
         else ret None) ;;
      let serperExtractedDate := JS.whenTruthy (extracted ≫= fun x => fst (fst x)) in
      let serperExtractedTime := JS.whenTruthy (extracted ≫= fun x => snd (fst x)) in
      let serperExtractedLocation := JS.whenTruthy (extracted ≫= snd) in
      (* lines 801-806 *)
      let top5Snippets :=
        if hasSnippets then take 5 (rawSnippets eventDetailsFromSerper) else [] in
      (* lines 826-840 *)
      let finalUserProvidedDate := JS.or_ userProvidedDate serperExtractedDate in
      let finalUserProvidedTime := JS.or_ userProvidedTime serperExtractedTime in
      let finalUserProvidedLocation :=
        JS.or_ userProvidedLocation serperExtractedLocation in
      (* lines 843-850 *)
      let hasDate := JS.truthy (JS.or_ finalUserProvidedDate serperExtractedDate) in
      let hasTime := JS.truthy (JS.or_ finalUserProvidedTime serperExtractedTime) in
      let hasLocation :=
        JS.truthy (JS.or_ finalUserProvidedLocation serperExtractedLocation)
        || bool_decide (is_Some userLocation) in
      let missingInfo :=
        (missing "date" hasDate ++ missing "time" hasTime
         ++ missing "location" hasLocation)%list in
      (* lines 853-854 *)
      let userProvidedNewInfo :=
        JS.truthy finalUserProvidedDate || JS.truthy finalUserProvidedTime
        || JS.truthy finalUserProvidedLocation || JS.truthy serperExtractedDate
        || JS.truthy serperExtractedTime || JS.truthy serperExtractedLocation in
      let isFirstTime :=
        match stored with
        | Some ce => negb (shownEventCard ce)
        | None => true
        end in
      if (length missingInfo =? 0) || isFirstTime || userProvidedNewInfo
      then
        (* lines 859-932 *)
        top5SnippetsSection <-
          (if 0 <? length top5Snippets
           then
             let snippetsForFormatting :=
               List.filter (fun r => nonEmpty (sn_snippet r)) top5Snippets in
             if 0 <? length snippetsForFormatting
             then
               answer <- ask (CallFormatSnippets snippetsForFormatting)
                             (fun t => formatSnippets O t snippetsForFormatting) ;;
               match answer with
               | Some content =>
                   let formattedSnippets := JS.trim (JS.removeEllipses content) in
                   if 50 <? String.length formattedSnippets
                   then ret formattedSnippets
                   else ret (rawSnippetsSection top5Snippets)
               | None => ret (rawSnippetsSection top5Snippets)
               end
             else ret ""
           else ret "") ;;
        let top5LinksSection :=
          if 0 <? length top5Snippets then linksSection top5Snippets else "" in
        (* lines 936-994 *)
        formattedDisplay <-
          askGenerate O (DisplayPrompt eventTitle top5SnippetsSection
                           top5LinksSection) ;;
        let formattedDisplay := stripFieldLines O formattedDisplay in
        (* lines 996-1049 *)
        let draft :=
          {| title := eventTitle;
             serperDetails := Some eventDetailsFromSerper;
             missingInfo := missingInfo;
             shownEventCard := true;
             waitingForConfirmation := true;
             formattedDisplay := formattedDisplay;
             top5Snippets := top5Snippets;
             top5SnippetsSection := Some top5SnippetsSection;
             top5LinksSection := Some top5LinksSection;
             extractedDate := JS.or_ finalUserProvidedDate serperExtractedDate;
             extractedTime := JS.or_ finalUserProvidedTime serperExtractedTime;
             extractedLocation :=
               JS.or_ finalUserProvidedLocation serperExtractedLocation;
             serperExtractedDate := serperExtractedDate;
             serperExtractedTime := serperExtractedTime;
             serperExtractedLocation := serperExtractedLocation |} in
        respond
          (setContext conv
             {| creatingEvent := Some draft;
                lastEventIds := lastEventIds (context conv);
                lastSearchQuery := lastSearchQuery (context conv) |})
          formattedDisplay false
      else
        (* lines 1052-1054, then the common tail *)
        _reply <- askGenerate O (GeneralPrompt message) ;;
        ret (Elsewhere "create" conv)
  end.

End WithOracle.

End Chat.

(* ===================================================================== *)
(** ** Discovery: in-batch de-duplication, validation, placeholder filter,
       saving (lines 1056-1366) *)
(* ===================================================================== *)

Module Discovery.
Import Model Effects EventService.
Local Open Scope handler_scope.

(** [event.title.toLowerCase().trim()] *)
Definition titleKey (event : Candidate) : string :=
  JS.trim (JS.toLowerCase (c_title event)).

(** [event.sourceUrl ? event.sourceUrl.toLowerCase().trim() : null] *)
Definition urlKey (event : Candidate) : option string :=
  if String.eqb (c_sourceUrl event) "" then None
  else Some (JS.trim (JS.toLowerCase (c_sourceUrl event))).

(** A JavaScript [Set] of strings, in insertion order. *)
Definition setHas (s : list string) (x : string) : bool :=
  existsb (String.eqb x) s.

Definition setAdd (s : list string) (x : string) : list string :=
  if setHas s x then s else s ++ [x].

Record Seen := mkSeen {
  uniqueEvents : list Candidate;
  seenTitles : list string;
  seenUrls : list string
}.

Definition noneSeen : Seen :=
  {| uniqueEvents := []; seenTitles := []; seenUrls := [] |}.

(** [seenTitles.has(titleKey) || (urlKey && seenUrls.has(urlKey))] *)
Definition alreadySeen (st : Seen) (event : Candidate) : bool :=
  setHas (seenTitles st) (titleKey event)
  || match JS.whenTruthy (urlKey event) with
     | Some u => setHas (seenUrls st) u
     | None => false
     end.

(** The inner loop: some seen title with [similarity > 0.9]. *)
Definition isDuplicate (st : Seen) (event : Candidate) : bool :=
  existsb (fun seenTitle =>
             Similarity.Qgtb
               (Similarity.calculateSimilarity (titleKey event) seenTitle)
               Similarity.threshold)
          (seenTitles st).

(** Whether the loop body pushes [event] onto [uniqueEvents]. *)
Definition keeps (st : Seen) (event : Candidate) : bool :=
  negb (alreadySeen st event) && negb (isDuplicate st event).

(** Body of [for (const event of events)] (lines 1097-1119). *)
Definition dedupStep (st : Seen) (event : Candidate) : Seen :=
  if alreadySeen st event then st
  else if negb (isDuplicate st event) then
    {| uniqueEvents := uniqueEvents st ++ [event];
       seenTitles := setAdd (seenTitles st) (titleKey event);
       seenUrls := match JS.whenTruthy (urlKey event) with
                   | Some u => setAdd (seenUrls st) u
                   | None => seenUrls st
                   end |}
  else st.

Definition dedupState (events : list Candidate) : Seen :=
  fold_left dedupStep events noneSeen.

Definition removeDuplicates (events : list Candidate) : list Candidate :=
  uniqueEvents (dedupState events).

(** Lines 1186-1189: 1-based answers to 0-based indices, [-1] dropped. *)
Definition parsedIndices (n : nat) (answer : list nat) : list Z :=
  filter (fun idx => idx <> (-1)%Z)
    (map (fun i => let idx := (Z.of_nat i - 1)%Z in
                   if ((0 <=? idx) && (idx <? Z.of_nat n))%Z then idx
                   else (-1)%Z)
         answer).

(** Lines 1207-1210: the permissive fallback. *)
Definition fallbackIndices (eventsToValidate : list Candidate) : list Z :=
  filter (fun idx => idx <> (-1)%Z)
    (imap (fun idx event =>
             if negb (String.eqb (c_title event) "")
                && (3 <? String.length (c_title event))
             then Z.of_nat idx else (-1)%Z)
          eventsToValidate).

(** Line 1225: an explicit placeholder location. *)
Definition isPlaceholderLocation (event : Candidate) : bool :=
  match JS.whenTruthy (c_location event) with
  | Some loc =>
      String.eqb loc "Location TBD"
      || String.eqb (JS.trim (JS.toLowerCase loc)) "tbd"
  | None => false
  end.

(** Lines 1219-1233. *)
Definition validatedEvents (eventsToValidate : list Candidate)
    (validatedEventIndices : list Z) : list Candidate :=
  take 5
    (filter (fun event => isPlaceholderLocation event = false)
       (omap (fun idx => eventsToValidate !! Z.to_nat idx)
          (filter (fun idx => (0 <= idx)%Z /\ (idx < Z.of_nat (length eventsToValidate))%Z)
                  validatedEventIndices))).

(** The query of lines 1280-1285. *)
Definition isSerpSource (s : option string) : bool :=
  match s with
  | Some src => String.eqb src "serpapi" || String.eqb src "serper"
  | None => false
  end.

Definition findExisting (c : Candidate) (w : World) : option Event :=
  List.find
    (fun e =>
       (JS.isString (ed_title (ev_data e)) (c_title c)
        && isSerpSource (ed_source (ev_data e)))
       || (JS.isString (ed_sourceUrl (ev_data e)) (c_sourceUrl c)
           && isSerpSource (ed_source (ev_data e))))
    (eventsDb w).

Section WithOracle.
Context (O : Oracle).

(** Body of [for (const eventData of eventsToShow)] (lines 1277-1318):
    returns [savedEventIds] extended, or unchanged when the [try] fails. *)
Definition saveValidated (userId : ObjectId) (savedEventIds : list ObjectId)
    (eventData : Candidate) : M (list ObjectId) :=
  tryCatch
    (w <- getWorld ;;
     match findExisting eventData w with
     | None =>
         event <- newEvent O (candidateData eventData userId) ;;
         saveEvent event ;;;
         ret (savedEventIds ++ [ev_id event])%list
     | Some existingEvent =>
         if bool_decide (ed_userId (ev_data existingEvent) = Some userId)
         then ret (savedEventIds ++ [ev_id existingEvent])%list
         else
           event <- newEvent O (candidateData eventData userId) ;;
           saveEvent event ;;;
           ret (savedEventIds ++ [ev_id event])%list
     end)
    (fun _ => ret savedEventIds).

Fixpoint saveAll (userId : ObjectId) (eventsToShow : list Candidate)
    (savedEventIds : list ObjectId) : M (list ObjectId) :=
  match eventsToShow with
  | [] => ret savedEventIds
  | eventData :: rest =>
      ids <- saveValidated userId savedEventIds eventData ;;
      saveAll userId rest ids
  end.

(** The discovery branch up to its reply; returns the conversation as
    left in memory and the reply. *)
Definition discoveryFlow (conv : Conversation) (message : string)
    (extractedDetails : ExtractedDetails) (userLocation : option UserLocation)
    (userId : ObjectId) : M (Conversation * string) :=
  categoryForSearch <-
    match JS.whenTruthy (category extractedDetails),
          JS.whenTruthy (eventTitle extractedDetails) with
    | None, Some eventTitle =>
        categoryResponse <-
          askGenerate O (CategoryExtractionPrompt message eventTitle) ;;
        let categoryLower := JS.trim (JS.toLowerCase categoryResponse) in
        if negb (String.eqb categoryLower "")
           && negb (String.eqb categoryLower "null")
           && (String.length categoryLower <? 30)
        then ret (Some categoryLower)
        else ret (category extractedDetails)
    | _, _ => ret (category extractedDetails)
    end ;;
  let searchFilters :=
    {| sf_location := location extractedDetails;
       sf_category := categoryForSearch;
       sf_date := date extractedDetails;
       sf_city := if useUserLocation extractedDetails
                  then userLocation ≫= city else None;
       sf_region := if useUserLocation extractedDetails
                    then userLocation ≫= region else None |} in
  events <- ask (CallSearchEvents message searchFilters)
                (fun t => searchEvents O t message searchFilters) ;;
  match events with
  | [] =>
      reply <- askGenerate O (NoEventsPrompt message) ;;
      ret (conv, reply)
  | _ :: _ =>
      let uniqueEvents := removeDuplicates events in
      let ctx := {| creatingEvent := creatingEvent (context conv);
                    lastEventIds := lastEventIds (context conv);
                    lastSearchQuery := Some message |} in
      let eventsToValidate := take 15 uniqueEvents in
      answer <- ask (CallValidateEvents eventsToValidate)
                    (fun t => validationAnswer O t eventsToValidate) ;;
      let validatedEventIndices :=
        match answer with
        | Some js => parsedIndices (length eventsToValidate) js
        | None => []
        end in
      let validatedEventIndices :=
        match validatedEventIndices with
        | [] => fallbackIndices eventsToValidate
        | _ => validatedEventIndices
        end in
      let validatedEvents := validatedEvents eventsToValidate validatedEventIndices in
      match validatedEvents with
      | [] =>
          reply <- askGenerate O (NoEventsPrompt message) ;;
          ret (Chat.setContext conv ctx, reply)
      | _ :: _ =>
          let eventsToShow := take 5 validatedEvents in
          savedEventIds <- saveAll userId eventsToShow [] ;;
          let ctx := {| creatingEvent := creatingEvent ctx;
                        lastEventIds := Some savedEventIds;
                        lastSearchQuery := Some message |} in
          reply <- askGenerate O
                     (DiscoveryPrompt message (map c_title eventsToShow)) ;;
          ret (Chat.setContext conv ctx, reply)
      end
  end.

End WithOracle.

End Discovery.

(* ===================================================================== *)
(** ** The request handler [chat] (lines 70-182 and 1915-1918) *)
(* ===================================================================== *)

Module Handler.
Import Model Effects EventService Chat.
Local Open Scope handler_scope.

Section WithOracle.
Context (O : Oracle).

(** [new Conversation({ sessionId: sessionId || randomUUID(), ... })] *)
Definition newConversation (req : Request) (w : World) : Conversation :=
  {| sessionId := if String.eqb (req_sessionId req) ""
                  then randomUUID O (trace w) else req_sessionId req;
     convUserId := req_userId req;
     messages := [];
     lastIntent := None;
     context := emptyContext |}.

(** Lines 101-1366 for one conversation: intent resolution, the location
    step, and the sub-flow chosen by the intent. *)
Definition dispatch (conversation : Conversation) (message : string)
    (userId : ObjectId) : M Response :=
  resolved <- resolveIntent O conversation message ;;
  let conversation := setLastIntent conversation (fst resolved) in
  userLocation <- askUserLocation O userId ;;
  if String.eqb (fst resolved) "create"
     || bool_decide (is_Some (creatingEvent (context conversation)))
  then
    match creatingEvent (context conversation) with
    | Some ce =>
        if waitingForConfirmation ce
        then confirmationFlow O conversation ce message userLocation userId
        else draftBuild O conversation message (snd resolved) userLocation
    | None => draftBuild O conversation message (snd resolved) userLocation
    end
  else if String.eqb (fst resolved) "discovery"
  then
    found <- Discovery.discoveryFlow O conversation message (snd resolved)
               userLocation userId ;;
    ret (Elsewhere "discovery" (fst found))
  else ret (Elsewhere (fst resolved) conversation).

(** The body of the handler's [try]. *)
Definition chatBody (req : Request) : M Response :=
  let message := req_message req in
  let userId := req_userId req in
  if String.eqb (JS.trim message) ""
  then ret (Status400 "Message cannot be empty")
  else
    w <- getWorld ;;
    let conversation :=
      match findConversation (req_sessionId req) userId w with
      | Some c => c
      | None => newConversation req w
      end in
    dispatch
      (pushMessage conversation {| role := "user"; content := JS.trim message |})
      message userId.

(** [try { ... } catch (error) { res.status(500)... }] *)
Definition chat (req : Request) : M Response :=
  tryCatch (chatBody req)
    (fun _ => ret (Status500 "An error occurred while processing your message")).

End WithOracle.

End Handler.

(* ===================================================================== *)
(** ** [generateContextualSuggestions] (chatController, lines 17-67) *)
(* ===================================================================== *)

Module Suggestions.

(** Truthiness of a number-or-undefined value: [undefined], [null] and 0
    are falsy (coordinates are finite, never [NaN]). *)
Definition truthyNumber (v : option Q) : bool :=
  match v with
  | Some q => negb (Qeq_bool q 0)
  | None => false
  end.

(** An event as [generateContextualSuggestions] reads it. *)
Record SuggestedEvent := mkSuggestedEvent {
  se_title : string;
  se_location : option string;
  se_lat : option Q;
  se_lng : option Q
}.

Record SuggestionLocation := mkSuggestionLocation {
  sl_lat : option Q;
  sl_city : option string
}.

(** The [context] argument: every key may be missing. *)
Record SuggestionContext := mkSuggestionContext {
  sc_events : option (list SuggestedEvent);
  sc_eventCreated : bool;
  sc_registered : bool;
  sc_reminderSet : bool;
  sc_userLocation : option SuggestionLocation;
  sc_isLocationBased : bool
}.

Definition mapSuggestion : string := "View results on Map 🗺️".

(** [(event.lat && event.lng) || (event.location && event.location.trim())] *)
Definition hasLocation (event : SuggestedEvent) : bool :=
  (truthyNumber (se_lat event) && truthyNumber (se_lng event))
  || (JS.truthy (se_location event)
      && JS.truthy (JS.trim <$> se_location event)).

(** Lines 17-67. *)
Definition generateContextualSuggestions (intent : string)
    (context : SuggestionContext) : list string :=
  let events := default [] (sc_events context) in
  let suggestions :=
    if String.eqb intent "discovery" && (0 <? length events) then
      let hasUserLocation :=
        match sc_userLocation context with
        | Some ul => truthyNumber (sl_lat ul) || JS.truthy (sl_city ul)
        | None => false
        end in
      let isLocationBased := sc_isLocationBased context in
      let eventsHaveLocation := existsb hasLocation events in
      let suggestions :=
        if hasUserLocation && isLocationBased && eventsHaveLocation
        then [mapSuggestion] else [] in
      let topEvents := take 2 events in
      let suggestions :=
        (suggestions
         ++ map (fun event => ("Register for " ++ se_title event)%string)
                topEvents)%list in
      match topEvents with
      | first :: _ =>
          (suggestions ++ [("Set reminder for " ++ se_title first)%string])%list
      | [] => suggestions
      end
    else if String.eqb intent "create" && sc_eventCreated context then
      ["View in sidebar"; "Create another event"; "Find similar events"]
    else if String.eqb intent "registration" && sc_registered context then
      ["Set a reminder"; "View my registered events"; "Find more events"]
    else if String.eqb intent "reminder" && sc_reminderSet context then
      ["View my reminders"; "Register for another event"]
    else
      ["Show upcoming events"; "Create a new event"; "View my events"] in
  take 3 suggestions.

End Suggestions.

(* ===================================================================== *)
(** ** [safeSaveConversation] with its retries (utils/conversationPersistence) *)
(* ===================================================================== *)

Module ConversationPersistence.

(** An error thrown by [conversation.save()], as the helper reads it. *)
Record SaveError := mkSaveError {
  err_name : string;
  err_code : option Z;
  err_message : option string
}.

(** What one call of [conversation.save()] does. *)
Inductive SaveOutcome :=
| Saved
| Failed (error : SaveError).

(** [{ success, error }] *)
Record SaveResult := mkSaveResult {
  success : bool;
  error : option string
}.

(** [options]: a missing [retries] is 2. ([silent] only mutes the log.) *)
Record SaveOptions := mkSaveOptions {
  opt_retries : option nat
}.

(** The state of the [for] loop: still running, left by [return], or
    left by [break]; with the number of [save()] calls made and the
    delays slept through, in milliseconds. *)
Inductive Control :=
| Running
| Returned (result : SaveResult)
| Broke.

Record LoopState := mkLoopState {
  control : Control;
  lastError : option SaveError;
  saveCalls : nat;
  delays : list nat
}.

Definition isDuplicateKey (e : SaveError) : bool :=
  bool_decide (err_code e = Some 11000%Z).

(** [isRetryable] (lines 22-24). *)
Definition isRetryable (e : SaveError) : bool :=
  String.eqb (err_name e) "MongoNetworkError"
  || String.eqb (err_name e) "MongoTimeoutError"
  || isDuplicateKey e.

(** [Math.min(100 * Math.pow(2, attempt), 1000)] *)
Definition backoff (attempt : nat) : nat := Nat.min (100 * 2 ^ attempt) 1000.

(** One iteration of [for (let attempt = 0; attempt <= retries; attempt++)]
    (lines 14-52); [save attempt] is what the call of [conversation.save()]
    made in this iteration does. *)
Definition attemptStep (save : nat -> SaveOutcome) (retries : nat)
    (st : LoopState) (attempt : nat) : LoopState :=
  match control st with
  | Running =>
      match save attempt with
      | Saved =>
          {| control := Returned {| success := true; error := None |};
             lastError := lastError st;
             saveCalls := S (saveCalls st);
             delays := delays st |}
      | Failed e =>
          if isDuplicateKey e then
            {| control := Returned {| success := false;
                                      error := Some "Duplicate sessionId" |};
               lastError := Some e;
               saveCalls := S (saveCalls st);
               delays := delays st |}
          else if (attempt <? retries) && isRetryable e then
            {| control := Running;
               lastError := Some e;
               saveCalls := S (saveCalls st);
               delays := (delays st ++ [backoff attempt])%list |}
          else
            {| control := Broke;
               lastError := Some e;
               saveCalls := S (saveCalls st);
               delays := delays st |}
      end
  | _ => st
  end.

Definition initialState : LoopState :=
  {| control := Running; lastError := None; saveCalls := 0; delays := [] |}.

Definition attempts (save : nat -> SaveOutcome) (retries : nat) : LoopState :=
  fold_left (attemptStep save retries) (List.seq 0 (S retries)) initialState.

(** The value returned: the loop's own [return], or after the loop
    [lastError?.message || 'Unknown error during conversation save']. *)
Definition resultOf (st : LoopState) : SaveResult :=
  match control st with
  | Returned r => r
  | _ =>
      {| success := false;
         error := JS.or_ (lastError st ≫= err_message)
                         (Some "Unknown error during conversation save") |}
  end.

Definition safeSaveConversation (save : nat -> SaveOutcome)
    (options : SaveOptions) : SaveResult :=
  resultOf (attempts save (default 2 (opt_retries options))).

(** A failure the helper sleeps on and tries again: a network or timeout
    error that is no duplicate-key error. *)
Definition transient (o : SaveOutcome) : bool :=
  match o with
  | Saved => false
  | Failed e => negb (isDuplicateKey e) && isRetryable e
  end.

End ConversationPersistence.

(* ===================================================================== *)
(** ** [serperService]: [searchEvents] and the helpers around it *)
(* ===================================================================== *)

Module SerperService.
Import Model Effects Discovery.

(** An organic result as a search API answers it: every key may be
    missing. *)
Record RawResult := mkRawResult {
  raw_title : option string;
  raw_snippet : option string;
  raw_link : option string;
  raw_url : option string
}.

(** What the service reads from outside: the two search APIs (the
    organic results for a query and a result count, [None] when the
    request throws), whether a Serper key is configured,
    [new Date(string)] ([None] for an invalid date), the clock read by
    the n-th [new Date()], and the current year as printed. *)
Record SearchEnv := mkSearchEnv {
  serpApi : string -> nat -> option (list RawResult);
  serper : string -> nat -> option (list RawResult);
  serperApiKey : bool;
  parseDate : string -> option Date;
  clock : nat -> Date;
  currentYear : string
}.

(** [v || ''] *)
Definition orEmpty (v : option string) : string :=
  default "" (JS.whenTruthy v).

(** [searchWithSerpAPI] *)
Definition searchWithSerpAPI (env : SearchEnv) (searchQuery : string)
  : option (list Snippet) :=
  map (fun result =>
         {| sn_title := orEmpty (raw_title result);
            sn_snippet := orEmpty (raw_snippet result);
            sn_link := orEmpty (JS.or_ (raw_link result) (raw_url result)) |})
  <$> serpApi env searchQuery 20.

(** [searchWithSerper] *)
Definition searchWithSerper (env : SearchEnv) (searchQuery : string)
  : option (list Snippet) :=
  map (fun result =>
         {| sn_title := orEmpty (raw_title result);
            sn_snippet := orEmpty (raw_snippet result);
            sn_link := orEmpty (raw_link result) |})
  <$> serper env searchQuery 20.

(** The double quote character. *)
Definition quote : string := String (ascii_of_nat 34) EmptyString.

(** [-"phrase"] *)
Definition excludePhrase (phrase : string) : string :=
  " -" ++ quote ++ phrase ++ quote.

(** The query sent by [searchEvents]. *)
Definition searchQueryOf (env : SearchEnv) (query : option string)
    (filters : SearchFilters) : string :=
  let cleanQuery := JS.trim (default "upcoming events" (JS.whenTruthy query)) in
  let cleanQuery :=
    if String.eqb cleanQuery "" || (String.length cleanQuery <? 2)
    then "upcoming events" else cleanQuery in
  let categoryToUse :=
    default cleanQuery (JS.whenTruthy (sf_category filters)) in
  let loc :=
    JS.whenTruthy
      (JS.or_ (JS.or_ (sf_city filters) (sf_region filters))
              (sf_location filters)) in
  let searchQuery :=
    match loc with
    | Some loc => categoryToUse ++ " events in " ++ loc
    | None => categoryToUse ++ " events"
    end in
  let searchQuery :=
    match JS.whenTruthy (sf_date filters) with
    | Some date => searchQuery ++ " " ++ date
    | None => searchQuery ++ " " ++ currentYear env ++ " upcoming"
    end in
  searchQuery ++ " tickets registration"
    ++ " -site:calendly.com -site:doodle.com -site:translate.google.com -site:schema.org"
    ++ " -site:medium.com -site:wikipedia.org -site:reddit.com"
    ++ excludePhrase "how to" ++ excludePhrase "best practices"
    ++ excludePhrase "guide to" ++ excludePhrase "tips for"
    ++ excludePhrase "ideas for"
    ++ " -inurl:blog -inurl:article -inurl:wiki -inurl:guide".

(** The [$or] query of the per-result existence check: a stored event
    from either search API with the same title up to letter case (the
    anchored, escaped, case-insensitive pattern), or with the same source
    URL. *)
Definition storedMatch (eventData : Candidate) (e : Event) : bool :=
  (match ed_title (ev_data e) with
   | Some t => String.eqb (JS.toLowerCase t) (JS.toLowerCase (c_title eventData))
   | None => false
   end
   && isSerpSource (ed_source (ev_data e)))
  || (JS.isString (ed_sourceUrl (ev_data e)) (c_sourceUrl eventData)
      && isSerpSource (ed_source (ev_data e))).

(** The state of the loop over the results: the candidates pushed, the
    two [Set]s, and the number of results gone through. *)
Record Batch := mkBatch {
  b_events : list Candidate;
  b_seenTitles : list string;
  b_seenUrls : list string;
  b_index : nat
}.

Definition emptyBatch : Batch :=
  {| b_events := []; b_seenTitles := []; b_seenUrls := []; b_index := 0 |}.

(** Body of [for (const result of results)]. *)
Definition resultStep (env : SearchEnv) (w : World) (filters : SearchFilters)
    (apiUsed : string) (st : Batch) (result : Snippet) : Batch :=
  let skip :=
    {| b_events := b_events st; b_seenTitles := b_seenTitles st;
       b_seenUrls := b_seenUrls st; b_index := S (b_index st) |} in
  let eventDate :=
    match JS.whenTruthy (sf_date filters) with
    | Some date => default (clock env (b_index st)) (parseDate env date)
    | None => clock env (b_index st)
    end in
  let eventTitle := JS.trim (sn_title result) in
  if String.eqb eventTitle "" || (String.length eventTitle <? 3) then skip
  else
    let eventLocation :=
      JS.whenTruthy (JS.or_ (sf_city filters) (sf_location filters)) in
    let titleKey := JS.trim (JS.toLowerCase eventTitle) in
    let urlKey := JS.trim (JS.toLowerCase (sn_link result)) in
    if setHas (b_seenTitles st) titleKey
       || (negb (String.eqb urlKey "") && setHas (b_seenUrls st) urlKey)
    then skip
    else
      let seenTitles := setAdd (b_seenTitles st) titleKey in
      let seenUrls :=
        if negb (String.eqb urlKey "") then setAdd (b_seenUrls st) urlKey
        else b_seenUrls st in
      let eventData :=
        {| c_title := eventTitle;
           c_category := JS.whenTruthy (sf_category filters);
           c_location := eventLocation;
           c_source := apiUsed;
           c_sourceUrl := sn_link result;
           c_startDate := eventDate;
           c_snippet := sn_snippet result |} in
      if existsb (storedMatch eventData) (eventsDb w)
      then {| b_events := b_events st; b_seenTitles := seenTitles;
              b_seenUrls := seenUrls; b_index := S (b_index st) |}
      else {| b_events := b_events st ++ [eventData];
              b_seenTitles := seenTitles; b_seenUrls := seenUrls;
              b_index := S (b_index st) |}.

Definition candidatesOf (env : SearchEnv) (w : World) (filters : SearchFilters)
    (apiUsed : string) (results : list Snippet) : list Candidate :=
  b_events (fold_left (resultStep env w filters apiUsed) results emptyBatch).

(** [searchEvents]: SerpAPI first, Serper when that throws and a key is
    configured; no candidates when both fail. *)
Definition searchEvents (env : SearchEnv) (w : World) (query : option string)
    (filters : SearchFilters) : list Candidate :=
  let searchQuery := searchQueryOf env query filters in
  match searchWithSerpAPI env searchQuery with
  | Some results => candidatesOf env w filters "serpapi" results
  | None =>
      if serperApiKey env then
        match searchWithSerper env searchQuery with
        | Some results => candidatesOf env w filters "serper" results
        | None => []
        end
      else []
  end.

(** What [searchEvents] establishes for a candidate it returns. *)
Definition wellFormed (w : World) (apiUsed : string) (c : Candidate) : Prop :=
  3 <= String.length (c_title c)
  /\ JS.trim (c_title c) = c_title c
  /\ c_source c = apiUsed
  /\ existsb (storedMatch c) (eventsDb w) = false.

(** What the loop maintains. *)
Record batchOk (w : World) (apiUsed : string) (st : Batch) : Prop := {
  ok_titles :
    forall c, In c (b_events st) ->
              setHas (b_seenTitles st) (titleKey c) = true;
  ok_urls :
    forall c u, In c (b_events st) -> JS.whenTruthy (urlKey c) = Some u ->
                setHas (b_seenUrls st) u = true;
  ok_distinct_titles : NoDup (map titleKey (b_events st));
  ok_distinct_urls :
    NoDup (omap (fun c => JS.whenTruthy (urlKey c)) (b_events st));
  ok_each : Forall (wellFormed w apiUsed) (b_events st)
}.

End SerperService.

(* ===================================================================== *)
(** ** [serperService]: [searchEventDetails] *)
(* ===================================================================== *)

Module SerperDetailsService.
Import Model Effects Discovery SerperService.

(** What [searchEventDetails] returns. [date], [time] and [location] are
    always [null]. *)
Record EventDetails := mkEventDetails {
  det_found : bool;
  det_title : string;
  det_date : option string;
  det_time : option string;
  det_location : option string;
  det_description : option string;
  det_sourceUrl : option string;
  det_allSnippets : list string;
  det_allUrls : list string;
  det_rawSnippets : list Snippet
}.

(** The results one query adds to [allResults]: SerpAPI's, formatted;
    when SerpAPI throws and a key is configured, Serper's, as they come;
    nothing when that throws too (the outer [catch] moves on). *)
Definition resultsFor (env : SearchEnv) (searchQuery : string) : list RawResult :=
  match serpApi env searchQuery 10 with
  | Some serpResults =>
      map (fun result =>
             {| raw_title := Some (orEmpty (raw_title result));
                raw_snippet := Some (orEmpty (raw_snippet result));
                raw_link := Some (orEmpty (JS.or_ (raw_link result)
                                                  (raw_url result)));
                raw_url := None |})
          serpResults
  | None =>
      if serperApiKey env then default [] (serper env searchQuery 10) else []
  end.

Definition searchQueries (eventName : string) : list string :=
  [eventName ++ " event date time location";
   eventName ++ " festival celebration";
   eventName ++ " 2024 2025 2026"].

Definition allResultsOf (env : SearchEnv) (eventName : string) : list RawResult :=
  flat_map (resultsFor env) (searchQueries eventName).

(** Body of the loop that removes duplicates by URL; the state is
    [(uniqueResults, seenUrls)]. *)
Definition uniqueStep (st : list RawResult * list string) (result : RawResult)
  : list RawResult * list string :=
  match JS.whenTruthy (raw_link result) with
  | Some link =>
      if setHas (snd st) link then st
      else ((fst st ++ [result])%list, setAdd (snd st) link)
  | None => st
  end.

Definition uniqueResultsOf (allResults : list RawResult) : list RawResult :=
  fst (fold_left uniqueStep allResults ([], [])).

Definition rawSnippetOf (r : RawResult) : Snippet :=
  {| sn_title := orEmpty (raw_title r);
     sn_snippet := orEmpty (raw_snippet r);
     sn_link := orEmpty (raw_link r) |}.

Definition nonEmptyString (s : string) : bool := negb (String.eqb s "").

Definition detailsOf (eventName : string) (allResults : list RawResult)
  : EventDetails :=
  let uniqueResults := uniqueResultsOf allResults in
  match uniqueResults with
  | firstResult :: _ =>
      {| det_found := true;
         det_title := eventName;
         det_date := None; det_time := None; det_location := None;
         det_description := JS.whenTruthy (raw_snippet firstResult);
         det_sourceUrl := JS.whenTruthy (raw_link firstResult);
         det_allSnippets :=
           List.filter nonEmptyString
             (map (fun r => orEmpty (raw_snippet r)) (take 10 uniqueResults));
         det_allUrls :=
           List.filter nonEmptyString
             (map (fun r => orEmpty (raw_link r)) (take 10 uniqueResults));
         det_rawSnippets :=
           List.filter
             (fun r => nonEmptyString (sn_snippet r)
                       || nonEmptyString (sn_title r))
             (map rawSnippetOf (take 10 uniqueResults)) |}
  | [] =>
      {| det_found := false;
         det_title := eventName;
         det_date := None; det_time := None; det_location := None;
         det_description := None;
         det_sourceUrl := None;
         det_allSnippets := []; det_allUrls := []; det_rawSnippets := [] |}
  end.

(** [searchEventDetails] *)
Definition searchEventDetails (env : SearchEnv) (eventName : string)
  : EventDetails :=
  detailsOf eventName (allResultsOf env eventName).

(** What the URL loop maintains. *)
Record uniqueOk (allResults : list RawResult)
    (st : list RawResult * list string) : Prop := {
  unique_from_input : forall r, In r (fst st) -> In r allResults;
  unique_linked :
    forall r, In r (fst st) ->
              exists link, JS.whenTruthy (raw_link r) = Some link
                           /\ setHas (snd st) link = true;
  seen_unique :
    forall link, setHas (snd st) link = true ->
                 exists r, In r (fst st)
                           /\ JS.whenTruthy (raw_link r) = Some link;
  unique_distinct : NoDup (map (fun r => orEmpty (raw_link r)) (fst st))
}.

End SerperDetailsService.


(* ===================================================================== *)
(** ** Relations between worlds used to state what a computation may do *)
(* ===================================================================== *)

Module Logic.
Import Model Effects.

(** [c] only moves the world along [R]. *)
Definition preserves (R : World -> World -> Prop) {A} (c : M A) : Prop :=
  forall w r w', c w = (r, w') -> R w w'.

(** The trace grew by calls that all satisfy [P]. *)
Definition traceExtends (P : Call -> Prop) (w w' : World) : Prop :=
  exists calls, trace w' = (trace w ++ calls)%list /\ Forall P calls.

(** The Event collection grew by documents that all satisfy [Q]. *)
Definition eventsExtend (Q : Event -> Prop) (w w' : World) : Prop :=
  exists docs, eventsDb w' = (eventsDb w ++ docs)%list /\ Forall Q docs.

Definition notExtraction (c : Call) : Prop :=
  match c with
  | CallExtractEventDetails _ => False
  | _ => True
  end.

(** A conversation's draft, if it has one, awaits confirmation. *)
Definition draftWaiting (c : Conversation) : Prop :=
  match creatingEvent (context c) with
  | Some ce => waitingForConfirmation ce = true
  | None => True
  end.

(** Every conversation document is an old one or satisfies [P]. *)
Definition conversationsExtend (P : Conversation -> Prop) (w w' : World) : Prop :=
  forall c, In c (conversationsDb w') -> In c (conversationsDb w) \/ P c.

Definition allDraftsWaiting (w : World) : Prop :=
  forall c, In c (conversationsDb w) -> draftWaiting c.

(** The stored location is not the placeholder. *)
Definition locationNotTBD (ev : Event) : Prop :=
  ed_location (ev_data ev) <> Some "TBD".

End Logic.

(* ===================================================================== *)
(** ** The table behind [editDistance] *)
(* ===================================================================== *)

Module Levenshtein.
Import Similarity.

(** Entry [(i, j)] of the table the two loops of [editDistance] run
    through, one row at a time: the value held for the first [i]
    characters of [s1] and the first [j] characters of [s2]. *)
Fixpoint table (s1 s2 : string) (i j : nat) {struct i} : nat :=
  match i with
  | 0 => j
  | S i' =>
      (fix row (j : nat) : nat :=
         match j with
         | 0 => S i'
         | S j' =>
             if charNeq (JS.charAt s1 i') (JS.charAt s2 j')
             then Nat.min (Nat.min (table s1 s2 i' j') (row j'))
                          (table s1 s2 i' (S j')) + 1
             else table s1 s2 i' j'
         end) j
  end.

(** The Wagner-Fischer recurrence for the Levenshtein distance with unit
    costs: deletion, insertion, and substitution (free on equal
    characters). *)
Fixpoint distance (s1 s2 : string) (i j : nat) {struct i} : nat :=
  match i with
  | 0 => j
  | S i' =>
      (fix row (j : nat) : nat :=
         match j with
         | 0 => S i'
         | S j' =>
             Nat.min (Nat.min (distance s1 s2 i' (S j') + 1) (row j' + 1))
                     (distance s1 s2 i' j'
                      + (if charNeq (JS.charAt s1 i') (JS.charAt s2 j')
                         then 1 else 0))
         end) j
  end.

(** Row [i] of the table as the array [costs] holds it after the outer
    loop's iteration [i]. *)
Definition rowOf (s1 s2 : string) (i : nat) : list nat :=
  map (table s1 s2 i) (List.seq 0 (S (String.length s2))).

End Levenshtein.

(* ===================================================================== *)
(** ** [calculateSimilarity] for any lower-casing *)
(* ===================================================================== *)

Module CaseFolding.
Import Similarity.

Section WithLowerCase.

(** [String.prototype.toLowerCase] as any function on strings: unlike
    [JS.toLowerCase] it may change a string's length (U+0130 becomes two
    code units). *)
Variable toLowerCase : string -> string.

(** [editDistance] (lines 1930-1954), the loops as in [Similarity]. *)
Definition editDistance (s1 s2 : string) : nat :=
  let s1 := toLowerCase s1 in
  let s2 := toLowerCase s2 in
  let costs := fold_left (outerStep s1 s2) (List.seq 0 (S (String.length s1))) [] in
  arrayGet costs (String.length s2).

(** [calculateSimilarity] (lines 1922-1928): the lengths are taken before
    the strings are lower-cased. *)
Definition calculateSimilarity (s1 s2 : string) : Q :=
  let longer := if String.length s2 <? String.length s1 then s1 else s2 in
  let shorter := if String.length s2 <? String.length s1 then s2 else s1 in
  let longerLength := String.length longer in
  if longerLength =? 0 then 1%Q
  else ((Z.of_nat longerLength - Z.of_nat (editDistance longer shorter))
          # Pos.of_nat longerLength)%Q.

End WithLowerCase.

(** A lower-casing that turns the one-unit string "I" into two units, as
    [toLowerCase] does with U+0130, and is [JS.toLowerCase] elsewhere. *)
Definition lengthening (s : string) : string :=
  if String.eqb s "I" then "i'" else JS.toLowerCase s.

End CaseFolding.

(* ===================================================================== *)
(** ** Duplicates among search results *)
(* ===================================================================== *)

Module Duplicates.
Import Model Discovery.

(** The three tests of the de-duplication loop (lines 1097-1119), for a
    result [b] met after a kept result [a]: the same title key, a title
    key more than 0.9 similar, or the same non-empty URL key. *)
Definition duplicateOf (a b : Candidate) : Prop :=
  titleKey b = titleKey a
  \/ Similarity.Qgtb
       (Similarity.calculateSimilarity (titleKey b) (titleKey a))
       Similarity.threshold = true
  \/ (exists u, JS.whenTruthy (urlKey a) = Some u
                /\ JS.whenTruthy (urlKey b) = Some u).

(** What the loop maintains: the two sets hold exactly the keys of the
    kept results. *)
Record consistent (st : Seen) : Prop := {
  kept_title_seen :
    forall a, In a (uniqueEvents st) ->
              setHas (seenTitles st) (titleKey a) = true;
  kept_url_seen :
    forall a u, In a (uniqueEvents st) ->
                JS.whenTruthy (urlKey a) = Some u ->
                setHas (seenUrls st) u = true;
  seen_title_kept :
    forall t, setHas (seenTitles st) t = true ->
              exists a, In a (uniqueEvents st) /\ titleKey a = t;
  seen_url_kept :
    forall u, setHas (seenUrls st) u = true ->
              exists a, In a (uniqueEvents st)
                        /\ JS.whenTruthy (urlKey a) = Some u
}.

End Duplicates.

(* ===================================================================== *)
(** ** Computations that always return *)
(* ===================================================================== *)

Module Outcome.
Import Model Effects.

(** [c] always returns, and [P] relates the world before, the value
    returned and the world after. *)
Definition returns {A} (c : M A) (P : World -> A -> World -> Prop) : Prop :=
  forall w, exists a w', c w = (Ok a, w') /\ P w a w'.

(** The Event collection is the same or longer. *)
Definition eventsGrow (w w' : World) : Prop :=
  exists docs, eventsDb w' = (eventsDb w ++ docs)%list.

(** Some stored event has this id and belongs to [userId]. *)
Definition ownedBy (userId : ObjectId) (w : World) (id : ObjectId) : Prop :=
  exists e, In e (eventsDb w) /\ ev_id e = id
            /\ ed_userId (ev_data e) = Some userId.

End Outcome.

(* ===================================================================== *)
(** ** Invariants of the stores *)
(* ===================================================================== *)

Module Stores.
Import Model Effects.

(** The unique index of the Registration collection: one row per
    [(userId, eventId)]. *)
Definition uniqueRegistrations (w : World) : Prop :=
  NoDup (map (fun r => (reg_userId r, reg_eventId r)) (registrationsDb w)).

(** ObjectIds handed out so far are below the next one. *)
Definition freshIds (w : World) : Prop :=
  Forall (fun e => ev_id e < nextObjectId w) (eventsDb w).

End Stores.


(* ===================================================================== *)
(** ** Concrete sessions used as witnesses and counterexamples *)
(* ===================================================================== *)

Module Scenario.
Import Model Effects EventService Chat Handler.

(** A language model that always answers [answer], a date parser that
    always returns [parsedDate], a time parser that always returns
    [parsedTime]; no search results, no known user location. *)
Definition oracle (answer : string) (parsedDate : option Date)
    (parsedTime : option (nat * nat)) : Oracle :=
  {| extractEventDetailsWithAI := fun _ _ _ =>
       {| intent := "general"; eventTitle := None; date := None;
          time := None; location := None; category := None;
          useUserLocation := false |};
     generateResponse := fun _ _ => answer;
     parseDateWithAI := fun _ _ => parsedDate;
     parseTimeWithAI := fun _ _ => parsedTime;
     resolveUserLocation := fun _ _ => None;
     searchEvents := fun _ _ _ => [];
     validationAnswer := fun _ _ => None;
     searchEventDetails := fun _ _ => {| found := false; rawSnippets := [] |};
     extractFromSnippets := fun _ _ _ => None;
     formatSnippets := fun _ _ => None;
     randomUUID := fun _ => "generated-session";
     now := fun _ => 0%Z;
     stripFieldLines := fun s => s |}.

(** A draft shown to the user: "Tech Meetup" with the given stored date,
    time and location, waiting for confirmation. *)
Definition draft (d t l : option string) : CreatingEvent :=
  {| title := "Tech Meetup";
     serperDetails := Some {| found := false; rawSnippets := [] |};
     missingInfo := []; shownEventCard := true;
     waitingForConfirmation := true; formattedDisplay := "Tech Meetup";
     top5Snippets := [];
     top5SnippetsSection := Some ""; top5LinksSection := Some "";
     extractedDate := d; extractedTime := t; extractedLocation := l;
     serperExtractedDate := None; serperExtractedTime := None;
     serperExtractedLocation := None |}.

Definition stored (ce : CreatingEvent) (ids : option (list ObjectId))
  : Conversation :=
  {| sessionId := "s1"; convUserId := 7;
     messages := [{| role := "user"; content := "Create event: Tech Meetup" |}];
     lastIntent := Some "create";
     context := {| creatingEvent := Some ce; lastEventIds := ids;
                   lastSearchQuery := None |} |}.

Definition world (ce : CreatingEvent) (ids : option (list ObjectId)) : World :=
  {| eventsDb := []; registrationsDb := [];
     conversationsDb := [stored ce ids]; usersDb := [];
     nextObjectId := 100; trace := [] |}.

Definition say (m : string) : Request :=
  {| req_sessionId := "s1"; req_message := m; req_userId := 7 |}.

(** The draft of "Create event: Tech Meetup at 5pm": a time, no date. *)
Definition timeOnlyDraft : CreatingEvent := draft None (Some "17:00") None.

(** Two search results whose titles differ in one character out of ten,
    and a chain of three titles of twenty characters. *)
Definition candidate (t url : string) : Candidate :=
  {| c_title := t; c_category := None; c_location := None;
     c_source := "serper"; c_sourceUrl := url; c_startDate := 0%Z;
     c_snippet := "" |}.

Definition jazzNight : Candidate := candidate "Jazz Night" "https://a.example/1".
Definition jazzFight : Candidate := candidate "Jazz Fight" "https://b.example/2".

Definition fest01 : Candidate := candidate "Summer Music Fest 01" "https://a.example/01".
Definition fest02 : Candidate := candidate "Summer Music Fest 02" "https://a.example/02".
Definition fest12 : Candidate := candidate "Summer Music Fest 12" "https://a.example/12".

(** A search client that returns [results], a validator that answers
    [answer]. *)
Definition searching (results : list Candidate) (answer : option (list nat))
  : Oracle :=
  {| extractEventDetailsWithAI := fun _ _ _ =>
       {| intent := "discovery"; eventTitle := None; date := None;
          time := None; location := None; category := None;
          useUserLocation := false |};
     generateResponse := fun _ _ => "Here is what I found.";
     parseDateWithAI := fun _ _ => None;
     parseTimeWithAI := fun _ _ => None;
     resolveUserLocation := fun _ _ => None;
     searchEvents := fun _ _ _ => results;
     validationAnswer := fun _ _ => answer;
     searchEventDetails := fun _ _ => {| found := false; rawSnippets := [] |};
     extractFromSnippets := fun _ _ _ => None;
     formatSnippets := fun _ _ => None;
     randomUUID := fun _ => "generated-session";
     now := fun _ => 0%Z;
     stripFieldLines := fun s => s |}.

Definition located (t url loc : string) : Candidate :=
  {| c_title := t; c_category := None; c_location := Some loc;
     c_source := "serper"; c_sourceUrl := url; c_startDate := 0%Z;
     c_snippet := "" |}.

(** Three results: two with a placeholder location, one in Berlin. *)
Definition placeholderResults : list Candidate :=
  [ located "PyCon Berlin 2026" "https://a.example/pycon" "TBD";
    located "Jazz Night" "https://b.example/jazz" "Berlin";
    located "Harvest Market" "https://c.example/market" "  tbd " ].

Definition discoveryDetails : ExtractedDetails :=
  {| intent := "discovery"; eventTitle := None; date := None; time := None;
     location := None; category := None; useUserLocation := false |}.

Definition freshConversation : Conversation :=
  {| sessionId := "s2"; convUserId := 7; messages := []; lastIntent := None;
     context := emptyContext |}.

(** An extraction that reads a creation request, a model that answers
    [answer]; the search finds nothing. *)
Definition creating (details : ExtractedDetails) (answer : string)
    (parsedDate : option Date) (parsedTime : option (nat * nat)) : Oracle :=
  {| extractEventDetailsWithAI := fun _ _ _ => details;
     generateResponse := fun _ _ => answer;
     parseDateWithAI := fun _ _ => parsedDate;
     parseTimeWithAI := fun _ _ => parsedTime;
     resolveUserLocation := fun _ _ => None;
     searchEvents := fun _ _ _ => [];
     validationAnswer := fun _ _ => None;
     searchEventDetails := fun _ _ => {| found := false; rawSnippets := [] |};
     extractFromSnippets := fun _ _ _ => None;
     formatSnippets := fun _ _ => None;
     randomUUID := fun _ => "generated-session";
     now := fun _ => 0%Z;
     stripFieldLines := fun s => s |}.

(** What the extraction reads in "Create event: Tech Meetup at 5pm". *)
Definition meetupAtFive : ExtractedDetails :=
  {| intent := "create"; eventTitle := Some "Tech Meetup"; date := None;
     time := Some "17:00"; location := None; category := None;
     useUserLocation := false |}.

(** What the extraction reads in "Create event: Tech Summit 2025". *)
Definition techSummit : ExtractedDetails :=
  {| intent := "create"; eventTitle := Some "Tech Summit 2025"; date := None;
     time := None; location := None; category := None;
     useUserLocation := false |}.

(** A world in which user 7 is registered for event 42. *)
Definition registered : World :=
  {| eventsDb := []; 
     registrationsDb :=
       [{| reg_id := 1; reg_userId := 7; reg_eventId := 42;
           reg_name := "Ada"; reg_email := "ada@example.org";
           reg_status := "confirmed" |}];
     conversationsDb := []; usersDb := []; nextObjectId := 2; trace := [] |}.

End Scenario.

(* ===================================================================== *)
(** ** Sample data for the search service and the event service *)
(* ===================================================================== *)

Module Samples.
Import Model Effects EventService SerperService.

Definition rawResult (t link : string) : RawResult :=
  {| raw_title := Some t; raw_snippet := Some "An evening of live music.";
     raw_link := Some link; raw_url := None |}.

(** SerpAPI answers every query with three results, the second a
    respelling of the first; Serper is not configured. *)
Definition searchEnv : SearchEnv :=
  {| serpApi := fun _ _ =>
       Some [rawResult "Jazz Night" "https://a.example/jazz";
             rawResult "  jazz night " "https://b.example/jazz";
             rawResult "Jazz Fight" "https://a.example/fight"];
     serper := fun _ _ => None;
     serperApiKey := false;
     parseDate := fun _ => None;
     clock := fun n => Z.of_nat n;
     currentYear := "2026" |}.

Definition noFilters : SearchFilters :=
  {| sf_location := None; sf_category := None; sf_date := None;
     sf_city := None; sf_region := None |}.

Definition found (t link : string) (at_ : Z) : Candidate :=
  {| c_title := t; c_category := None; c_location := None;
     c_source := "serpapi"; c_sourceUrl := link; c_startDate := at_;
     c_snippet := "An evening of live music." |}.

(** A request for an event called "Jazz Night" by user 7. *)
Definition jazzData : EventData :=
  {| ed_title := Some " Jazz Night "; ed_category := None;
     ed_startDate := None; ed_endDate := None; ed_location := None;
     ed_lat := None; ed_lng := None; ed_mode := None; ed_price := None;
     ed_snippet := None; ed_description := None; ed_source := None;
     ed_sourceUrl := None; ed_userId := Some 7 |}.

(** The document [createEvent] makes of it in the world [Scenario.registered]. *)
Definition jazzEvent : Event :=
  {| ev_id := 2; ev_data := castEventData jazzData; ev_attendeesCount := 0;
     ev_createdAt := 0%Z; ev_updatedAt := 0%Z |}.

(** What the extraction would read in "make it 14 November in Berlin". *)
Definition newDetails : ExtractedDetails :=
  {| intent := "create"; eventTitle := None; date := Some "14 November";
     time := None; location := Some "Berlin"; category := None;
     useUserLocation := false |}.

(** What the extraction reads in "Create event: Tech Meetup, location TBD". *)
Definition meetupTBD : ExtractedDetails :=
  {| intent := "create"; eventTitle := Some "Tech Meetup"; date := None;
     time := None; location := Some "TBD"; category := None;
     useUserLocation := false |}.

End Samples.


(* ===================================================================== *)
(** * Properties *)
(* ===================================================================== *)

Import Model Effects EventService Chat Discovery Handler Logic.
Local Open Scope handler_scope.

(** ** Facts about the string primitives *)

Lemma isSpace_lowerChar (c : ascii) : JS.isSpace (JS.lowerChar c) = JS.isSpace c.
Proof. destruct c as [[] [] [] [] [] [] [] []]; reflexivity. Qed.

Lemma trimStart_toLowerCase (s : string) :
  JS.trimStart (JS.toLowerCase s) = JS.toLowerCase (JS.trimStart s).
Proof.
  induction s as [|c s IH]; simpl; [reflexivity|].
  rewrite isSpace_lowerChar. destruct (JS.isSpace c); [exact IH | reflexivity].
Qed.

Lemma trimEnd_toLowerCase (s : string) :
  JS.trimEnd (JS.toLowerCase s) = JS.toLowerCase (JS.trimEnd s).
Proof.
  induction s as [|c s IH]; simpl; [reflexivity|].
  rewrite IH, isSpace_lowerChar.
  destruct (JS.trimEnd s); simpl; [destruct (JS.isSpace c)|]; reflexivity.
Qed.

(** Lower-casing and trimming commute. *)
Lemma trim_toLowerCase (s : string) :
  JS.trim (JS.toLowerCase s) = JS.toLowerCase (JS.trim s).
Proof. unfold JS.trim. now rewrite trimStart_toLowerCase, trimEnd_toLowerCase. Qed.

Lemma eqb_string_true (a b : string) : String.eqb a b = true <-> a = b.
Proof. apply String.eqb_eq. Qed.

(** The candidates that reach the saving loop passed the placeholder
    filter. *)
Lemma validatedEvents_pass_filter eventsToValidate indices :
  Forall (fun c => isPlaceholderLocation c = false)
         (validatedEvents eventsToValidate indices).
Proof.
  unfold validatedEvents. apply Forall_take. apply Forall_forall.
  intros c Hc. apply list_elem_of_filter in Hc. tauto.
Qed.

(** ** Composition rules for [preserves] *)

Section PreservesRules.
Variable R : World -> World -> Prop.
Hypothesis R_refl : forall w, R w w.
Hypothesis R_trans : forall a b c, R a b -> R b c -> R a c.

Lemma preserves_ret {A} (a : A) : preserves R (ret a).
Proof. intros w r w' H. inversion H; subst. apply R_refl. Qed.

Lemma preserves_throw {A} (e : Exn) : preserves R (@throw A e).
Proof. intros w r w' H. inversion H; subst. apply R_refl. Qed.

Lemma preserves_getWorld : preserves R getWorld.
Proof. intros w r w' H. inversion H; subst. apply R_refl. Qed.

Lemma preserves_bind {A B} (c : M A) (k : A -> M B) :
  preserves R c -> (forall a, preserves R (k a)) -> preserves R (bind c k).
Proof.
  intros Hc Hk w r w' H. unfold bind in H.
  destruct (c w) as [[a|e] w1] eqn:E.
  - eapply R_trans; [eapply Hc; exact E | eapply Hk; exact H].
  - inversion H; subst. eapply Hc; exact E.
Qed.

Lemma preserves_tryCatch {A} (c : M A) (h : Exn -> M A) :
  preserves R c -> (forall e, preserves R (h e)) -> preserves R (tryCatch c h).
Proof.
  intros Hc Hh w r w' H. unfold tryCatch in H.
  destruct (c w) as [[a|e] w1] eqn:E.
  - inversion H; subst. eapply Hc; exact E.
  - eapply R_trans; [eapply Hc; exact E | eapply Hh; exact H].
Qed.

(** What the primitives must satisfy for the flows to preserve [R]:
    logging a call other than an extraction, constructing a document,
    saving a document whose data satisfy [okData], saving a conversation
    that satisfies [okConv]. *)
Variable okData : EventData -> Prop.
Hypothesis R_record : forall c, notExtraction c -> preserves R (record c).
Hypothesis R_newEvent : forall O d, preserves R (newEvent O d).
Hypothesis R_saveEvent :
  forall ev, okData (ev_data ev) -> preserves R (saveEvent ev).
Variable okConv : Conversation -> Prop.
Hypothesis R_saveConversation :
  forall conv, okConv conv -> preserves R (safeSaveConversation conv).

Lemma preserves_ask {A} (c : Call) (answer : list Call -> A) :
  notExtraction c -> preserves R (ask c answer).
Proof.
  intros Hc. unfold ask.
  apply preserves_bind; [apply preserves_getWorld|]. intros w0.
  apply preserves_bind; [now apply R_record|]. intros _.
  apply preserves_ret.
Qed.

Lemma preserves_createEvent (O : Oracle) (d : EventData) :
  okData (castEventData d) -> preserves R (createEvent O d).
Proof.
  intros Hd. unfold createEvent.
  apply preserves_tryCatch; [|intros; apply preserves_ret].
  intros w r w' H. unfold bind in H.
  destruct (newEvent O d w) as [[ev|e] w1] eqn:E.
  - assert (Hev : ev_data ev = castEventData d).
    { unfold newEvent in E. inversion E; subst. reflexivity. }
    eapply R_trans; [eapply R_newEvent; exact E|].
    destruct (saveEvent ev w1) as [[[]|e] w2] eqn:E2.
    + inversion H; subst. eapply R_saveEvent; [|exact E2]. now rewrite Hev.
    + inversion H; subst. eapply R_saveEvent; [|exact E2]. now rewrite Hev.
  - unfold newEvent in E. inversion E.
Qed.

Ltac flow_step :=
  first
    [ apply preserves_ret
    | apply preserves_throw
    | apply preserves_getWorld
    | apply preserves_ask; exact I
    | apply R_saveConversation
    | apply preserves_bind; [|intros ?]
    | apply preserves_tryCatch; [|intros ?]
    | match goal with
      | |- preserves _ (match ?x with _ => _ end) => destruct x
      | |- preserves _ (let '(_, _) := ?x in _) => destruct x
      end ].

Lemma preserves_classifyConfirmation O ce message :
  preserves R (classifyConfirmation O ce message).
Proof.
  unfold classifyConfirmation, askGenerate. repeat flow_step.
Qed.

Lemma preserves_resolveFinalDate O ce : preserves R (resolveFinalDate O ce).
Proof.
  unfold resolveFinalDate, askParseDate. repeat flow_step.
Qed.

Lemma preserves_applyTimeMain O ce d : preserves R (applyTimeMain O ce d).
Proof.
  unfold applyTimeMain, askParseTime. repeat flow_step.
Qed.

Lemma preserves_applyTimeFallback O ce d :
  preserves R (applyTimeFallback O ce d).
Proof.
  unfold applyTimeFallback, askParseTime. repeat flow_step.
Qed.

Lemma preserves_respond conv reply refresh :
  okConv conv -> preserves R (respond conv reply refresh).
Proof. intros Hc. unfold respond. repeat flow_step. exact Hc. Qed.

(** A continuation only has to preserve [R] on the values its
    predecessor can return. *)
Lemma preserves_bind_returned {A B} (c : M A) (k : A -> M B) :
  preserves R c ->
  (forall a, (exists w w', c w = (Ok a, w')) -> preserves R (k a)) ->
  preserves R (bind c k).
Proof.
  intros Hc Hk w r w' H. unfold bind in H.
  destruct (c w) as [[a|e] w1] eqn:E.
  - eapply R_trans; [eapply Hc; exact E|].
    eapply Hk; [|exact H]. now exists w, w1.
  - inversion H; subst. eapply Hc; exact E.
Qed.

Section Flows.
Variables (O : Oracle) (conv : Conversation) (ce : CreatingEvent)
          (userLocation : option UserLocation) (userId : ObjectId).

(** [okDate] delimits the dates the resolution steps can produce;
    documents built from such dates must satisfy [okData]. *)
Variable okDate : option Date -> Prop.
Hypothesis okResolve :
  forall w res w', resolveFinalDate O ce w = (Ok res, w') -> okDate (fst res).
Hypothesis okTimeMain :
  forall d w d' w',
    okDate d -> applyTimeMain O ce d w = (Ok d', w') -> okDate d'.
Hypothesis okTimeFallback :
  forall d w d' w',
    okDate d -> applyTimeFallback O ce d w = (Ok d', w') -> okDate d'.
Hypothesis okDraft :
  forall d, okDate d ->
            okData (castEventData (eventDataOf ce d userLocation userId)).

(** The conversations the sub-flow saves: the turn's own, or the one with
    the draft removed and the event ids updated. *)
Hypothesis okThis : okConv conv.
Hypothesis okCleared :
  forall ids,
    okConv (setContext conv
              {| creatingEvent := None; lastEventIds := Some ids;
                 lastSearchQuery := lastSearchQuery (context conv) |}).

Lemma preserves_proceedMain :
  preserves R (proceedMain O conv ce userLocation userId).
Proof.
  unfold proceedMain, askGenerate.
  apply preserves_bind_returned; [apply preserves_resolveFinalDate|].
  intros resolved [w [w' Hres]]. apply okResolve in Hres.
  apply preserves_bind_returned; [apply preserves_applyTimeMain|].
  intros d [w1 [w1' Hd]]. apply (okTimeMain _ _ _ _ Hres) in Hd.
  apply preserves_bind; [now apply preserves_createEvent, okDraft|]. intros res.
  destruct res; repeat flow_step; solve [apply okCleared | exact okThis].
Qed.

Lemma preserves_proceedFallback :
  preserves R (proceedFallback O conv ce userLocation userId).
Proof.
  unfold proceedFallback, askGenerate.
  apply preserves_bind_returned; [apply preserves_resolveFinalDate|].
  intros resolved [w [w' Hres]]. apply okResolve in Hres.
  apply preserves_bind_returned; [apply preserves_applyTimeFallback|].
  intros d [w1 [w1' Hd]]. apply (okTimeFallback _ _ _ _ Hres) in Hd.
  apply preserves_bind; [now apply preserves_createEvent, okDraft|]. intros res.
  destruct res; repeat flow_step; solve [apply okCleared | exact okThis].
Qed.

Lemma preserves_confirmationFlow message :
  preserves R (confirmationFlow O conv ce message userLocation userId).
Proof.
  unfold confirmationFlow.
  apply preserves_bind; [apply preserves_classifyConfirmation|].
  intros [| |].
  - apply preserves_proceedMain.
  - unfold editBranch, askGenerate. repeat flow_step. exact okThis.
  - unfold unclearBranch, askGenerate.
    destruct (fallbackNegative _); [apply preserves_proceedFallback|].
    repeat flow_step. exact okThis.
Qed.

End Flows.

(** Building the draft: the conversations it saves carry no draft or a
    draft that awaits confirmation. *)
Lemma preserves_draftBuild O conv message details userLocation :
  (forall c, draftWaiting c -> okConv c) ->
  draftWaiting conv ->
  preserves R (draftBuild O conv message details userLocation).
Proof.
  intros Hok Hconv. unfold draftBuild.
  set (conv' := if isWaiting conv then _ else conv).
  assert (Hconv' : draftWaiting conv').
  { unfold conv'. destruct (isWaiting conv); [exact I | exact Hconv]. }
  clearbody conv'. unfold askGenerate, askParseDate, askParseTime.
  destruct (JS.whenTruthy _) as [eventTitle|].
  - apply preserves_bind.
    { destruct (creatingEvent (context conv') ≫= serperDetails);
        repeat flow_step. }
    intros details0.
    apply preserves_bind; [repeat flow_step|]. intros _.
    apply preserves_bind; [repeat flow_step|]. intros _.
    apply preserves_bind; [repeat flow_step|]. intros extracted.
    match goal with |- preserves _ (if ?b then _ else _) => destruct b end.
    + apply preserves_bind; [repeat flow_step|]. intros section.
      apply preserves_bind; [repeat flow_step|]. intros display.
      apply preserves_respond. apply Hok. reflexivity.
    + repeat flow_step.
  - repeat flow_step. now apply Hok.
Qed.

Section DiscoveryRules.
Variables (O : Oracle) (userId : ObjectId).
Hypothesis okCandidate :
  forall c, isPlaceholderLocation c = false ->
            okData (castEventData (candidateData c userId)).

Lemma preserves_saveValidated savedEventIds c :
  isPlaceholderLocation c = false ->
  preserves R (saveValidated O userId savedEventIds c).
Proof.
  intros Hc. unfold saveValidated.
  assert (Hnew : forall ids,
             preserves R (bind (newEvent O (candidateData c userId))
                            (fun event => bind (saveEvent event)
                               (fun _ => ret (ids ++ [ev_id event])%list)))).
  { intros ids w r w' H. unfold bind in H.
    destruct (newEvent O (candidateData c userId) w) as [[ev|e] w1] eqn:E;
      [|inversion E].
    assert (Hev : ev_data ev = castEventData (candidateData c userId)).
    { inversion E; subst. reflexivity. }
    eapply R_trans; [eapply R_newEvent; exact E|].
    destruct (saveEvent ev w1) as [[[]|e] w2] eqn:E2; inversion H; subst;
      (eapply R_saveEvent; [|exact E2]); rewrite Hev; now apply okCandidate. }
  apply preserves_tryCatch; [|intros; apply preserves_ret].
  apply preserves_bind; [apply preserves_getWorld|]. intros w0.
  destruct (findExisting c w0) as [existing|]; [|apply Hnew].
  destruct (bool_decide _); [apply preserves_ret | apply Hnew].
Qed.

Lemma preserves_saveAll eventsToShow savedEventIds :
  Forall (fun c => isPlaceholderLocation c = false) eventsToShow ->
  preserves R (saveAll O userId eventsToShow savedEventIds).
Proof.
  revert savedEventIds.
  induction eventsToShow as [|c rest IH]; intros ids Hall; simpl.
  - apply preserves_ret.
  - inversion Hall; subst.
    apply preserves_bind; [now apply preserves_saveValidated|].
    intros ids'. now apply IH.
Qed.

Lemma preserves_discoveryFlow conv message details userLocation :
  preserves R (discoveryFlow O conv message details userLocation userId).
Proof.
  unfold discoveryFlow, askGenerate.
  apply preserves_bind; [repeat flow_step|]. intros categoryForSearch.
  apply preserves_bind; [repeat flow_step|]. intros events.
  destruct events as [|e events]; [repeat flow_step|].
  apply preserves_bind; [repeat flow_step|]. intros answer.
  match goal with
  | |- context [validatedEvents ?evs ?idx] =>
      pose proof (validatedEvents_pass_filter evs idx) as Hpass;
      destruct (validatedEvents evs idx) as [|v vs]
  end; [repeat flow_step|].
  apply preserves_bind.
  { apply preserves_saveAll. now apply Forall_take. }
  intros ids. repeat flow_step.
Qed.

End DiscoveryRules.


End PreservesRules.

(** ** The instances: calls made, documents stored, conversations saved *)

Lemma traceExtends_refl P w : traceExtends P w w.
Proof. exists []. split; [now rewrite app_nil_r | constructor]. Qed.

Lemma traceExtends_trans P a b c :
  traceExtends P a b -> traceExtends P b c -> traceExtends P a c.
Proof.
  intros [l1 [E1 F1]] [l2 [E2 F2]]. exists (l1 ++ l2)%list. split.
  - rewrite E2, E1. now rewrite <- app_assoc.
  - apply Forall_app. now split.
Qed.

Lemma eventsExtend_refl Q w : eventsExtend Q w w.
Proof. exists []. split; [now rewrite app_nil_r | constructor]. Qed.

Lemma eventsExtend_trans Q a b c :
  eventsExtend Q a b -> eventsExtend Q b c -> eventsExtend Q a c.
Proof.
  intros [l1 [E1 F1]] [l2 [E2 F2]]. exists (l1 ++ l2)%list. split.
  - rewrite E2, E1. now rewrite <- app_assoc.
  - apply Forall_app. now split.
Qed.

Lemma trace_record c :
  notExtraction c -> preserves (traceExtends notExtraction) (record c).
Proof.
  intros Hc w r w' H. inversion H; subst. exists [c]. split; [reflexivity|].
  now constructor.
Qed.

Lemma trace_newEvent O d : preserves (traceExtends notExtraction) (newEvent O d).
Proof.
  intros w r w' H. inversion H; subst.
  (exists []; split; [simpl; now rewrite app_nil_r | constructor]).
Qed.

Lemma trace_saveEvent ev : preserves (traceExtends notExtraction) (saveEvent ev).
Proof.
  intros w r w' H. unfold saveEvent in H.
  destruct (validEventData (ev_data ev)); inversion H; subst.
  - exists [CallEventSave ev]. split; [reflexivity|]. now repeat constructor.
  - apply traceExtends_refl.
Qed.

Lemma trace_saveConversation conv :
  preserves (traceExtends notExtraction) (safeSaveConversation conv).
Proof.
  intros w r w' H. unfold safeSaveConversation in H.
  destruct (existsb _ _); inversion H; subst.
  - apply traceExtends_refl.
  - exists [CallConversationSave (sessionId conv)]. split; [reflexivity|].
    now repeat constructor.
Qed.

Lemma events_record Q c : preserves (eventsExtend Q) (record c).
Proof.
  intros w r w' H. inversion H; subst.
  (exists []; split; [simpl; now rewrite app_nil_r | constructor]).
Qed.

Lemma events_newEvent Q O d : preserves (eventsExtend Q) (newEvent O d).
Proof.
  intros w r w' H. inversion H; subst.
  (exists []; split; [simpl; now rewrite app_nil_r | constructor]).
Qed.

Lemma events_saveEvent Q ev : Q ev -> preserves (eventsExtend Q) (saveEvent ev).
Proof.
  intros HQ w r w' H. unfold saveEvent in H.
  destruct (validEventData (ev_data ev)); inversion H; subst.
  - exists [ev]. split; [reflexivity|]. now repeat constructor.
  - apply eventsExtend_refl.
Qed.

Lemma events_saveConversation Q conv :
  preserves (eventsExtend Q) (safeSaveConversation conv).
Proof.
  intros w r w' H. unfold safeSaveConversation in H.
  destruct (existsb _ _); inversion H; subst;
    (exists []; split; [simpl; now rewrite app_nil_r | constructor]).
Qed.

Lemma In_replaceConversation conv db c :
  In c (replaceConversation conv db) -> In c db \/ c = conv.
Proof.
  induction db as [|c0 db IH]; simpl.
  - intros [H|[]]. now right.
  - destruct (String.eqb (sessionId c0) (sessionId conv)); simpl.
    + intros [H|H]; [now right | left; now right].
    + intros [H|H]; [left; now left|].
      destruct (IH H) as [H'|H']; [left; now right | now right].
Qed.

Lemma conversationsExtend_refl P w : conversationsExtend P w w.
Proof. intros c Hc. now left. Qed.

Lemma conversationsExtend_trans P a b c :
  conversationsExtend P a b -> conversationsExtend P b c ->
  conversationsExtend P a c.
Proof.
  intros H1 H2 x Hx. destruct (H2 x Hx) as [H|H]; [now apply H1 | now right].
Qed.

Lemma conversations_record P c : preserves (conversationsExtend P) (record c).
Proof. intros w r w' H. inversion H; subst. intros x Hx. now left. Qed.

Lemma conversations_newEvent P O d :
  preserves (conversationsExtend P) (newEvent O d).
Proof. intros w r w' H. inversion H; subst. intros x Hx. now left. Qed.

Lemma conversations_saveEvent P ev :
  preserves (conversationsExtend P) (saveEvent ev).
Proof.
  intros w r w' H. unfold saveEvent in H.
  destruct (validEventData (ev_data ev)); inversion H; subst;
    intros x Hx; now left.
Qed.

Lemma conversations_saveConversation (P : Conversation -> Prop) conv :
  P conv -> preserves (conversationsExtend P) (safeSaveConversation conv).
Proof.
  intros HP w r w' H. unfold safeSaveConversation in H.
  destruct (existsb _ _); inversion H; subst; intros x Hx; [now left|].
  simpl in Hx. destruct (In_replaceConversation _ _ _ Hx) as [Hx'|Hx'];
    [now left | right; now subst].
Qed.

Lemma conversations_ask P {A} (c : Call) (answer : list Call -> A) :
  preserves (conversationsExtend P) (ask c answer).
Proof. intros w r w' H. inversion H; subst. intros x Hx. now left. Qed.

(** The confirmation sub-flow never calls the extraction service. *)
Lemma confirmationFlow_no_extraction O conv ce message userLocation userId :
  preserves (traceExtends notExtraction)
    (confirmationFlow O conv ce message userLocation userId).
Proof.
  apply (preserves_confirmationFlow _ (traceExtends_refl _)
           (traceExtends_trans _) (fun _ => True)
           trace_record trace_newEvent (fun ev _ => trace_saveEvent ev)
           (fun _ => True) (fun c _ => trace_saveConversation c)
           O conv ce userLocation userId
           (fun _ => True)); intros; exact I.
Qed.

(** Every document the confirmation sub-flow stores is the draft's
    record, for some resolved date [d]. *)
Lemma confirmationFlow_stores_draft O conv ce message userLocation userId :
  preserves
    (eventsExtend (fun ev => exists d,
       ev_data ev = castEventData (eventDataOf ce d userLocation userId)))
    (confirmationFlow O conv ce message userLocation userId).
Proof.
  apply (preserves_confirmationFlow _ (eventsExtend_refl _)
           (eventsExtend_trans _)
           (fun data => exists d,
              data = castEventData (eventDataOf ce d userLocation userId))
           (fun c _ => events_record _ c) (events_newEvent _)
           (fun ev H => events_saveEvent _ ev H)
           (fun _ => True) (fun c _ => events_saveConversation _ c)
           O conv ce userLocation userId
           (fun _ => True)); try (intros; exact I).
  intros d _. now exists d.
Qed.

(** When the date parser finds no date in anything it is given, every
    document the confirmation sub-flow stores is the draft's record
    without a start date. *)
Lemma confirmationFlow_stores_no_date O conv ce message userLocation userId :
  (forall t s, parseDateWithAI O t s = None) ->
  preserves
    (eventsExtend (fun ev =>
       ev_data ev = castEventData (eventDataOf ce None userLocation userId)))
    (confirmationFlow O conv ce message userLocation userId).
Proof.
  intros Hparse.
  apply (preserves_confirmationFlow _ (eventsExtend_refl _)
           (eventsExtend_trans _)
           (fun data =>
              data = castEventData (eventDataOf ce None userLocation userId))
           (fun c _ => events_record _ c) (events_newEvent _)
           (fun ev H => events_saveEvent _ ev H)
           (fun _ => True) (fun c _ => events_saveConversation _ c)
           O conv ce userLocation userId
           (fun d => d = None)); try exact I; try (intros; exact I).
  - intros w res w' H. unfold resolveFinalDate, askParseDate, ask, bind in H.
    destruct (JS.whenTruthy (extractedDate ce));
      destruct (JS.whenTruthy (serperExtractedDate ce));
      simpl in H; rewrite ?Hparse in H; simpl in H; rewrite ?Hparse in H;
      inversion H; reflexivity.
  - intros d w d' w' -> H. unfold applyTimeMain, askParseTime, ask, bind in H.
    simpl in H. destruct (JS.whenTruthy (extractedTime ce)); simpl in H.
    + destruct (parseTimeWithAI O (trace w) s) as [[h m]|];
        simpl in H; inversion H; reflexivity.
    + inversion H; reflexivity.
  - intros d w d' w' -> H. unfold applyTimeFallback in H.
    destruct (JS.whenTruthy (extractedTime ce)); inversion H; reflexivity.
  - intros d ->. reflexivity.
Qed.

(** ** Intent resolution while a draft awaits confirmation *)

Lemma isWaiting_pushMessage conv m :
  isWaiting (pushMessage conv m) = isWaiting conv.
Proof. reflexivity. Qed.

Lemma resolveIntent_waiting O conv message w :
  isWaiting conv = true ->
  resolveIntent O conv message w = (Ok ("create", forcedCreate), w).
Proof. intros H. unfold resolveIntent. now rewrite H. Qed.

(** While a draft awaits confirmation, a turn with a non-blank message is
    the location step followed by the confirmation sub-flow, run on the
    stored conversation with the message appended and [lastIntent] set to
    ['create']. *)
Lemma chatBody_waiting O req conv ce w :
  findConversation (req_sessionId req) (req_userId req) w = Some conv ->
  creatingEvent (context conv) = Some ce ->
  waitingForConfirmation ce = true ->
  String.eqb (JS.trim (req_message req)) "" = false ->
  chatBody O req w =
  bind (askUserLocation O (req_userId req))
       (fun userLocation =>
          confirmationFlow O
            (setLastIntent
               (pushMessage conv
                  {| role := "user"; content := JS.trim (req_message req) |})
               "create")
            ce (req_message req) userLocation (req_userId req)) w.
Proof.
  intros Hfind Hce Hwait Hmsg. unfold chatBody. rewrite Hmsg.
  unfold bind at 1. simpl. rewrite Hfind. unfold dispatch.
  unfold bind at 1. rewrite resolveIntent_waiting.
  2:{ rewrite isWaiting_pushMessage. unfold isWaiting. now rewrite Hce. }
  simpl. unfold bind. destruct (askUserLocation _ _ _) as [[ul|e] w1]; [|reflexivity].
  simpl. rewrite Hce. simpl. now rewrite Hwait.
Qed.

(** C1. For every session whose stored context has
    [creatingEvent.waitingForConfirmation] set to true, processing the next
    inbound message resolves the intent to ['create'] with the placeholder
    details [{ intent: 'create', eventTitle: null }], whatever the message
    says, and the turn acts on it: unless the message is blank (status
    400), the handler is the location step followed by the confirmation
    sub-flow on the stored draft, run on the conversation with the
    message appended and [lastIntent] set to ['create']. Neither intent
    resolution nor the rest of the turn calls the AI extraction service:
    the calls of the whole turn are all other calls. *)
Theorem waiting_forces_create_without_extraction
    (O : Oracle) (req : Request) (conv : Conversation) (ce : CreatingEvent)
    (w : World) :
  findConversation (req_sessionId req) (req_userId req) w = Some conv ->
  creatingEvent (context conv) = Some ce ->
  waitingForConfirmation ce = true ->
  let turn :=
    pushMessage conv {| role := "user"; content := JS.trim (req_message req) |} in
  resolveIntent O turn (req_message req) w = (Ok ("create", forcedCreate), w)
  /\ chat O req w
     = (if String.eqb (JS.trim (req_message req)) ""
        then (Ok (Status400 "Message cannot be empty"), w)
        else
          tryCatch
            (userLocation <- askUserLocation O (req_userId req) ;;
             confirmationFlow O (setLastIntent turn "create") ce
               (req_message req) userLocation (req_userId req))
            (fun _ =>
               ret (Status500 "An error occurred while processing your message"))
            w)
  /\ forall r w', chat O req w = (r, w') -> traceExtends notExtraction w w'.
Proof.
  intros Hfind Hce Hwait turn.
  assert (Hturn : isWaiting conv = true) by (unfold isWaiting; now rewrite Hce).
  assert (Hchat :
    chat O req w
    = (if String.eqb (JS.trim (req_message req)) ""
       then (Ok (Status400 "Message cannot be empty"), w)
       else
         tryCatch
           (userLocation <- askUserLocation O (req_userId req) ;;
            confirmationFlow O (setLastIntent turn "create") ce
              (req_message req) userLocation (req_userId req))
           (fun _ =>
              ret (Status500 "An error occurred while processing your message"))
           w)).
  { destruct (String.eqb (JS.trim (req_message req)) "") eqn:Hmsg.
    - unfold chat, tryCatch, chatBody. now rewrite Hmsg.
    - unfold chat, tryCatch.
      now rewrite (chatBody_waiting O req conv ce w Hfind Hce Hwait Hmsg). }
  split; [|split; [exact Hchat|]].
  - apply resolveIntent_waiting. unfold turn. now rewrite isWaiting_pushMessage.
  - intros r w' H. rewrite Hchat in H.
    destruct (String.eqb (JS.trim (req_message req)) "").
    + injection H as _ <-. apply traceExtends_refl.
    + unfold tryCatch in H.
      assert (Hbody : forall r1 w1,
                 (userLocation <- askUserLocation O (req_userId req) ;;
                  confirmationFlow O (setLastIntent turn "create") ce
                    (req_message req) userLocation (req_userId req)) w
                 = (r1, w1) -> traceExtends notExtraction w w1).
      { intros r1 w1 H1.
        eapply (preserves_bind _ (traceExtends_trans _)); [| |exact H1].
        - apply (preserves_ask _ (traceExtends_refl _) (traceExtends_trans _)).
          + apply trace_record.
          + exact I.
        - intros ul. apply confirmationFlow_no_extraction. }
      destruct ((userLocation <- askUserLocation O (req_userId req) ;;
                 confirmationFlow O (setLastIntent turn "create") ce
                   (req_message req) userLocation (req_userId req)) w)
        as [[a|e] w1] eqn:E;
        injection H as _ <-; eapply Hbody; reflexivity.
Qed.

(** A stored draft, a message that has nothing to do with it. *)
Lemma waiting_forces_create_witness :
  let O := Scenario.oracle "unclear" None None in
  let w := Scenario.world Scenario.timeOnlyDraft None in
  let req := Scenario.say "Find jazz concerts in Paris" in
  let turn :=
    pushMessage (Scenario.stored Scenario.timeOnlyDraft None)
      {| role := "user"; content := "Find jazz concerts in Paris" |} in
  resolveIntent O turn "Find jazz concerts in Paris" w
  = (Ok ("create", forcedCreate), w)
  /\ chat O req w
     = tryCatch
         (userLocation <- askUserLocation O 7 ;;
          confirmationFlow O (setLastIntent turn "create")
            Scenario.timeOnlyDraft "Find jazz concerts in Paris" userLocation 7)
         (fun _ =>
            ret (Status500 "An error occurred while processing your message"))
         w
  /\ forall r w', chat O req w = (r, w') -> traceExtends notExtraction w w'.
Proof.
  apply (waiting_forces_create_without_extraction
           (Scenario.oracle "unclear" None None)
           (Scenario.say "Find jazz concerts in Paris")
           (Scenario.stored Scenario.timeOnlyDraft None)
           Scenario.timeOnlyDraft
           (Scenario.world Scenario.timeOnlyDraft None)).
  - reflexivity.
  - reflexivity.
  - reflexivity.
Defined.

(** ** The deterministic tier of confirmation classification *)

Lemma negativeToken_negativeConfirmation m :
  isNegativeToken m = true -> negativeConfirmation m = true.
Proof.
  unfold isNegativeToken, negativeConfirmation. intros H.
  rewrite H. reflexivity.
Qed.

Lemma classify_deterministic O ce message w :
  positiveConfirmation (messageLower message) = true
  \/ negativeConfirmation (messageLower message) = true ->
  classifyConfirmation O ce message w = (Ok Proceed, w).
Proof.
  intros H. unfold classifyConfirmation.
  destruct (positiveConfirmation (messageLower message)); [reflexivity|].
  destruct H as [H|H]; [discriminate|]. now rewrite H.
Qed.

(** A reply that normalizes to "no", "nope", "nah" or "n" is classified
    as proceed without consulting the model, so the turn takes the main
    proceed path: the edit prompt is never issued. *)
Lemma negative_token_proceeds O conv ce message userLocation userId w :
  isNegativeToken (messageLower message) = true ->
  classifyConfirmation O ce message w = (Ok Proceed, w)
  /\ confirmationFlow O conv ce message userLocation userId w
     = proceedMain O conv ce userLocation userId w.
Proof.
  intros H. apply negativeToken_negativeConfirmation in H.
  assert (Hc := classify_deterministic O ce message w (or_intror H)).
  split; [exact Hc|]. unfold confirmationFlow, bind. now rewrite Hc.
Qed.

(** While a draft awaits confirmation, any message whose normalized
    form merely starts with ["no "] is classified as proceed by the
    deterministic token tier: the world is untouched, so the AI tier has
    not run, and the turn continues as the main proceed path instead of
    issuing the edit prompt. *)
Theorem no_prefix_proceeds_before_ai
    (O : Oracle) (conv : Conversation) (ce : CreatingEvent) (message : string)
    (userLocation : option UserLocation) (userId : ObjectId) (w : World) :
  JS.startsWith (messageLower message) "no " = true ->
  classifyConfirmation O ce message w = (Ok Proceed, w)
  /\ confirmationFlow O conv ce message userLocation userId w
     = proceedMain O conv ce userLocation userId w.
Proof.
  intros H.
  assert (Hneg : negativeConfirmation (messageLower message) = true).
  { unfold negativeConfirmation. rewrite H.
    now rewrite !orb_true_r. }
  assert (Hc := classify_deterministic O ce message w (or_intror Hneg)).
  split; [exact Hc|]. unfold confirmationFlow, bind. now rewrite Hc.
Qed.

(** "no, change the date": a model that would answer "edit" is never asked. *)
Lemma no_prefix_proceeds_witness :
  classifyConfirmation (Scenario.oracle "edit" None None)
    (Scenario.draft None None None) "no, change the date"
    (Scenario.world (Scenario.draft None None None) None)
  = (Ok Proceed, Scenario.world (Scenario.draft None None None) None)
  /\ confirmationFlow (Scenario.oracle "edit" None None)
       (Scenario.stored (Scenario.draft None None None) None)
       (Scenario.draft None None None) "no, change the date" None 7
       (Scenario.world (Scenario.draft None None None) None)
     = proceedMain (Scenario.oracle "edit" None None)
         (Scenario.stored (Scenario.draft None None None) None)
         (Scenario.draft None None None) None 7
         (Scenario.world (Scenario.draft None None None) None).
Proof.
  apply (no_prefix_proceeds_before_ai (Scenario.oracle "edit" None None)
           (Scenario.stored (Scenario.draft None None None) None)
           (Scenario.draft None None None) "no, change the date" None 7
           (Scenario.world (Scenario.draft None None None) None)).
  reflexivity.
Defined.

(** On that message the event is stored at once, and the only model call
    of the turn is the one that words the confirmation card. *)
Example no_change_the_date_persists :
  let '(r, w') := chat (Scenario.oracle "edit" None None)
                    (Scenario.say "no, change the date")
                    (Scenario.world (Scenario.draft None None None) None) in
  r = Ok (Json "edit" "s1" true)
  /\ map (fun ev => ed_title (ev_data ev)) (eventsDb w') = [Some "Tech Meetup"]
  /\ trace w' =
     [CallResolveUserLocation 7;
      CallEventSave
        {| ev_id := 100;
           ev_data := castEventData
                        (eventDataOf (Scenario.draft None None None) None None 7);
           ev_attendeesCount := 0; ev_createdAt := 0%Z; ev_updatedAt := 0%Z |};
      CallGenerateResponse (EventCardPrompt "Tech Meetup" "" "");
      CallConversationSave "s1"].
Proof. vm_compute. repeat split; reflexivity. Qed.

(** C10. The draft with a time and no date, answered with "no, change the
    date": the reply normalizes to "no change the date", which starts with
    "no " and is classified as proceed with the world untouched (the model,
    which would answer "edit", is not asked); the main proceed path then
    fails on the missing date: the answer is 500, nothing is stored, and
    the only calls of the turn are the location step and the time parser. *)
Theorem no_prefix_with_time_only_draft_stores_nothing :
  let w := Scenario.world Scenario.timeOnlyDraft None in
  let O := Scenario.oracle "edit" None (Some (17, 0)) in
  messageLower "no, change the date" = "no change the date"
  /\ classifyConfirmation O Scenario.timeOnlyDraft "no, change the date" w
     = (Ok Proceed, w)
  /\ fst (chat O (Scenario.say "no, change the date") w)
     = Ok (Status500 "An error occurred while processing your message")
  /\ eventsDb (snd (chat O (Scenario.say "no, change the date") w)) = []
  /\ trace (snd (chat O (Scenario.say "no, change the date") w))
     = [CallResolveUserLocation 7; CallParseTime "17:00"].
Proof. vm_compute. repeat split; reflexivity. Qed.

(** ** Registration *)

Lemma findRegistration_present w userId eventId r :
  In r (registrationsDb w) ->
  reg_userId r = userId -> reg_eventId r = eventId ->
  exists r', findRegistration userId eventId w = Some r'.
Proof.
  intros Hin Hu He. unfold findRegistration.
  destruct (List.find _ (registrationsDb w)) as [r'|] eqn:E; [now exists r'|].
  exfalso. apply (find_none _ _ E) in Hin. subst.
  now rewrite !Nat.eqb_refl in Hin.
Qed.

(** C9. For every [(userId, eventId)] pair with an existing Registration,
    a further [createRegistration] for that pair returns the "already
    registered" error and leaves the whole world as it was: no second
    Registration document, no change to the existing one, no mail sent. *)
Theorem duplicate_registration_rejected
    (w : World) (userId eventId : ObjectId) (name email : string)
    (r : Registration) :
  In r (registrationsDb w) ->
  reg_userId r = userId -> reg_eventId r = eventId ->
  createRegistration userId eventId name email w
  = (Ok (RegistrationFailure "You are already registered for this event"), w).
Proof.
  intros Hin Hu He.
  destruct (findRegistration_present w userId eventId r Hin Hu He) as [r' Hr'].
  unfold createRegistration, tryCatch, bind, getWorld. simpl. now rewrite Hr'.
Qed.

Lemma duplicate_registration_witness :
  createRegistration 7 42 "Ada Lovelace" "ada@example.org" Scenario.registered
  = (Ok (RegistrationFailure "You are already registered for this event"),
     Scenario.registered).
Proof.
  apply (duplicate_registration_rejected
           Scenario.registered 7 42 "Ada Lovelace" "ada@example.org"
           {| reg_id := 1; reg_userId := 7; reg_eventId := 42;
              reg_name := "Ada"; reg_email := "ada@example.org";
              reg_status := "confirmed" |}).
  - simpl. left. reflexivity.
  - reflexivity.
  - reflexivity.
Defined.

(** A first registration does go through, so the rejection above is not
    the only thing the function can do. *)
Example first_registration_accepted :
  let '(r, w') := createRegistration 8 42 "Grace Hopper" " Grace@Example.org "
                    Scenario.registered in
  r = Ok (RegistrationSuccess
            {| reg_id := 2; reg_userId := 8; reg_eventId := 42;
               reg_name := "Grace Hopper"; reg_email := "grace@example.org";
               reg_status := "confirmed" |})
  /\ length (registrationsDb w') = 2.
Proof. vm_compute. split; reflexivity. Qed.

(** ** The proceed path: date and time resolution *)

(** With no date stored in the draft, date resolution asks nothing and
    finds nothing. *)
Lemma resolveFinalDate_nothing_stored O ce w :
  JS.truthy (extractedDate ce) = false ->
  JS.truthy (serperExtractedDate ce) = false ->
  resolveFinalDate O ce w = (Ok (None, false), w).
Proof.
  intros H1 H2. unfold resolveFinalDate, JS.whenTruthy. rewrite H1, H2.
  reflexivity.
Qed.

(** The main proceed path dereferences the missing date: whenever the
    draft stores a time that parses and no date, the path throws before
    anything is stored. *)
Lemma proceedMain_throws_on_time_without_date
    O conv ce userLocation userId w t hours minutes :
  JS.truthy (extractedDate ce) = false ->
  JS.truthy (serperExtractedDate ce) = false ->
  JS.whenTruthy (extractedTime ce) = Some t ->
  parseTimeWithAI O (trace w) t = Some (hours, minutes) ->
  exists e w',
    proceedMain O conv ce userLocation userId w = (Throw e, w')
    /\ eventsDb w' = eventsDb w
    /\ conversationsDb w' = conversationsDb w.
Proof.
  intros H1 H2 Ht Hp. unfold proceedMain, bind.
  rewrite (resolveFinalDate_nothing_stored O ce w H1 H2). simpl.
  unfold applyTimeMain. rewrite Ht. unfold askParseTime, ask, bind. simpl.
  rewrite Hp. simpl. eexists. eexists. split; [reflexivity|]. split; reflexivity.
Qed.

(** The guarded copy of the same step, in the fallback path, returns the
    missing date as it is. *)
Lemma applyTimeFallback_without_date O ce w :
  applyTimeFallback O ce None w = (Ok None, w).
Proof. unfold applyTimeFallback. destruct (JS.whenTruthy _); reflexivity. Qed.

(** C4. A draft that stores a time ("17:00") and no date, confirmed with
    "yes": the main proceed path parses the time and calls [setHours] on
    the missing date; the handler answers 500, stores no event and does
    not save the conversation. *)
Theorem time_without_date_fails_the_turn :
  let w := Scenario.world Scenario.timeOnlyDraft None in
  let '(r, w') := chat (Scenario.oracle "ok" None (Some (17, 0)))
                    (Scenario.say "yes") w in
  r = Ok (Status500 "An error occurred while processing your message")
  /\ eventsDb w' = []
  /\ conversationsDb w' = conversationsDb w
  /\ trace w' = [CallResolveUserLocation 7; CallParseTime "17:00"].
Proof. vm_compute. repeat split; reflexivity. Qed.

(** The same draft reaching the fallback path ("not", which the model
    leaves unclear) is stored without a date. *)
Example fallback_stores_time_only_draft :
  let w := Scenario.world Scenario.timeOnlyDraft None in
  let '(r, w') := chat (Scenario.oracle "unclear" None (Some (17, 0)))
                    (Scenario.say "not") w in
  r = Ok (Json "unclear" "s1" true)
  /\ map ev_data (eventsDb w')
     = [castEventData (eventDataOf Scenario.timeOnlyDraft None None 7)]
  /\ map (fun ev => ed_startDate (ev_data ev)) (eventsDb w') = [None].
Proof. vm_compute. repeat split; reflexivity. Qed.

(** When the stored date parses, the stored time adjusts it. *)
Example time_adjusts_a_parsed_date :
  let ce := Scenario.draft (Some "2025-11-14") (Some "17:30") None in
  let '(r, w') := chat (Scenario.oracle "ok" (Some 1763078400000%Z) (Some (17, 30)))
                    (Scenario.say "yes") (Scenario.world ce None) in
  map (fun ev => ed_startDate (ev_data ev)) (eventsDb w')
  = [Some 1763141400000%Z].
Proof. vm_compute. reflexivity. Qed.

(** C2. The draft above answered with "no": the reply normalizes to the
    negative token "no" and is classified as proceed, but the turn ends in
    the 500 answer of the missing-date dereference, with no event stored. *)
Theorem no_with_time_only_draft_stores_nothing :
  let w := Scenario.world Scenario.timeOnlyDraft None in
  let O := Scenario.oracle "ok" None (Some (17, 0)) in
  messageLower "No." = "no"
  /\ classifyConfirmation O Scenario.timeOnlyDraft "No." w = (Ok Proceed, w)
  /\ fst (chat O (Scenario.say "No.") w)
     = Ok (Status500 "An error occurred while processing your message")
  /\ eventsDb (snd (chat O (Scenario.say "No.") w)) = [].
Proof. vm_compute. repeat split; reflexivity. Qed.

(** Outside that defect "no" does store the draft. *)
Example no_stores_the_draft :
  let ce := Scenario.draft None None (Some "Berlin") in
  let '(r, w') := chat (Scenario.oracle "edit" None None) (Scenario.say "no")
                    (Scenario.world ce None) in
  r = Ok (Json "edit" "s1" true)
  /\ map ev_data (eventsDb w') = [castEventData (eventDataOf ce None None 7)]
  /\ map (fun c => creatingEvent (context c)) (conversationsDb w') = [None].
Proof. vm_compute. repeat split; reflexivity. Qed.

(** ** The record handed to the store *)

(** The record built on the proceed paths, as the schema stores it: the
    trimmed title, the resolved date or none, the location or none, the
    source ['user_created'], the user, and nothing else. *)
Lemma proceed_record ce d userLocation userId :
  castEventData (eventDataOf ce d userLocation userId)
  = {| ed_title := Some (JS.trim (title ce));
       ed_category := None;
       ed_startDate := d;
       ed_endDate := None;
       ed_location :=
         JS.trim <$> JS.whenTruthy (finalLocation ce userLocation);
       ed_lat := None; ed_lng := None; ed_mode := None; ed_price := None;
       ed_snippet := None; ed_description := None;
       ed_source := Some "user_created";
       ed_sourceUrl := None;
       ed_userId := Some userId |}.
Proof. reflexivity. Qed.

(** C3. A draft whose stored date ("sometime next spring") does not parse
    and whose stored time does, confirmed with "go ahead": date resolution
    ends with no date, as the claim supposes, but no Event is stored: the
    turn fails on the missing date. *)
Theorem unparseable_date_with_time_stores_nothing :
  let ce := Scenario.draft (Some "sometime next spring") (Some "17:00")
              (Some "Berlin") in
  let w := Scenario.world ce None in
  let O := Scenario.oracle "ok" None (Some (17, 0)) in
  classifyConfirmation O ce "go ahead" w = (Ok Proceed, w)
  /\ fst (resolveFinalDate O ce w) = Ok (None, false)
  /\ fst (chat O (Scenario.say "go ahead") w)
     = Ok (Status500 "An error occurred while processing your message")
  /\ eventsDb (snd (chat O (Scenario.say "go ahead") w)) = [].
Proof. vm_compute. repeat split; reflexivity. Qed.

(** Without a stored time the same draft is stored with no start date and
    exactly the record above. *)
Example unparseable_date_stored_without_date :
  let ce := Scenario.draft (Some "sometime next spring") None (Some "Berlin") in
  let '(r, w') := chat (Scenario.oracle "ok" None None) (Scenario.say "go ahead")
                    (Scenario.world ce None) in
  map ev_data (eventsDb w')
  = [ {| ed_title := Some "Tech Meetup"; ed_category := None;
         ed_startDate := None; ed_endDate := None;
         ed_location := Some "Berlin";
         ed_lat := None; ed_lng := None; ed_mode := None; ed_price := None;
         ed_snippet := None; ed_description := None;
         ed_source := Some "user_created"; ed_sourceUrl := None;
         ed_userId := Some 7 |} ].
Proof. vm_compute. reflexivity. Qed.

(** ** After a stored event: the context *)

(** The main proceed path keeps at most five ids, the new one first. *)
Lemma main_path_ids ctx id :
  let ids := take 5 (unshiftEventId ctx id) in
  length ids <= 5 /\ head ids = Some id.
Proof.
  simpl. split; [|reflexivity].
  rewrite length_take. lia.
Qed.

(** C5. Five event ids are stored in the context (a discovery turn leaves
    up to five), the draft is confirmed with "not", which the model leaves
    unclear, so the event is stored on the fallback proceed path:
    [creatingEvent] is removed and the new id comes first, but the list is
    saved with six entries. *)
Theorem fallback_path_keeps_six_ids :
  let ce := Scenario.draft None None None in
  let w := Scenario.world ce (Some [1; 2; 3; 4; 5]) in
  let '(r, w') := chat (Scenario.oracle "unclear" None None) (Scenario.say "not") w in
  r = Ok (Json "unclear" "s1" true)
  /\ map ev_id (eventsDb w') = [100]
  /\ map (fun c => creatingEvent (context c)) (conversationsDb w') = [None]
  /\ map (fun c => lastEventIds (context c)) (conversationsDb w')
     = [Some [100; 1; 2; 3; 4; 5]].
Proof. vm_compute. repeat split; reflexivity. Qed.

(** The same session confirmed with "yes" goes through the main path,
    which cuts the list to five. *)
Example main_path_keeps_five_ids :
  let ce := Scenario.draft None None None in
  let w := Scenario.world ce (Some [1; 2; 3; 4; 5]) in
  let '(r, w') := chat (Scenario.oracle "unclear" None None) (Scenario.say "yes") w in
  r = Ok (Json "unclear" "s1" true)
  /\ map (fun c => creatingEvent (context c)) (conversationsDb w') = [None]
  /\ map (fun c => lastEventIds (context c)) (conversationsDb w')
     = [Some [100; 1; 2; 3; 4]].
Proof. vm_compute. repeat split; reflexivity. Qed.

(** ** The edit branch *)

(** The reply "change the date", which the model classifies as edit: the
    turn answers with the edit prompt's text and
    saves the conversation with [waitingForConfirmation] still true. *)
Lemma edit_turn_still_waiting :
  let ce := Scenario.draft None None None in
  let '(r, w') := chat (Scenario.oracle "edit" None None)
                    (Scenario.say "change the date") (Scenario.world ce None) in
  r = Ok (Json "edit" "s1" false)
  /\ map (fun c => waitingForConfirmation <$> creatingEvent (context c))
         (conversationsDb w') = [Some true]
  /\ trace w' =
     [CallResolveUserLocation 7;
      CallGenerateResponse (ConfirmationPrompt "Tech Meetup" "change the date");
      CallGenerateResponse (EditPrompt "Tech Meetup" "change the date");
      CallConversationSave "s1"].
Proof. vm_compute. repeat split; reflexivity. Qed.

(** On a confirmation turn classified as edit the handler asks what to
    change and saves the conversation with the draft as it
    was: every conversation document in the store after the turn is one
    that was there before or the conversation of this turn, whose
    [waitingForConfirmation] is still true. The reply is the edit prompt's
    answer and no refresh is signalled. *)
Theorem edit_leaves_draft_waiting
    (O : Oracle) (conv : Conversation) (ce : CreatingEvent) (message : string)
    (w : World) :
  creatingEvent (context conv) = Some ce ->
  waitingForConfirmation ce = true ->
  exists w',
    editBranch O conv ce message w
    = (Ok (Json (generateResponse O (trace w) (EditPrompt (title ce) message))
                (sessionId conv) false), w')
    /\ eventsDb w' = eventsDb w
    /\ forall c, In c (conversationsDb w') ->
                 In c (conversationsDb w) \/ (c = conv /\ isWaiting c = true).
Proof.
  intros Hce Hwait.
  unfold editBranch, respond, askGenerate, ask, bind, getWorld, record, ret.
  simpl. unfold safeSaveConversation. simpl.
  destruct (existsb _ (conversationsDb w)).
  - eexists. split; [reflexivity|]. split; [reflexivity|].
    intros c Hc. now left.
  - eexists. split; [reflexivity|]. split; [reflexivity|].
    simpl. intros c Hc.
    destruct (In_replaceConversation _ _ _ Hc) as [H|H]; [now left|].
    right. split; [exact H|]. subst c. unfold isWaiting. now rewrite Hce.
Qed.

Lemma edit_leaves_draft_waiting_witness :
  exists w',
    editBranch (Scenario.oracle "edit" None None)
      (Scenario.stored (Scenario.draft None None None) None)
      (Scenario.draft None None None) "change the date"
      (Scenario.world (Scenario.draft None None None) None)
    = (Ok (Json "edit" "s1" false), w')
    /\ eventsDb w' = []
    /\ forall c, In c (conversationsDb w') ->
         In c [Scenario.stored (Scenario.draft None None None) None]
         \/ (c = Scenario.stored (Scenario.draft None None None) None
             /\ isWaiting c = true).
Proof.
  apply (edit_leaves_draft_waiting (Scenario.oracle "edit" None None)
           (Scenario.stored (Scenario.draft None None None) None)
           (Scenario.draft None None None) "change the date"
           (Scenario.world (Scenario.draft None None None) None)).
  - reflexivity.
  - reflexivity.
Defined.

(** After the edit turn the next message, which carries the new details,
    is again forced to ['create'] and classified as a confirmation: here
    the model reads it as edit once more and the draft stays as it was. *)
Example new_details_are_classified_again :
  let ce := Scenario.draft None None None in
  let O := Scenario.oracle "edit" None None in
  let w1 := snd (chat O (Scenario.say "change the date") (Scenario.world ce None)) in
  let '(r, w2) := chat O (Scenario.say "make it 14 November in Berlin") w1 in
  r = Ok (Json "edit" "s1" false)
  /\ map (fun c => creatingEvent (context c)) (conversationsDb w2) = [Some ce]
  /\ eventsDb w2 = [].
Proof. vm_compute. repeat split; reflexivity. Qed.

(** C6. "change the date", which the model classifies as edit, then the
    new details "make it 14 November in Berlin". The edit turn answers
    with the edit prompt's text and saves the draft with
    [waitingForConfirmation] still true. So the next turn is forced to
    ['create'] and classified as a confirmation again: the extraction,
    which would read the date and the location, is never called, the
    draft-build step is not run, and the draft is saved once more without
    the new details. *)
Theorem edit_turn_is_never_applied :
  let ce := Scenario.draft None None None in
  let O := Scenario.creating Samples.newDetails "edit"
             (Some 1763078400000%Z) None in
  let w0 := Scenario.world ce None in
  let w1 := snd (chat O (Scenario.say "change the date") w0) in
  let w2 := snd (chat O (Scenario.say "make it 14 November in Berlin") w1) in
  fst (chat O (Scenario.say "change the date") w0)
  = Ok (Json "edit" "s1" false)
  /\ map (fun c => waitingForConfirmation <$> creatingEvent (context c))
         (conversationsDb w1) = [Some true]
  /\ fst (chat O (Scenario.say "make it 14 November in Berlin") w1)
     = Ok (Json "edit" "s1" false)
  /\ trace w2 =
     (trace w1
      ++ [CallResolveUserLocation 7;
          CallGenerateResponse
            (ConfirmationPrompt "Tech Meetup" "make it 14 November in Berlin");
          CallGenerateResponse
            (EditPrompt "Tech Meetup" "make it 14 November in Berlin");
          CallConversationSave "s1"])%list
  /\ map (fun c => creatingEvent (context c)) (conversationsDb w2) = [Some ce]
  /\ eventsDb w2 = [].
Proof. vm_compute. repeat split; reflexivity. Qed.

(** ** In-batch de-duplication of search results *)

Lemma dedupState_snoc events event :
  dedupState (events ++ [event]) = dedupStep (dedupState events) event.
Proof. unfold dedupState. now rewrite fold_left_app. Qed.

Lemma dedupStep_keeps st event :
  dedupStep st event =
  if keeps st event then
    {| uniqueEvents := (uniqueEvents st ++ [event])%list;
       seenTitles := setAdd (seenTitles st) (titleKey event);
       seenUrls := match JS.whenTruthy (urlKey event) with
                   | Some u => setAdd (seenUrls st) u
                   | None => seenUrls st
                   end |}
  else st.
Proof.
  unfold dedupStep, keeps.
  destruct (alreadySeen st event); [reflexivity|].
  destruct (isDuplicate st event); reflexivity.
Qed.

Lemma setHas_app s x y : setHas s x = true -> setHas (s ++ [y]) x = true.
Proof. unfold setHas. rewrite existsb_app. intros ->. reflexivity. Qed.

Lemma setHas_setAdd_mono s x y : setHas s x = true -> setHas (setAdd s y) x = true.
Proof.
  intros H. unfold setAdd. destruct (setHas s y); [exact H|].
  now apply setHas_app.
Qed.

Lemma setHas_setAdd s x : setHas (setAdd s x) x = true.
Proof.
  unfold setAdd. destruct (setHas s x) eqn:E; [exact E|].
  unfold setHas. rewrite existsb_app. simpl. rewrite String.eqb_refl.
  now rewrite orb_true_r.
Qed.

Lemma seenTitles_step st event x :
  setHas (seenTitles st) x = true ->
  setHas (seenTitles (dedupStep st event)) x = true.
Proof.
  intros H. rewrite dedupStep_keeps. destruct (keeps st event); [|exact H].
  simpl. now apply setHas_setAdd_mono.
Qed.

Lemma seenUrls_step st event x :
  setHas (seenUrls st) x = true ->
  setHas (seenUrls (dedupStep st event)) x = true.
Proof.
  intros H. rewrite dedupStep_keeps. destruct (keeps st event); [|exact H].
  simpl. destruct (JS.whenTruthy (urlKey event)); [|exact H].
  now apply setHas_setAdd_mono.
Qed.

Lemma uniqueEvents_step st event x :
  In x (uniqueEvents st) -> In x (uniqueEvents (dedupStep st event)).
Proof.
  intros H. rewrite dedupStep_keeps. destruct (keeps st event); [|exact H].
  simpl. apply in_or_app. now left.
Qed.

Lemma seenTitles_fold events st x :
  setHas (seenTitles st) x = true ->
  setHas (seenTitles (fold_left dedupStep events st)) x = true.
Proof.
  revert st. induction events as [|e events IH]; intros st H; simpl; [exact H|].
  apply IH. now apply seenTitles_step.
Qed.

Lemma seenUrls_fold events st x :
  setHas (seenUrls st) x = true ->
  setHas (seenUrls (fold_left dedupStep events st)) x = true.
Proof.
  revert st. induction events as [|e events IH]; intros st H; simpl; [exact H|].
  apply IH. now apply seenUrls_step.
Qed.

Lemma uniqueEvents_fold events st x :
  In x (uniqueEvents st) -> In x (uniqueEvents (fold_left dedupStep events st)).
Proof.
  revert st. induction events as [|e events IH]; intros st H; simpl; [exact H|].
  apply IH. now apply uniqueEvents_step.
Qed.

(** A result is dropped as soon as its title key is among the seen ones,
    or close to one of them, or its URL key is among the seen ones. *)
Lemma keeps_false_title st event :
  setHas (seenTitles st) (titleKey event) = true -> keeps st event = false.
Proof. intros H. unfold keeps, alreadySeen. now rewrite H. Qed.

Lemma keeps_false_url st event u :
  JS.whenTruthy (urlKey event) = Some u ->
  setHas (seenUrls st) u = true -> keeps st event = false.
Proof.
  intros Hu H. unfold keeps, alreadySeen. rewrite Hu, H.
  now rewrite orb_true_r.
Qed.

Lemma keeps_false_similar st event seenTitle :
  setHas (seenTitles st) seenTitle = true ->
  Similarity.Qgtb (Similarity.calculateSimilarity (titleKey event) seenTitle)
                  Similarity.threshold = true ->
  keeps st event = false.
Proof.
  intros Hs Hq. unfold keeps.
  assert (isDuplicate st event = true) as ->; [|now rewrite andb_false_r].
  unfold isDuplicate. apply existsb_exists. exists seenTitle. split; [|exact Hq].
  unfold setHas in Hs. apply existsb_exists in Hs as [y [Hy Heq]].
  apply String.eqb_eq in Heq. now subst.
Qed.

(** C8, counterexample. "Jazz Night" and "Jazz Fight": the title keys are
    one substitution apart over ten characters, similarity exactly 9/10,
    which is at least 0.9; the URLs differ. Both results are kept. *)
Lemma similarity_nine_tenths_both_kept :
  Similarity.calculateSimilarity (titleKey Scenario.jazzFight)
    (titleKey Scenario.jazzNight) = (9 # 10)%Q
  /\ Qle_bool Similarity.threshold
       (Similarity.calculateSimilarity (titleKey Scenario.jazzFight)
          (titleKey Scenario.jazzNight)) = true
  /\ removeDuplicates [Scenario.jazzNight; Scenario.jazzFight]
     = [Scenario.jazzNight; Scenario.jazzFight].
Proof. vm_compute. repeat split; reflexivity. Qed.

(** A later result is compared with the kept ones only: "... 12" is
    within 0.95 of "... 02", which was itself dropped as a duplicate of
    "... 01", and exactly 0.9 from "... 01"; it is kept. *)
Example duplicate_of_a_dropped_result_is_kept :
  Similarity.calculateSimilarity (titleKey Scenario.fest12)
    (titleKey Scenario.fest02) = (19 # 20)%Q
  /\ removeDuplicates [Scenario.fest01; Scenario.fest02; Scenario.fest12]
     = [Scenario.fest01; Scenario.fest12].
Proof. vm_compute. split; reflexivity. Qed.

(** C8, as amended. In the discovery flow, for every pair of in-batch
    search results of which the earlier one was kept, if the later one has
    the same title key, or a title key whose similarity with the earlier
    one's is strictly greater than 0.9, or the same non-empty URL key, then
    the later result is discarded: the batch de-duplicates exactly as it
    does without it, and the earlier result stays among the kept ones. *)
Theorem later_duplicate_of_kept_result_discarded
    (pre mid post : list Candidate) (a b : Candidate) :
  keeps (dedupState pre) a = true ->
  titleKey b = titleKey a
  \/ Similarity.Qgtb
       (Similarity.calculateSimilarity (titleKey b) (titleKey a))
       Similarity.threshold = true
  \/ (exists u, JS.whenTruthy (urlKey a) = Some u
                /\ JS.whenTruthy (urlKey b) = Some u) ->
  removeDuplicates (pre ++ a :: mid ++ b :: post)
  = removeDuplicates (pre ++ a :: mid ++ post)
  /\ In a (removeDuplicates (pre ++ a :: mid ++ b :: post)).
Proof.
  intros Hkept Hdup.
  set (st := dedupStep (dedupState pre) a).
  assert (Hst : forall l, dedupState (pre ++ a :: l) = fold_left dedupStep l st).
  { intros l. unfold dedupState, st. rewrite fold_left_app. reflexivity. }
  assert (Htitle : setHas (seenTitles st) (titleKey a) = true).
  { unfold st. rewrite dedupStep_keeps, Hkept. simpl. apply setHas_setAdd. }
  assert (Hurl : forall u, JS.whenTruthy (urlKey a) = Some u ->
                           setHas (seenUrls st) u = true).
  { intros u Hu. unfold st. rewrite dedupStep_keeps, Hkept. simpl.
    rewrite Hu. apply setHas_setAdd. }
  assert (Ha : In a (uniqueEvents st)).
  { unfold st. rewrite dedupStep_keeps, Hkept. simpl.
    apply in_or_app. right. now left. }
  assert (Hdrop : keeps (fold_left dedupStep mid st) b = false).
  { destruct Hdup as [Ht|[Hs|[u [Hua Hub]]]].
    - apply keeps_false_title. rewrite Ht. now apply seenTitles_fold.
    - eapply keeps_false_similar; [|exact Hs]. now apply seenTitles_fold.
    - eapply keeps_false_url; [exact Hub|]. apply seenUrls_fold. now apply Hurl. }
  unfold removeDuplicates. rewrite !Hst. split.
  - rewrite !fold_left_app. simpl. rewrite dedupStep_keeps, Hdrop. reflexivity.
  - now apply uniqueEvents_fold.
Qed.

(** "Tech Summit 2025" kept, then "Tech Summit 2026" (fifteen of sixteen
    characters agree) after an unrelated result. *)
Lemma later_duplicate_discarded_witness :
  removeDuplicates
    ([] ++ Scenario.candidate "Tech Summit 2025" "https://a.example/ts"
        :: [Scenario.jazzNight]
        ++ Scenario.candidate "Tech Summit 2026" "https://b.example/ts"
        :: [Scenario.jazzFight])
  = removeDuplicates
      ([] ++ Scenario.candidate "Tech Summit 2025" "https://a.example/ts"
          :: [Scenario.jazzNight] ++ [Scenario.jazzFight])
  /\ In (Scenario.candidate "Tech Summit 2025" "https://a.example/ts")
        (removeDuplicates
           ([] ++ Scenario.candidate "Tech Summit 2025" "https://a.example/ts"
               :: [Scenario.jazzNight]
               ++ Scenario.candidate "Tech Summit 2026" "https://b.example/ts"
               :: [Scenario.jazzFight])).
Proof.
  apply (later_duplicate_of_kept_result_discarded [] [Scenario.jazzNight]
           [Scenario.jazzFight]
           (Scenario.candidate "Tech Summit 2025" "https://a.example/ts")
           (Scenario.candidate "Tech Summit 2026" "https://b.example/ts")).
  - vm_compute. reflexivity.
  - right. left. vm_compute. reflexivity.
Defined.

(** ** The placeholder location "TBD" *)

Lemma trimEnd_empty_of_empty : JS.trimEnd "" = "".
Proof. reflexivity. Qed.

(** A candidate that passes the filter of line 1225 is not stored with
    the location "TBD". *)
Lemma passed_filter_not_TBD (c : Candidate) (userId : ObjectId) :
  isPlaceholderLocation c = false ->
  ed_location (castEventData (candidateData c userId)) <> Some "TBD".
Proof.
  intros Hf Hloc. simpl in Hloc.
  destruct (c_location c) as [loc|] eqn:E; [|discriminate].
  simpl in Hloc. injection Hloc as Htrim.
  unfold isPlaceholderLocation in Hf. rewrite E in Hf.
  unfold JS.whenTruthy, JS.truthy in Hf.
  destruct (String.eqb loc "") eqn:Hempty.
  - apply String.eqb_eq in Hempty. subst loc. discriminate.
  - simpl in Hf. rewrite trim_toLowerCase, Htrim in Hf.
    rewrite orb_true_r in Hf. discriminate.
Qed.

(** The discovery flow stores no document whose location is "TBD". *)
Lemma discoveryFlow_not_TBD O userId conv message details userLocation :
  preserves (eventsExtend locationNotTBD)
    (discoveryFlow O conv message details userLocation userId).
Proof.
  apply preserves_discoveryFlow
    with (okData := fun data => ed_location data <> Some "TBD").
  - apply eventsExtend_refl.
  - apply eventsExtend_trans.
  - intros c _. apply events_record.
  - apply events_newEvent.
  - intros ev H. now apply events_saveEvent.
  - intros c Hc. now apply passed_filter_not_TBD.
Qed.

(** The location built from the user's city and region contains a comma,
    which trimming keeps: it never reads "TBD". *)
Lemma space_is_not_comma c : JS.isSpace c = true -> Ascii.eqb c "," = false.
Proof.
  destruct c as [[] [] [] [] [] [] [] []]; simpl; intros H;
    solve [reflexivity | discriminate H].
Qed.

Lemma includes_comma_cons c s :
  JS.includes (String c s) "," = Ascii.eqb c "," || JS.includes s ",".
Proof.
  cbn [JS.includes]. f_equal.
  destruct s; destruct c as [[] [] [] [] [] [] [] []]; vm_compute; reflexivity.
Qed.

Lemma includes_comma_trimStart s :
  JS.includes (JS.trimStart s) "," = JS.includes s ",".
Proof.
  induction s as [|c s IH]; [reflexivity|].
  cbn [JS.trimStart]. destruct (JS.isSpace c) eqn:E; [|reflexivity].
  rewrite includes_comma_cons, (space_is_not_comma c E). exact IH.
Qed.

Lemma includes_comma_trimEnd s :
  JS.includes (JS.trimEnd s) "," = JS.includes s ",".
Proof.
  induction s as [|c s IH]; [reflexivity|].
  cbn [JS.trimEnd]. rewrite (includes_comma_cons c s), <- IH.
  destruct (JS.trimEnd s) as [|c' t].
  - destruct (JS.isSpace c) eqn:E.
    + now rewrite (space_is_not_comma c E).
    + now rewrite includes_comma_cons.
  - now rewrite includes_comma_cons.
Qed.

Lemma includes_comma_trim s : JS.includes (JS.trim s) "," = JS.includes s ",".
Proof.
  unfold JS.trim. now rewrite includes_comma_trimEnd, includes_comma_trimStart.
Qed.

Lemma includes_comma_separator a b : JS.includes (a ++ ", " ++ b) "," = true.
Proof.
  induction a as [|c a IH].
  - reflexivity.
  - change (String c a ++ ", " ++ b) with (String c (a ++ ", " ++ b)).
    rewrite includes_comma_cons, IH. apply orb_true_r.
Qed.

Lemma userLocationString_not_TBD ul : JS.trim (userLocationString ul) <> "TBD".
Proof.
  intros H.
  assert (Hc : JS.includes (JS.trim (userLocationString ul)) "," = true).
  { unfold userLocationString. rewrite !includes_comma_trim.
    apply includes_comma_separator. }
  rewrite H in Hc. discriminate.
Qed.

(** On the proceed paths the stored location reads "TBD" only if the
    draft's own [extractedLocation] does. *)
Lemma proceed_location_TBD_from_draft ce d userLocation userId :
  ed_location (castEventData (eventDataOf ce d userLocation userId)) = Some "TBD" ->
  exists s, extractedLocation ce = Some s /\ JS.trim s = "TBD".
Proof.
  simpl. unfold finalLocation, JS.or_, JS.whenTruthy.
  destruct (JS.truthy (extractedLocation ce)) eqn:E1.
  - rewrite E1. simpl. rewrite E1.
    destruct (extractedLocation ce) as [s|]; [|discriminate].
    simpl. intros H. injection H as H. now exists s.
  - destruct userLocation as [ul|]; simpl.
    + destruct (negb (String.eqb (userLocationString ul) "")) eqn:E2; simpl.
      * rewrite E2. simpl. intros H. injection H as H.
        now apply userLocationString_not_TBD in H.
      * discriminate.
    + discriminate.
Qed.

(** C7. A draft whose stored location is the string "TBD" (the
    extraction's answer for "location: TBD"), confirmed with "yes": the
    creation flow stores the event with location "TBD". *)
Lemma creation_flow_stores_TBD :
  let ce := Scenario.draft None None (Some "TBD") in
  let '(r, w') := chat (Scenario.oracle "ok" None None) (Scenario.say "yes")
                    (Scenario.world ce None) in
  r = Ok (Json "ok" "s1" true)
  /\ map (fun ev => ed_location (ev_data ev)) (eventsDb w') = [Some "TBD"].
Proof. vm_compute. split; reflexivity. Qed.

(** No Event is ever stored by the discovery flow with a
    location equal to "TBD"; and the creation flow stores an Event with
    location "TBD" only when the draft's stored [extractedLocation] is
    itself "TBD" (up to surrounding white space): the handler never
    supplies "TBD" on its own. *)
Theorem TBD_location_only_from_the_draft
    (O : Oracle) (conv : Conversation) (message : string)
    (details : ExtractedDetails) (ce : CreatingEvent)
    (userLocation : option UserLocation) (userId : ObjectId) (w : World) :
  (forall r w',
      discoveryFlow O conv message details userLocation userId w = (r, w') ->
      eventsExtend locationNotTBD w w')
  /\ (forall r w',
        confirmationFlow O conv ce message userLocation userId w = (r, w') ->
        eventsExtend
          (fun ev => ed_location (ev_data ev) = Some "TBD" ->
                     exists s, extractedLocation ce = Some s
                               /\ JS.trim s = "TBD")
          w w').
Proof.
  split.
  - intros r w' H. eapply discoveryFlow_not_TBD; exact H.
  - intros r w' H.
    destruct (confirmationFlow_stores_draft O conv ce message userLocation
                userId w r w' H) as [docs [Hdocs Hall]].
    exists docs. split; [exact Hdocs|].
    eapply Forall_impl; [exact Hall|].
    intros ev [d Hd] Hloc. rewrite Hd in Hloc.
    eapply proceed_location_TBD_from_draft; exact Hloc.
Qed.

(** A search that returns results located "TBD", "Berlin" and "  tbd ":
    only the Berlin one is stored. *)
Example discovery_drops_placeholders :
  let '(r, w') := discoveryFlow (Scenario.searching Scenario.placeholderResults
                                   (Some [1; 2; 3]))
                    Scenario.freshConversation "events in Berlin"
                    Scenario.discoveryDetails None 7 emptyWorld in
  map (fun ev => (ed_title (ev_data ev), ed_location (ev_data ev))) (eventsDb w')
  = [(Some "Jazz Night", Some "Berlin")].
Proof. vm_compute. reflexivity. Qed.

Lemma TBD_location_witness :
  let O := Scenario.searching Scenario.placeholderResults (Some [1; 2; 3]) in
  let ce := Scenario.draft None None (Some " TBD ") in
  let w := Scenario.world ce None in
  eventsExtend locationNotTBD w
    (snd (discoveryFlow O Scenario.freshConversation "events in Berlin"
            Scenario.discoveryDetails None 7 w))
  /\ eventsExtend
       (fun ev => ed_location (ev_data ev) = Some "TBD" ->
                  exists s, extractedLocation ce = Some s /\ JS.trim s = "TBD")
       w
       (snd (confirmationFlow O Scenario.freshConversation ce "yes" None 7 w)).
Proof.
  intros O ce w.
  destruct (TBD_location_only_from_the_draft O Scenario.freshConversation
              "events in Berlin" Scenario.discoveryDetails ce None 7 w)
    as [Hdiscovery _].
  destruct (TBD_location_only_from_the_draft O Scenario.freshConversation
              "yes" Scenario.discoveryDetails ce None 7 w)
    as [_ Hcreation].
  split.
  - eapply Hdiscovery. apply surjective_pairing.
  - eapply Hcreation. apply surjective_pairing.
Defined.

(** "Create event: Tech Meetup, location TBD", then "yes": the handler
    itself builds the draft with the extracted location "TBD" and the
    confirmation stores it. *)
Example TBD_draft_is_built_by_the_handler :
  let O := Scenario.creating Samples.meetupTBD "card" None None in
  let w1 := snd (chat O (Scenario.say "Create event: Tech Meetup, location TBD")
                   emptyWorld) in
  map (fun c => (fun d => (title d, waitingForConfirmation d,
                           extractedLocation d))
                <$> creatingEvent (context c)) (conversationsDb w1)
  = [Some ("Tech Meetup", true, Some "TBD")]
  /\ fst (chat O (Scenario.say "yes") w1) = Ok (Json "card" "s1" true)
  /\ map (fun ev => (ed_title (ev_data ev), ed_location (ev_data ev)))
         (eventsDb (snd (chat O (Scenario.say "yes") w1)))
     = [(Some "Tech Meetup", Some "TBD")].
Proof. vm_compute. repeat split; reflexivity. Qed.

(** ** Stored drafts always await confirmation *)

Lemma resolveIntent_keeps_conversations P O conv message :
  preserves (conversationsExtend P) (resolveIntent O conv message).
Proof.
  unfold resolveIntent, askExtract, askGenerate.
  destruct (isWaiting conv);
    [apply (preserves_ret _ (conversationsExtend_refl P))|].
  apply (preserves_bind _ (conversationsExtend_trans P));
    [apply conversations_ask|]. intros details.
  destruct (_ && _);
    [|apply (preserves_ret _ (conversationsExtend_refl P))].
  apply (preserves_bind _ (conversationsExtend_trans P));
    [apply conversations_ask|]. intros resp.
  destruct (JS.includes _ "discovery");
    [apply (preserves_ret _ (conversationsExtend_refl P))|].
  destruct (JS.includes _ "create");
    apply (preserves_ret _ (conversationsExtend_refl P)).
Qed.

Lemma dispatch_keeps_drafts_waiting O conv message userId :
  draftWaiting conv ->
  preserves (conversationsExtend draftWaiting) (dispatch O conv message userId).
Proof.
  intros Hconv. unfold dispatch.
  pose proof (conversationsExtend_refl draftWaiting) as Rr.
  pose proof (conversationsExtend_trans draftWaiting) as Rt.
  apply (preserves_bind _ Rt); [apply resolveIntent_keeps_conversations|].
  intros resolved.
  apply (preserves_bind _ Rt); [apply conversations_ask|]. intros userLocation.
  set (conversation := setLastIntent conv (fst resolved)).
  assert (Hc : draftWaiting conversation) by exact Hconv.
  destruct (_ || _).
  - destruct (creatingEvent (context conversation)) as [ce|] eqn:Hce.
    + destruct (waitingForConfirmation ce) eqn:Hw.
      * apply preserves_confirmationFlow
          with (okData := fun _ => True) (okConv := draftWaiting)
               (okDate := fun _ => True);
          try (intros; exact I); try exact Rr; try exact Rt.
        -- intros c _. apply conversations_record.
        -- apply conversations_newEvent.
        -- intros ev _. apply conversations_saveEvent.
        -- intros c Hc'. now apply conversations_saveConversation.
        -- exact Hc.
      * unfold draftWaiting in Hc. rewrite Hce in Hc. congruence.
    + apply preserves_draftBuild with (okConv := draftWaiting);
        try exact Rr; try exact Rt; try exact Hc.
      * intros c _. apply conversations_record.
      * intros c Hc'. now apply conversations_saveConversation.
      * intros c Hc'. exact Hc'.
  - destruct (String.eqb (fst resolved) "discovery");
      [|apply (preserves_ret _ Rr)].
    apply (preserves_bind _ Rt); [|intros; apply (preserves_ret _ Rr)].
    apply preserves_discoveryFlow with (okData := fun _ => True);
      try exact Rr; try exact Rt; try (intros; exact I).
    + intros c _. apply conversations_record.
    + apply conversations_newEvent.
    + intros ev _. apply conversations_saveEvent.
Qed.

(** X28. If every draft in the store awaits confirmation, so does every
    draft in the store after any turn of the creation and discovery flows: the handler writes
    [waitingForConfirmation: true] with each draft and never changes it
    afterwards. *)
Theorem chat_keeps_drafts_waiting O req w r w' :
  allDraftsWaiting w -> chat O req w = (r, w') -> allDraftsWaiting w'.
Proof.
  intros Hinv H.
  assert (Hext : conversationsExtend draftWaiting w w').
  { unfold chat, tryCatch in H.
    assert (Hbody : forall r1 w1, chatBody O req w = (r1, w1) ->
                                  conversationsExtend draftWaiting w w1).
    { intros r1 w1 H1. unfold chatBody in H1.
      destruct (String.eqb (JS.trim (req_message req)) "").
      - inversion H1; subst. apply conversationsExtend_refl.
      - unfold bind at 1 in H1. simpl in H1.
        eapply dispatch_keeps_drafts_waiting; [|exact H1].
        unfold draftWaiting. simpl.
        destruct (findConversation _ _ w) as [c|] eqn:Hfind; [|exact I].
        apply find_some in Hfind as [Hin _]. exact (Hinv c Hin). }
    destruct (chatBody O req w) as [[a|e] w1] eqn:E;
      inversion H; subst; eapply Hbody; reflexivity. }
  intros c Hc. destruct (Hext c Hc) as [Hold|Hnew]; [now apply Hinv | exact Hnew].
Qed.

(** ** Two turns from an empty store *)

(** "Create event: Tech Meetup at 5pm", then "yes": the first turn stores
    a draft with a time and no date, the second one fails on it. *)
Example time_only_draft_is_built_by_the_handler :
  let O := Scenario.creating Scenario.meetupAtFive "card" None (Some (17, 0)) in
  let w1 := snd (chat O (Scenario.say "Create event: Tech Meetup at 5pm") emptyWorld) in
  map (fun c => (fun ce => (title ce, waitingForConfirmation ce,
                            extractedDate ce, extractedTime ce))
                <$> creatingEvent (context c)) (conversationsDb w1)
  = [Some ("Tech Meetup", true, None, Some "17:00")]
  /\ fst (chat O (Scenario.say "yes") w1)
     = Ok (Status500 "An error occurred while processing your message")
  /\ eventsDb (snd (chat O (Scenario.say "yes") w1)) = [].
Proof. vm_compute. repeat split; reflexivity. Qed.

(** "Create event: Tech Summit 2025", then "no": the title is extracted,
    the search runs once, the draft is shown and awaits confirmation; "no"
    stores the event without date or location and clears the draft. *)
Example create_then_no :
  let O := Scenario.creating Scenario.techSummit "card" None None in
  let w1 := snd (chat O (Scenario.say "Create event: Tech Summit 2025") emptyWorld) in
  let '(r, w2) := chat O (Scenario.say "no") w1 in
  trace w1 =
    [CallExtractEventDetails "Create event: Tech Summit 2025";
     CallResolveUserLocation 7;
     CallSearchEventDetails "Tech Summit 2025";
     CallGenerateResponse (DisplayPrompt "Tech Summit 2025" "" "");
     CallConversationSave "s1"]
  /\ map isWaiting (conversationsDb w1) = [true]
  /\ r = Ok (Json "card" "s1" true)
  /\ map ev_data (eventsDb w2)
     = [ {| ed_title := Some "Tech Summit 2025"; ed_category := None;
            ed_startDate := None; ed_endDate := None; ed_location := None;
            ed_lat := None; ed_lng := None; ed_mode := None; ed_price := None;
            ed_snippet := None; ed_description := None;
            ed_source := Some "user_created"; ed_sourceUrl := None;
            ed_userId := Some 7 |} ]
  /\ map (fun c => (creatingEvent (context c), lastEventIds (context c)))
         (conversationsDb w2) = [(None, Some [0])].
Proof. vm_compute. repeat split; reflexivity. Qed.

(** ** What the two proceed paths do with a valid title *)

Lemma resolveFinalDate_returns O ce w :
  exists res w1,
    resolveFinalDate O ce w = (Ok res, w1)
    /\ eventsDb w1 = eventsDb w /\ conversationsDb w1 = conversationsDb w.
Proof.
  unfold resolveFinalDate, askParseDate, ask, bind.
  destruct (JS.whenTruthy (extractedDate ce)) as [d|]; simpl.
  - destruct (parseDateWithAI O (trace w) (JS.trim d)) as [parsed|]; simpl.
    + destruct (JS.whenTruthy (serperExtractedDate ce)); simpl;
        eexists; eexists; (split; [reflexivity|]); split; reflexivity.
    + destruct (JS.whenTruthy (serperExtractedDate ce)); simpl;
        eexists; eexists; (split; [reflexivity|]); split; reflexivity.
  - destruct (JS.whenTruthy (serperExtractedDate ce)); simpl;
      eexists; eexists; (split; [reflexivity|]); split; reflexivity.
Qed.

Lemma applyTimeFallback_returns O ce d w :
  exists d' w1,
    applyTimeFallback O ce d w = (Ok d', w1)
    /\ eventsDb w1 = eventsDb w /\ conversationsDb w1 = conversationsDb w.
Proof.
  unfold applyTimeFallback, askParseTime, ask, bind.
  destruct (JS.whenTruthy (extractedTime ce)) as [t|]; simpl.
  - destruct d as [d|]; simpl.
    + destruct (parseTimeWithAI O (trace w) t) as [[h m]|]; simpl;
        eexists; eexists; (split; [reflexivity|]); split; reflexivity.
    + eexists; eexists; (split; [reflexivity|]); split; reflexivity.
  - eexists; eexists; (split; [reflexivity|]); split; reflexivity.
Qed.

Lemma applyTimeMain_returns_or_throws O ce d w :
  (exists d' w1,
      applyTimeMain O ce d w = (Ok d', w1)
      /\ eventsDb w1 = eventsDb w /\ conversationsDb w1 = conversationsDb w)
  \/ (exists e w1,
        applyTimeMain O ce d w = (Throw e, w1)
        /\ d = None
        /\ eventsDb w1 = eventsDb w /\ conversationsDb w1 = conversationsDb w).
Proof.
  unfold applyTimeMain, askParseTime, ask, bind.
  destruct (JS.whenTruthy (extractedTime ce)) as [t|]; simpl.
  - destruct (parseTimeWithAI O (trace w) t) as [[h m]|]; simpl.
    + destruct d as [d|]; simpl.
      * left. eexists; eexists; (split; [reflexivity|]); split; reflexivity.
      * right. eexists; eexists; (split; [reflexivity|]).
        split; [reflexivity|]. split; reflexivity.
    + left. eexists; eexists; (split; [reflexivity|]); split; reflexivity.
  - left. eexists; eexists; (split; [reflexivity|]); split; reflexivity.
Qed.

Lemma createEvent_valid_title O ce d userLocation userId w :
  String.eqb (JS.trim (title ce)) "" = false ->
  exists ev w1,
    createEvent O (eventDataOf ce d userLocation userId) w
    = (Ok (CreateSuccess ev), w1)
    /\ ev_data ev = castEventData (eventDataOf ce d userLocation userId)
    /\ eventsDb w1 = (eventsDb w ++ [ev])%list
    /\ conversationsDb w1 = conversationsDb w.
Proof.
  intros Htitle. unfold createEvent, tryCatch, bind, newEvent, saveEvent.
  simpl. unfold validEventData. simpl. rewrite Htitle. simpl.
  eexists; eexists. split; [reflexivity|]. repeat split; reflexivity.
Qed.

(** X29. With a title that is not blank, the fallback proceed path always
    stores the draft and answers with the refresh signal. *)
Lemma proceedFallback_stores O conv ce userLocation userId w :
  String.eqb (JS.trim (title ce)) "" = false ->
  exists reply ev w',
    proceedFallback O conv ce userLocation userId w
    = (Ok (Json reply (sessionId conv) true), w')
    /\ eventsDb w' = (eventsDb w ++ [ev])%list
    /\ exists d, ev_data ev
                 = castEventData (eventDataOf ce d userLocation userId).
Proof.
  intros Htitle. unfold proceedFallback.
  destruct (resolveFinalDate_returns O ce w) as [res [w1 [E1 [Ev1 _]]]].
  unfold bind at 1. rewrite E1.
  destruct (applyTimeFallback_returns O ce (fst res) w1)
    as [d [w2 [E2 [Ev2 _]]]].
  unfold bind at 1. rewrite E2.
  destruct (createEvent_valid_title O ce d userLocation userId w2 Htitle)
    as [ev [w3 [E3 [Hev [Ev3 _]]]]].
  unfold bind at 1. rewrite E3.
  unfold askGenerate, ask, respond, bind, getWorld, record, ret,
    safeSaveConversation. simpl.
  destruct (existsb _ _); simpl;
    (eexists; exists ev; eexists; split; [reflexivity|]); simpl;
    (split; [now rewrite Ev3, Ev2, Ev1 | now exists d]).
Qed.

(** X30. With a title that is not blank, the main proceed path stores the
    draft and answers with the refresh signal, unless it throws on the
    missing date, in which case nothing is stored. *)
Lemma proceedMain_stores_or_throws O conv ce userLocation userId w :
  String.eqb (JS.trim (title ce)) "" = false ->
  (exists reply ev w',
      proceedMain O conv ce userLocation userId w
      = (Ok (Json reply (sessionId conv) true), w')
      /\ eventsDb w' = (eventsDb w ++ [ev])%list
      /\ exists d, ev_data ev
                   = castEventData (eventDataOf ce d userLocation userId))
  \/ (exists e w',
        proceedMain O conv ce userLocation userId w = (Throw e, w')
        /\ eventsDb w' = eventsDb w
        /\ conversationsDb w' = conversationsDb w).
Proof.
  intros Htitle. unfold proceedMain.
  destruct (resolveFinalDate_returns O ce w) as [res [w1 [E1 [Ev1 Ec1]]]].
  destruct (applyTimeMain_returns_or_throws O ce (fst res) w1)
    as [[d [w2 [E2 [Ev2 _]]]] | [e [w2 [E2 [_ [Ev2 Ec2]]]]]].
  - left. unfold bind at 1. rewrite E1. unfold bind at 1. rewrite E2.
    destruct (createEvent_valid_title O ce d userLocation userId w2 Htitle)
      as [ev [w3 [E3 [Hev [Ev3 _]]]]].
    unfold bind at 1. rewrite E3.
    unfold askGenerate, ask, respond, bind, getWorld, record, ret,
      safeSaveConversation. simpl.
    destruct (existsb _ _); simpl;
      (eexists; exists ev; eexists; split; [reflexivity|]); simpl;
      (split; [now rewrite Ev3, Ev2, Ev1 | now exists d]).
  - right. unfold bind at 1. rewrite E1. unfold bind at 1. rewrite E2.
    exists e, w2. split; [reflexivity|].
    split; [now rewrite Ev2, Ev1 | now rewrite Ec2, Ec1].
Qed.

(** ** The helpers on known values *)

Example editDistance_examples :
  Similarity.editDistance "kitten" "Sitting" = 3
  /\ Similarity.editDistance "" "abc" = 3
  /\ Similarity.editDistance "flaw" "lawn" = 2
  /\ Similarity.calculateSimilarity "" "" = 1%Q.
Proof. vm_compute. repeat split; reflexivity. Qed.

Example normalization_examples :
  messageLower "  No way!  " = "no way"
  /\ messageLower "No." = "no"
  /\ messageLower "no;" = "no;"
  /\ messageLowerFinal "no;" = "no"
  /\ JS.trim (JS.toLowerCase "  Tech SUMMIT ") = "tech summit".
Proof. vm_compute. repeat split; reflexivity. Qed.

(* ===================================================================== *)
(** ** [editDistance] is the Levenshtein distance; [calculateSimilarity] *)
(* ===================================================================== *)

Section EditDistance.
Import Similarity Levenshtein.

Lemma table_S s1 s2 i j :
  table s1 s2 (S i) (S j) =
  if charNeq (JS.charAt s1 i) (JS.charAt s2 j)
  then Nat.min (Nat.min (table s1 s2 i j) (table s1 s2 (S i) j))
               (table s1 s2 i (S j)) + 1
  else table s1 s2 i j.
Proof. reflexivity. Qed.

Lemma table_0_r s1 s2 i : table s1 s2 i 0 = i.
Proof. destruct i; reflexivity. Qed.

Lemma fold_left_seq_S {A} (f : A -> nat -> A) (k : nat) (a : A) :
  fold_left f (List.seq 0 (S k)) a = f (fold_left f (List.seq 0 k) a) k.
Proof. rewrite seq_S, fold_left_app. reflexivity. Qed.

Lemma arraySet_end a i v : i = length a -> arraySet a i v = (a ++ [v])%list.
Proof.
  intros ->. unfold arraySet. rewrite Nat.ltb_irrefl, Nat.sub_diag. reflexivity.
Qed.

Lemma arraySet_middle a x b i v :
  i = length a -> arraySet (a ++ x :: b) i v = (a ++ v :: b)%list.
Proof.
  intros ->. unfold arraySet. rewrite length_app. simpl.
  destruct (Nat.ltb_spec (length a) (length a + S (length b))); [|lia].
  replace (length a) with (length a + 0) at 1 by lia.
  rewrite insert_app_r. reflexivity.
Qed.

Lemma arrayGet_middle a x b i : i = length a -> arrayGet (a ++ x :: b) i = x.
Proof. intros ->. unfold arrayGet. now rewrite list_lookup_middle. Qed.

Lemma arrayGet_after a x y b i :
  i = length a -> arrayGet (a ++ x :: y :: b) (S i) = y.
Proof.
  intros ->. unfold arrayGet.
  replace (a ++ x :: y :: b)%list with ((a ++ [x]) ++ y :: b)%list
    by now rewrite <- app_assoc.
  rewrite list_lookup_middle; [reflexivity|].
  rewrite length_app. simpl. lia.
Qed.

(** The first pass ([i = 0]) writes [0 .. s2.length] into the empty array. *)
Lemma first_row s1 s2 k lastValue :
  fold_left (innerStep s1 s2 0) (List.seq 0 k) ([], lastValue)
  = (List.seq 0 k, lastValue).
Proof.
  induction k as [|k IH]; [reflexivity|].
  rewrite fold_left_seq_S, IH. unfold innerStep. cbn [Nat.eqb].
  f_equal. rewrite arraySet_end by now rewrite length_seq.
  now rewrite seq_S.
Qed.

Lemma map_table_0 s1 s2 l : map (table s1 s2 0) l = l.
Proof.
  induction l as [|x l IH]; [reflexivity|]. cbn [map]. now rewrite IH.
Qed.

(** While pass [S i] has reached column [k], the array holds the new
    row left of [k] and the previous row from [k] on; [lastValue] is the
    new entry of column [k]. *)
Lemma next_row_upto s1 s2 i k :
  k <= String.length s2 ->
  fold_left (innerStep s1 s2 (S i)) (List.seq 0 (S k)) (rowOf s1 s2 i, S i)
  = ((map (table s1 s2 (S i)) (List.seq 0 k)
      ++ map (table s1 s2 i) (List.seq k (S (String.length s2) - k)))%list,
     table s1 s2 (S i) k).
Proof.
  induction k as [|k IH]; intros Hk.
  - reflexivity.
  - rewrite fold_left_seq_S, IH by lia. clear IH.
    rewrite (seq_S k 0), map_app. cbn [Nat.add map].
    replace (S (String.length s2) - k) with (S (S (String.length s2 - S k))) by lia.
    replace (S (String.length s2) - S k) with (S (String.length s2 - S k)) by lia.
    set (a := map (table s1 s2 (S i)) (List.seq 0 k)).
    assert (Ha : k = length a) by (unfold a; now rewrite length_map, length_seq).
    cbn [List.seq map]. unfold innerStep.
    cbn [Nat.eqb Nat.ltb Nat.leb].
    replace (S k - 1) with k by lia. replace (S i - 1) with i by lia.
    rewrite (arrayGet_middle a), (arrayGet_after a), (arraySet_middle a) by exact Ha.
    rewrite <- app_assoc. reflexivity.
Qed.

Lemma next_row s1 s2 i :
  outerStep s1 s2 (rowOf s1 s2 i) (S i) = rowOf s1 s2 (S i).
Proof.
  unfold outerStep. rewrite next_row_upto by lia.
  rewrite Nat.sub_succ_l, Nat.sub_diag by lia. cbn [List.seq map Nat.ltb Nat.leb].
  rewrite arraySet_middle by now rewrite length_map, length_seq.
  unfold rowOf. now rewrite (seq_S (String.length s2) 0), map_app.
Qed.

Lemma rows s1 s2 i :
  fold_left (outerStep s1 s2) (List.seq 0 (S i)) [] = rowOf s1 s2 i.
Proof.
  induction i as [|i IH].
  - cbn [List.seq fold_left]. unfold outerStep. rewrite first_row.
    unfold rowOf. now rewrite map_table_0.
  - rewrite fold_left_seq_S, IH. apply next_row.
Qed.

Lemma length_toLowerCase s : String.length (JS.toLowerCase s) = String.length s.
Proof. induction s as [|c s IH]; simpl; congruence. Qed.

(** The array loops compute the table's entry for the two whole
    (lower-cased) strings. *)
Lemma editDistance_table s1 s2 :
  editDistance s1 s2
  = table (JS.toLowerCase s1) (JS.toLowerCase s2)
          (String.length s1) (String.length s2).
Proof.
  unfold editDistance. rewrite rows. unfold rowOf, arrayGet.
  rewrite !length_toLowerCase.
  rewrite list_lookup_fmap, lookup_seq_lt by lia. reflexivity.
Qed.

(** *** Properties of the table *)

Lemma distance_S s1 s2 i j :
  distance s1 s2 (S i) (S j) =
  Nat.min (Nat.min (distance s1 s2 i (S j) + 1) (distance s1 s2 (S i) j + 1))
          (distance s1 s2 i j
           + (if charNeq (JS.charAt s1 i) (JS.charAt s2 j) then 1 else 0)).
Proof. reflexivity. Qed.

Lemma distance_0_r s1 s2 i : distance s1 s2 i 0 = i.
Proof. destruct i; reflexivity. Qed.

Lemma distance_step_down s1 s2 i j :
  distance s1 s2 (S i) j <= distance s1 s2 i j + 1.
Proof.
  destruct j as [|j]; [rewrite !distance_0_r; lia|]. rewrite distance_S. lia.
Qed.

Lemma distance_step_right s1 s2 i j :
  distance s1 s2 i (S j) <= distance s1 s2 i j + 1.
Proof.
  destruct i as [|i]; [simpl; lia|]. rewrite distance_S. lia.
Qed.

Lemma distance_back_right s1 s2 i j :
  distance s1 s2 i j <= distance s1 s2 i (S j) + 1.
Proof.
  revert j. induction i as [|i IH]; intros j; [simpl; lia|].
  rewrite distance_S.
  pose proof (distance_step_down s1 s2 i j). pose proof (IH j).
  destruct (charNeq _ _); lia.
Qed.

Lemma distance_back_down s1 s2 i j :
  distance s1 s2 i j <= distance s1 s2 (S i) j + 1.
Proof.
  induction j as [|j IH]; [rewrite !distance_0_r; lia|].
  rewrite distance_S.
  pose proof (distance_step_right s1 s2 i j).
  destruct (charNeq _ _); lia.
Qed.

(** Taking the diagonal entry unchanged on equal characters, as the loop
    does, gives the same table as the three-way minimum. *)
Lemma table_distance s1 s2 i j : table s1 s2 i j = distance s1 s2 i j.
Proof.
  revert j. induction i as [|i IHi]; intros j; [reflexivity|].
  induction j as [|j IHj]; [reflexivity|].
  rewrite table_S, distance_S, IHj, (IHi j), (IHi (S j)).
  pose proof (distance_back_right s1 s2 i j).
  pose proof (distance_back_down s1 s2 i j).
  destruct (charNeq _ _); lia.
Qed.

Lemma table_le_max s1 s2 i j : table s1 s2 i j <= Nat.max i j.
Proof.
  revert j. induction i as [|i IHi]; intros j; [simpl; lia|].
  induction j as [|j IHj]; [rewrite table_0_r; lia|].
  rewrite table_S. pose proof (IHi j). destruct (charNeq _ _); lia.
Qed.

Lemma table_ge_gap s1 s2 i j :
  i <= j + table s1 s2 i j /\ j <= i + table s1 s2 i j.
Proof.
  revert j. induction i as [|i IHi]; intros j; [simpl; lia|].
  induction j as [|j IHj]; [rewrite table_0_r; lia|].
  rewrite table_S. pose proof (IHi j). pose proof (IHi (S j)).
  destruct (charNeq _ _); lia.
Qed.

Lemma charNeq_refl a : charNeq a a = false.
Proof. destruct a as [c|]; simpl; [|reflexivity]. now rewrite Ascii.eqb_refl. Qed.

Lemma charNeq_false a b : charNeq a b = false -> a = b.
Proof.
  destruct a as [x|], b as [y|]; simpl; try discriminate; [|reflexivity].
  intros H. apply negb_false_iff, Ascii.eqb_eq in H. now subst.
Qed.

Lemma charNeq_sym a b : charNeq a b = charNeq b a.
Proof.
  destruct a as [x|], b as [y|]; simpl; try reflexivity.
  now rewrite Ascii.eqb_sym.
Qed.

Lemma table_same s i : table s s i i = 0.
Proof.
  induction i as [|i IH]; [reflexivity|].
  now rewrite table_S, charNeq_refl.
Qed.

Lemma table_zero s1 s2 i j :
  table s1 s2 i j = 0 ->
  i = j /\ forall k, k < i -> JS.charAt s1 k = JS.charAt s2 k.
Proof.
  revert j. induction i as [|i IHi]; intros j.
  - simpl. intros ->. split; [reflexivity|]. intros k Hk. lia.
  - destruct j as [|j]; [rewrite table_0_r; discriminate|].
    rewrite table_S. destruct (charNeq _ _) eqn:E; [lia|].
    intros H. apply IHi in H as [-> H]. split; [reflexivity|].
    intros k Hk. destruct (Nat.eq_dec k j) as [->|Hne].
    + now apply charNeq_false.
    + apply H. lia.
Qed.

Lemma table_sym s1 s2 i j : table s1 s2 i j = table s2 s1 j i.
Proof.
  revert j. induction i as [|i IHi]; intros j.
  - now rewrite table_0_r.
  - induction j as [|j IHj]; [reflexivity|].
    rewrite !table_S, IHj, (IHi j), (IHi (S j)), charNeq_sym.
    destruct (charNeq _ _); lia.
Qed.

Lemma get_beyond s k : String.length s <= k -> String.get k s = None.
Proof.
  revert k. induction s as [|c s IH]; intros k Hk; [now destruct k|].
  destruct k as [|k]; simpl in *; [lia|]. apply IH. lia.
Qed.

Lemma editDistance_le s1 s2 :
  editDistance s1 s2 <= Nat.max (String.length s1) (String.length s2).
Proof. rewrite editDistance_table. apply table_le_max. Qed.

Lemma editDistance_sym s1 s2 : editDistance s1 s2 = editDistance s2 s1.
Proof. rewrite !editDistance_table. apply table_sym. Qed.

Lemma editDistance_zero_iff s1 s2 :
  editDistance s1 s2 = 0 <-> JS.toLowerCase s1 = JS.toLowerCase s2.
Proof.
  rewrite editDistance_table. split.
  - intros H. apply table_zero in H as [Hlen H].
    apply String.get_correct. intros k.
    destruct (Nat.lt_ge_cases k (String.length s1)) as [Hk|Hk]; [now apply H|].
    rewrite !get_beyond; [reflexivity| |]; rewrite length_toLowerCase; lia.
  - intros H. rewrite H.
    replace (String.length s1) with (String.length s2).
    + apply table_same.
    + now rewrite <- (length_toLowerCase s2), <- H, length_toLowerCase.
Qed.

Lemma editDistance_gap s1 s2 :
  String.length s1 <= String.length s2 + editDistance s1 s2
  /\ String.length s2 <= String.length s1 + editDistance s1 s2.
Proof. rewrite editDistance_table. apply table_ge_gap. Qed.

(** *** [calculateSimilarity] *)

Lemma calculateSimilarity_eq a b :
  calculateSimilarity a b =
  if Nat.max (String.length a) (String.length b) =? 0 then 1%Q
  else ((Z.of_nat (Nat.max (String.length a) (String.length b))
         - Z.of_nat (editDistance a b))
          # Pos.of_nat (Nat.max (String.length a) (String.length b)))%Q.
Proof.
  unfold calculateSimilarity.
  destruct (Nat.ltb_spec (String.length b) (String.length a)) as [H|H].
  - now rewrite Nat.max_l by lia.
  - rewrite Nat.max_r by lia. now rewrite (editDistance_sym b a).
Qed.

Lemma Zpos_of_nat n : n <> 0 -> Z.pos (Pos.of_nat n) = Z.of_nat n.
Proof.
  destruct n as [|n]; [congruence|]. intros _.
  rewrite <- Pos.of_nat_succ, Zpos_P_of_succ_nat. lia.
Qed.

Lemma Qgtb_true x y : Qgtb x y = true <-> (y < x)%Q.
Proof.
  unfold Qgtb. rewrite negb_true_iff. split.
  - intros H. apply Qnot_le_lt. intros Hle.
    apply Qle_bool_iff in Hle. congruence.
  - intros H. destruct (Qle_bool x y) eqn:E; [|reflexivity].
    apply Qle_bool_iff in E. exfalso. exact (Qlt_not_le _ _ H E).
Qed.

(** X1. [editDistance] returns the Levenshtein distance (unit costs for
    insertion, deletion and substitution) between the two strings
    lower-cased. *)
Theorem editDistance_is_levenshtein s1 s2 :
  editDistance s1 s2
  = distance (JS.toLowerCase s1) (JS.toLowerCase s2)
             (String.length s1) (String.length s2).
Proof. rewrite editDistance_table. apply table_distance. Qed.

(** X2. The similarity of two strings does not depend on the order in
    which they are given. *)
Theorem similarity_symmetric a b :
  calculateSimilarity a b = calculateSimilarity b a.
Proof.
  unfold calculateSimilarity.
  destruct (Nat.ltb_spec (String.length b) (String.length a)) as [H|H];
    destruct (Nat.ltb_spec (String.length a) (String.length b)) as [H'|H'];
    try lia; try reflexivity.
  replace (String.length a) with (String.length b) by lia.
  now rewrite (editDistance_sym b a).
Qed.

Lemma calculateSimilarity_any_toLowerCase a b :
  calculateSimilarity a b = CaseFolding.calculateSimilarity JS.toLowerCase a b.
Proof. reflexivity. Qed.

Lemma editDistance_any_table toLowerCase s1 s2 :
  CaseFolding.editDistance toLowerCase s1 s2
  = table (toLowerCase s1) (toLowerCase s2)
          (String.length (toLowerCase s1)) (String.length (toLowerCase s2)).
Proof.
  unfold CaseFolding.editDistance. rewrite rows. unfold rowOf, arrayGet.
  rewrite list_lookup_fmap, lookup_seq_lt by lia. reflexivity.
Qed.

(** X3. When lower-casing keeps the length of both strings (as it does
    on ASCII text), the similarity lies between 0 and 1. *)
Theorem similarity_between_0_and_1 (toLowerCase : string -> string) a b :
  String.length (toLowerCase a) = String.length a ->
  String.length (toLowerCase b) = String.length b ->
  (0 <= CaseFolding.calculateSimilarity toLowerCase a b)%Q
  /\ (CaseFolding.calculateSimilarity toLowerCase a b <= 1)%Q.
Proof.
  intros Ha Hb. unfold CaseFolding.calculateSimilarity.
  set (longer := if String.length b <? String.length a then a else b).
  set (shorter := if String.length b <? String.length a then b else a).
  assert (Hd : CaseFolding.editDistance toLowerCase longer shorter
               <= String.length longer).
  { rewrite editDistance_any_table.
    etransitivity; [apply table_le_max|]. unfold longer, shorter.
    destruct (Nat.ltb_spec (String.length b) (String.length a));
      rewrite Ha, Hb; lia. }
  destruct (Nat.eqb_spec (String.length longer) 0) as [E|E].
  - split; unfold Qle; simpl; lia.
  - split; unfold Qle; cbn [Qnum Qden]; rewrite ?(Zpos_of_nat _ E); lia.
Qed.

Lemma similarity_between_0_and_1_witness :
  (0 <= CaseFolding.calculateSimilarity JS.toLowerCase "Jazz Night" "jazz fight")%Q
  /\ (CaseFolding.calculateSimilarity JS.toLowerCase "Jazz Night" "jazz fight"
      <= 1)%Q.
Proof.
  apply (similarity_between_0_and_1 JS.toLowerCase "Jazz Night" "jazz fight");
    reflexivity.
Defined.

(** Without that the similarity can be negative: a string of one unit
    that lower-cases to two has similarity -1 with the empty string. *)
Example similarity_below_0 :
  CaseFolding.calculateSimilarity CaseFolding.lengthening "I" "" = (-1)%Q
  /\ CaseFolding.calculateSimilarity CaseFolding.lengthening "" "I" = (-1)%Q.
Proof. vm_compute. split; reflexivity. Qed.

(** X4. The similarity is 1 exactly when the strings agree up to
    letter case. *)
Theorem similarity_1_iff_equal_ignoring_case a b :
  (calculateSimilarity a b == 1)%Q <-> JS.toLowerCase a = JS.toLowerCase b.
Proof.
  rewrite calculateSimilarity_eq, <- editDistance_zero_iff.
  destruct (Nat.eqb_spec (Nat.max (String.length a) (String.length b)) 0) as [E|E].
  - split; [|reflexivity]. intros _. pose proof (editDistance_le a b). lia.
  - unfold Qeq. cbn [Qnum Qden]. rewrite (Zpos_of_nat _ E). lia.
Qed.

(** X5. When lower-casing keeps the length of [s] and maps the empty
    string to itself, the similarity of [s] with the empty string is 0 in
    either order, except that two empty strings have similarity 1. *)
Theorem similarity_with_empty (toLowerCase : string -> string) s :
  toLowerCase "" = "" ->
  String.length (toLowerCase s) = String.length s ->
  (CaseFolding.calculateSimilarity toLowerCase s ""
   == if String.length s =? 0 then 1 else 0)%Q
  /\ (CaseFolding.calculateSimilarity toLowerCase "" s
      == if String.length s =? 0 then 1 else 0)%Q.
Proof.
  intros Hempty Hs. unfold CaseFolding.calculateSimilarity.
  cbn [String.length].
  replace (String.length s <? 0) with false
    by (symmetry; apply Nat.ltb_ge; lia).
  assert (H1 : CaseFolding.editDistance toLowerCase s "" = String.length s).
  { rewrite editDistance_any_table, Hempty, Hs. apply table_0_r. }
  destruct (Nat.ltb_spec 0 (String.length s)) as [Hpos|Hzero].
  - rewrite H1. destruct (Nat.eqb_spec (String.length s) 0) as [E|E]; [lia|].
    split; unfold Qeq; cbn [Qnum Qden]; lia.
  - assert (s = "") as -> by (destruct s; [reflexivity|simpl in Hzero; lia]).
    split; reflexivity.
Qed.

Lemma similarity_with_empty_witness :
  (CaseFolding.calculateSimilarity JS.toLowerCase "Jazz" ""
   == if String.length "Jazz" =? 0 then 1 else 0)%Q
  /\ (CaseFolding.calculateSimilarity JS.toLowerCase "" "Jazz"
      == if String.length "Jazz" =? 0 then 1 else 0)%Q.
Proof.
  apply (similarity_with_empty JS.toLowerCase "Jazz"); reflexivity.
Defined.

(** X6. The threshold in whole numbers: the similarity exceeds 0.9 exactly
    when the edit distance, times ten, stays below the longer length (or
    both strings are empty). *)
Theorem similar_iff_few_edits a b :
  Qgtb (calculateSimilarity a b) threshold = true
  <-> 10 * editDistance a b < Nat.max (String.length a) (String.length b)
      \/ (a = "" /\ b = "").
Proof.
  rewrite Qgtb_true, calculateSimilarity_eq. unfold threshold.
  destruct (Nat.eqb_spec (Nat.max (String.length a) (String.length b)) 0) as [E|E].
  - split; [|reflexivity]. intros _. right.
    destruct a, b; simpl in E; try lia. now split.
  - unfold Qlt. cbn [Qnum Qden]. rewrite (Zpos_of_nat _ E). split.
    + intros H. left. lia.
    + intros [H|[-> ->]]; [lia|]. now simpl in E.
Qed.

End EditDistance.

(* ===================================================================== *)
(** ** What de-duplication keeps and what it drops *)
(* ===================================================================== *)

Section KeptAndDropped.
Import Duplicates.

Lemma setHas_setAdd_inv s x y :
  setHas (setAdd s x) y = true -> setHas s y = true \/ y = x.
Proof.
  unfold setAdd. destruct (setHas s x); [now left|].
  unfold setHas. rewrite existsb_app. simpl. rewrite orb_false_r.
  intros [H|H]%orb_true_iff; [now left|right]. now apply String.eqb_eq.
Qed.

Lemma setHas_In s x : setHas s x = true <-> In x s.
Proof.
  unfold setHas. rewrite existsb_exists. split.
  - intros [y [Hy ->%String.eqb_eq]]. exact Hy.
  - intros H. exists x. split; [exact H|apply String.eqb_refl].
Qed.

Lemma consistent_noneSeen : consistent noneSeen.
Proof. split; simpl; intros; try contradiction; discriminate. Qed.

Lemma consistent_step st event :
  consistent st -> consistent (dedupStep st event).
Proof.
  intros [Kt Ku St Su]. rewrite dedupStep_keeps.
  destruct (keeps st event); [|now split]. split; simpl.
  - intros a [Ha|[<-|[]]]%in_app_or.
    + now apply setHas_setAdd_mono, Kt.
    + apply setHas_setAdd.
  - intros a u [Ha|[<-|[]]]%in_app_or Hu.
    + destruct (JS.whenTruthy (urlKey event));
        [apply setHas_setAdd_mono|]; now apply (Ku a).
    + rewrite Hu. apply setHas_setAdd.
  - intros t [H| ->]%setHas_setAdd_inv.
    + destruct (St t H) as [a [Ha Heq]]. exists a. split; [|exact Heq].
      apply in_or_app. now left.
    + exists event. split; [|reflexivity]. apply in_or_app. right. now left.
  - intros u Hu.
    assert (setHas (seenUrls st) u = true
            \/ JS.whenTruthy (urlKey event) = Some u) as [H|H].
    { destruct (JS.whenTruthy (urlKey event)) as [v|]; [|now left].
      apply setHas_setAdd_inv in Hu as [H| ->]; [now left|now right]. }
    + destruct (Su u H) as [a [Ha Heq]]. exists a. split; [|exact Heq].
      apply in_or_app. now left.
    + exists event. split; [|exact H]. apply in_or_app. right. now left.
Qed.

Lemma consistent_fold events st :
  consistent st -> consistent (fold_left dedupStep events st).
Proof.
  revert st. induction events as [|e events IH]; intros st H; [exact H|].
  simpl. apply IH. now apply consistent_step.
Qed.

Lemma consistent_dedupState events : consistent (dedupState events).
Proof. apply consistent_fold, consistent_noneSeen. Qed.

(** A result is pushed only if it is no duplicate of any kept one... *)
Lemma keeps_true_no_duplicate st event a :
  consistent st -> keeps st event = true ->
  In a (uniqueEvents st) -> ~ duplicateOf a event.
Proof.
  intros [Kt Ku _ _] Hk Ha [Ht|[Hs|[u [Hua Hub]]]].
  - rewrite keeps_false_title in Hk; [discriminate|]. rewrite Ht. now apply Kt.
  - rewrite (keeps_false_similar st event (titleKey a)) in Hk;
      [discriminate|now apply Kt|exact Hs].
  - rewrite (keeps_false_url st event u) in Hk;
      [discriminate|exact Hub|now apply (Ku a)].
Qed.

(** ... and skipped only if it is a duplicate of one. *)
Lemma keeps_false_duplicate st event :
  consistent st -> keeps st event = false ->
  exists a, In a (uniqueEvents st) /\ duplicateOf a event.
Proof.
  intros [_ _ St Su]. unfold keeps.
  intros [H|H]%andb_false_iff; apply negb_false_iff in H.
  - unfold alreadySeen in H. apply orb_true_iff in H as [H|H].
    + destruct (St _ H) as [a [Ha Heq]]. exists a. split; [exact Ha|].
      left. now symmetry.
    + destruct (JS.whenTruthy (urlKey event)) as [u|] eqn:E; [|discriminate].
      destruct (Su _ H) as [a [Ha Heq]]. exists a. split; [exact Ha|].
      right. right. now exists u.
  - unfold isDuplicate in H. apply existsb_exists in H as [t [Ht Hq]].
    apply setHas_In in Ht. destruct (St _ Ht) as [a [Ha Heq]].
    exists a. split; [exact Ha|]. right. left. now rewrite Heq.
Qed.

Lemma uniqueEvents_fold_sublist events st :
  exists kept, uniqueEvents (fold_left dedupStep events st)
               = (uniqueEvents st ++ kept)%list
               /\ sublist kept events.
Proof.
  revert st. induction events as [|e events IH]; intros st.
  - exists []. split; [now rewrite app_nil_r|constructor].
  - simpl. destruct (IH (dedupStep st e)) as [kept [Heq Hsub]].
    rewrite Heq, dedupStep_keeps. destruct (keeps st e).
    + exists (e :: kept). simpl. split; [now rewrite <- app_assoc|].
      now constructor.
    + exists kept. split; [reflexivity|]. now constructor.
Qed.

Lemma keeps_noneSeen event : keeps noneSeen event = true.
Proof.
  unfold keeps, alreadySeen, isDuplicate. simpl.
  now destruct (JS.whenTruthy (urlKey event)).
Qed.

(** X7. De-duplication selects results in their order, and always
    keeps the first one. *)
Theorem removeDuplicates_selects_in_order events :
  sublist (removeDuplicates events) events
  /\ head (removeDuplicates events) = head events.
Proof.
  unfold removeDuplicates, dedupState. split.
  - destruct (uniqueEvents_fold_sublist events noneSeen) as [kept [-> H]].
    exact H.
  - destruct events as [|e events]; [reflexivity|]. simpl.
    destruct (uniqueEvents_fold_sublist events (dedupStep noneSeen e))
      as [kept [-> _]].
    now rewrite dedupStep_keeps, keeps_noneSeen.
Qed.

Lemma ForallOrdPairs_snoc {A} (R : A -> A -> Prop) l x :
  ForallOrdPairs R l -> Forall (fun a => R a x) l ->
  ForallOrdPairs R (l ++ [x]).
Proof.
  induction 1 as [|a l Ha Hl IH]; intros Hx; simpl.
  - constructor; constructor.
  - inversion Hx; subst. constructor; [|now apply IH].
    apply Forall_app. split; [exact Ha|]. now constructor.
Qed.

Lemma kept_pairwise_fold events st :
  consistent st ->
  ForallOrdPairs (fun a b => ~ duplicateOf a b) (uniqueEvents st) ->
  ForallOrdPairs (fun a b => ~ duplicateOf a b)
                 (uniqueEvents (fold_left dedupStep events st)).
Proof.
  revert st. induction events as [|e events IH]; intros st Hc Hp; [exact Hp|].
  simpl. apply IH; [now apply consistent_step|].
  rewrite dedupStep_keeps. destruct (keeps st e) eqn:Hk; [|exact Hp].
  simpl. apply ForallOrdPairs_snoc; [exact Hp|].
  apply List.Forall_forall. intros a Ha.
  now apply (keeps_true_no_duplicate st e a).
Qed.

(** X8. No kept result is a duplicate of a result kept before it: not
    the same title key, not a title key more than 0.9 similar, not the
    same non-empty URL key. *)
Theorem kept_results_are_no_duplicates events :
  ForallOrdPairs (fun a b => ~ duplicateOf a b) (removeDuplicates events).
Proof.
  apply kept_pairwise_fold; [apply consistent_noneSeen|constructor].
Qed.

(** X9. Every search result is kept, or is a duplicate of a kept result:
    nothing is dropped for another reason. *)
Theorem dropped_results_are_duplicates events event :
  In event events ->
  In event (removeDuplicates events)
  \/ exists a, In a (removeDuplicates events) /\ duplicateOf a event.
Proof.
  intros [pre [post ->]]%in_split.
  unfold removeDuplicates, dedupState. rewrite fold_left_app. simpl.
  fold (dedupState pre).
  destruct (keeps (dedupState pre) event) eqn:Hk.
  - left. apply uniqueEvents_fold. rewrite dedupStep_keeps, Hk. simpl.
    apply in_or_app. right. now left.
  - right.
    destruct (keeps_false_duplicate _ _ (consistent_dedupState pre) Hk)
      as [a [Ha Hdup]].
    exists a. split; [|exact Hdup].
    now apply uniqueEvents_fold, uniqueEvents_step.
Qed.

(** "Summer Music Fest 02" after "Summer Music Fest 01". *)
Lemma dropped_results_are_duplicates_witness :
  In Scenario.fest02 [Scenario.fest01; Scenario.fest02; Scenario.fest12]
  /\ (In Scenario.fest02
        (removeDuplicates [Scenario.fest01; Scenario.fest02; Scenario.fest12])
      \/ exists a,
           In a (removeDuplicates
                   [Scenario.fest01; Scenario.fest02; Scenario.fest12])
           /\ duplicateOf a Scenario.fest02).
Proof.
  split; [right; left; reflexivity|].
  apply (dropped_results_are_duplicates
           [Scenario.fest01; Scenario.fest02; Scenario.fest12] Scenario.fest02).
  right. left. reflexivity.
Defined.

Lemma dedupState_removeDuplicates events :
  dedupState (removeDuplicates events) = dedupState events.
Proof.
  induction events as [|e events IH] using rev_ind; [reflexivity|].
  unfold removeDuplicates in *. rewrite dedupState_snoc, dedupStep_keeps.
  destruct (keeps (dedupState events) e) eqn:Hk.
  - cbn [uniqueEvents]. rewrite dedupState_snoc, IH.
    now rewrite dedupStep_keeps, Hk.
  - exact IH.
Qed.

(** X10. De-duplicating a de-duplicated batch changes nothing. *)
Theorem removeDuplicates_idempotent events :
  removeDuplicates (removeDuplicates events) = removeDuplicates events.
Proof.
  unfold removeDuplicates at 1 3. now rewrite dedupState_removeDuplicates.
Qed.

End KeptAndDropped.

(* ===================================================================== *)
(** ** What a discovery turn remembers *)
(* ===================================================================== *)

Section DiscoveryOutcome.
Import Outcome.

Lemma returns_ret {A} (a : A) (P : World -> A -> World -> Prop) :
  (forall w, P w a w) -> returns (ret a) P.
Proof. intros H w. exists a, w. split; [reflexivity|apply H]. Qed.

Lemma returns_bind {A B} (c : M A) (k : A -> M B)
    (P : World -> A -> World -> Prop) (Q : A -> World -> B -> World -> Prop)
    (R : World -> B -> World -> Prop) :
  returns c P -> (forall a, returns (k a) (Q a)) ->
  (forall w a w' b w'', P w a w' -> Q a w' b w'' -> R w b w'') ->
  returns (bind c k) R.
Proof.
  intros Hc Hk HR w. destruct (Hc w) as [a [w' [E HP]]].
  destruct (Hk a w') as [b [w'' [E' HQ]]]. exists b, w''. split.
  - unfold bind. now rewrite E.
  - eapply HR; eassumption.
Qed.

Lemma returns_weaken {A} (c : M A) (P Q : World -> A -> World -> Prop) :
  returns c P -> (forall w a w', P w a w' -> Q w a w') -> returns c Q.
Proof.
  intros Hc H w. destruct (Hc w) as [a [w' [E HP]]]. exists a, w'. auto.
Qed.

Lemma returns_ask {A} (c : Call) (answer : list Call -> A) :
  returns (ask c answer) (fun w _ w' => eventsDb w' = eventsDb w).
Proof. intros w. eexists _, _. split; reflexivity. Qed.

Lemma eventsGrow_refl w : eventsGrow w w.
Proof. exists []. now rewrite app_nil_r. Qed.

Lemma eventsGrow_trans a b c : eventsGrow a b -> eventsGrow b c -> eventsGrow a c.
Proof.
  intros [d1 H1] [d2 H2]. exists (d1 ++ d2)%list.
  now rewrite H2, H1, app_assoc.
Qed.

Lemma ownedBy_grow userId w w' id :
  eventsGrow w w' -> ownedBy userId w id -> ownedBy userId w' id.
Proof.
  intros [docs H] [e [He Hid]]. exists e. split; [|exact Hid].
  rewrite H. apply in_or_app. now left.
Qed.

Lemma saveValidated_returns O userId savedEventIds c :
  returns (saveValidated O userId savedEventIds c)
    (fun w ids w' =>
       eventsGrow w w'
       /\ (ids = savedEventIds
           \/ exists id, ids = (savedEventIds ++ [id])%list
                         /\ ownedBy userId w' id)).
Proof.
  intros w. unfold saveValidated, tryCatch, bind, getWorld.
  assert (Hnew :
    exists a w',
      match
        match newEvent O (candidateData c userId) w with
        | (Ok a, w') =>
            match saveEvent a w' with
            | (Ok _, w'0) => ret (savedEventIds ++ [ev_id a])%list w'0
            | (Throw e, w'0) => (Throw e, w'0)
            end
        | (Throw e, w') => (Throw e, w')
        end
      with
      | (Ok a, w') => (Ok a, w')
      | (Throw _, w') => ret savedEventIds w'
      end = (Ok a, w')
      /\ eventsGrow w w'
      /\ (a = savedEventIds
          \/ exists id, a = (savedEventIds ++ [id])%list /\ ownedBy userId w' id)).
  { unfold newEvent, saveEvent. cbn [ev_data].
    destruct (validEventData (castEventData (candidateData c userId))).
    - eexists _, _. split; [reflexivity|]. split.
      + eexists. reflexivity.
      + right. eexists. split; [reflexivity|]. eexists. split.
        * cbn [eventsDb]. apply in_or_app. right. left. reflexivity.
        * split; reflexivity.
    - eexists _, _. split; [reflexivity|]. split; [|now left].
      exists []. simpl. now rewrite app_nil_r. }
  destruct (findExisting c w) as [existing|] eqn:E; [|exact Hnew].
  destruct (bool_decide (ed_userId (ev_data existing) = Some userId)) eqn:D;
    [|exact Hnew].
  eexists _, _. split; [reflexivity|]. split; [apply eventsGrow_refl|].
  right. eexists. split; [reflexivity|]. exists existing.
  apply bool_decide_eq_true in D. unfold findExisting in E.
  apply find_some in E as [E _]. auto.
Qed.

Lemma saveAll_returns O userId eventsToShow savedEventIds :
  returns (saveAll O userId eventsToShow savedEventIds)
    (fun w ids w' =>
       eventsGrow w w'
       /\ length ids <= length savedEventIds + length eventsToShow
       /\ (Forall (ownedBy userId w) savedEventIds ->
           Forall (ownedBy userId w') ids)).
Proof.
  revert savedEventIds.
  induction eventsToShow as [|c rest IH]; intros savedEventIds; simpl.
  - apply returns_ret. intros w. split; [apply eventsGrow_refl|].
    split; [lia|auto].
  - eapply returns_bind; [apply saveValidated_returns|intros ids; apply IH|].
    simpl. intros w ids w' ids' w'' [G1 H1] [G2 [L2 H2]].
    split; [now apply (eventsGrow_trans w w' w'')|]. split.
    + destruct H1 as [->|[id [-> _]]]; [lia|]. rewrite length_app in L2.
      simpl in L2. lia.
    + intros Hold. apply H2. destruct H1 as [->|[id [-> Hid]]].
      * eapply List.Forall_impl; [|exact Hold]. intros id. now apply ownedBy_grow.
      * apply Forall_app. split; [|now constructor].
        eapply List.Forall_impl; [|exact Hold]. intros x. now apply ownedBy_grow.
Qed.

(** X11. A discovery turn always produces a reply. It leaves the remembered
    event ids as they were, or replaces them by at most five ids, each of
    a stored event that belongs to the requesting user. *)
Theorem discovery_remembers_own_events
    O conv message details userLocation userId :
  returns (discoveryFlow O conv message details userLocation userId)
    (fun w result w' =>
       lastEventIds (context (fst result)) = lastEventIds (context conv)
       \/ exists ids,
            lastEventIds (context (fst result)) = Some ids
            /\ length ids <= 5
            /\ Forall (ownedBy userId w') ids).
Proof.
  set (Post := fun (result : Conversation * string) (w' : World) =>
       lastEventIds (context (fst result)) = lastEventIds (context conv)
       \/ exists ids,
            lastEventIds (context (fst result)) = Some ids
            /\ length ids <= 5
            /\ Forall (ownedBy userId w') ids).
  change (returns (discoveryFlow O conv message details userLocation userId)
            (fun _ result w' => Post result w')).
  assert (Hask : forall {A} c (answer : list Call -> A),
             returns (ask c answer) (fun _ _ _ => True)).
  { intros A c answer. eapply returns_weaken; [apply returns_ask|auto]. }
  assert (Hnone : forall p,
             returns (reply <- ask (CallGenerateResponse p)
                                   (fun t => generateResponse O t p) ;;
                      ret (conv, reply))
                     (fun _ result w' => Post result w')).
  { intros p. eapply returns_bind with (Q := fun _ _ r w' => Post r w');
      [apply Hask| |auto].
    intros reply. apply returns_ret. intros w. now left. }
  unfold discoveryFlow, askGenerate.
  eapply returns_bind with (P := fun _ _ _ => True)
                           (Q := fun _ _ r w' => Post r w'); [| |auto].
  { destruct (JS.whenTruthy (category details));
      [apply returns_ret; auto|].
    destruct (JS.whenTruthy (eventTitle details));
      [|apply returns_ret; auto].
    eapply returns_bind with (P := fun _ _ _ => True) (Q := fun _ _ _ _ => True);
      [apply Hask| |auto].
    intros a. destruct (_ && _); apply returns_ret; auto. }
  intros categoryForSearch.
  eapply returns_bind with (Q := fun _ _ r w' => Post r w');
    [apply Hask| |auto].
  intros events. destruct events as [|e events]; [apply Hnone|].
  eapply returns_bind with (Q := fun _ _ r w' => Post r w');
    [apply Hask| |auto].
  intros answer.
  match goal with
  | |- context [validatedEvents ?evs ?idx] =>
      destruct (validatedEvents evs idx) as [|v vs] eqn:Ev
  end.
  { eapply returns_bind with (Q := fun _ _ r w' => Post r w');
      [apply Hask| |auto].
    intros reply. apply returns_ret. intros w. now left. }
  eapply returns_bind
    with (Q := fun ids w r w' =>
                 eventsDb w' = eventsDb w
                 /\ lastEventIds (context (fst r)) = Some ids);
    [apply saveAll_returns| |].
  { intros ids w. eexists _, _. split; [reflexivity|]. split; reflexivity. }
  simpl. intros w ids w' result w'' [_ [L H]] [Hdb Heq].
  right. exists ids. split; [exact Heq|]. split.
  - etransitivity; [exact L|]. simpl. rewrite length_take. lia.
  - eapply List.Forall_impl; [|apply H; constructor].
    intros id. apply ownedBy_grow. exists []. now rewrite app_nil_r.
Qed.

End DiscoveryOutcome.

(* ===================================================================== *)
(** ** The rule-based suggestions *)
(* ===================================================================== *)

Section SuggestionRules.
Import Suggestions.

(** X12. The rule-based suggestions are never empty and never more than
    three: there are two or three of them. *)
Theorem two_or_three_suggestions intent context :
  2 <= length (generateContextualSuggestions intent context) <= 3.
Proof.
  unfold generateContextualSuggestions. rewrite length_take.
  destruct (default [] (sc_events context)) as [|e1 [|e2 rest]];
    destruct (String.eqb intent "discovery"); cbn;
    repeat match goal with
           | |- context [if ?b then _ else _] => destruct b; cbn
           end; lia.
Qed.

Lemma register_is_not_map t : ("Register for " ++ t)%string <> mapSuggestion.
Proof. discriminate. Qed.

Lemma reminder_is_not_map t : ("Set reminder for " ++ t)%string <> mapSuggestion.
Proof. discriminate. Qed.

(** X13. "View results on Map" is suggested exactly after a discovery
    turn with events, when the user has a location, the search was
    location-based and some event has coordinates or a location. *)
Theorem map_suggested_iff intent context :
  In mapSuggestion (generateContextualSuggestions intent context)
  <-> (intent = "discovery"
       /\ (exists ul, sc_userLocation context = Some ul
                      /\ truthyNumber (sl_lat ul) || JS.truthy (sl_city ul) = true)
       /\ sc_isLocationBased context = true
       /\ existsb hasLocation (default [] (sc_events context)) = true).
Proof.
  unfold generateContextualSuggestions.
  destruct (String.eqb_spec intent "discovery") as [->|Hne].
  - destruct (default [] (sc_events context)) as [|e1 rest] eqn:Hev.
    + cbn. split; [|intros [_ [_ [_ H]]]; discriminate].
      repeat match goal with
             | |- context [if ?b then _ else _] => destruct b; cbn
             end; intros H; repeat destruct H as [H|H]; solve [discriminate H | contradiction].
    + cbn [Nat.ltb Nat.leb length andb String.eqb].
      destruct (sc_userLocation context) as [ul|].
      * destruct (truthyNumber (sl_lat ul) || JS.truthy (sl_city ul)) eqn:Hl;
        destruct (sc_isLocationBased context) eqn:Hb;
        destruct (existsb hasLocation (e1 :: rest)) eqn:Hx;
        cbn [andb]; destruct rest; cbn;
        (split;
         [intros H; repeat destruct H as [H|H];
          try solve [discriminate H | contradiction];
          repeat split; try reflexivity; exists ul; split; auto
         |intros [_ [[ul' [[= <-] Hl']] [Hb' Hx']]]; try congruence; auto]).
      * cbn. destruct rest; cbn;
        (split;
         [intros H; repeat destruct H as [H|H];
          solve [discriminate H | contradiction]
         |intros [_ [[ul' [[=] _]] _]]]).
  - cbn [andb]. split; [|intros [H _]; contradiction].
    repeat match goal with
           | |- context [if ?b then _ else _] => destruct b; cbn
           end; intros H; repeat destruct H as [H|H]; solve [discriminate H | contradiction].
Qed.

End SuggestionRules.

(* ===================================================================== *)
(** ** Saving a conversation with retries *)
(* ===================================================================== *)

Section SaveWithRetries.
Import ConversationPersistence.

Lemma attemptStep_stopped save retries st attempt :
  control st <> Running -> attemptStep save retries st attempt = st.
Proof. unfold attemptStep. destruct (control st); congruence. Qed.

Lemma attempts_stopped save retries l st :
  control st <> Running -> fold_left (attemptStep save retries) l st = st.
Proof.
  induction l as [|a l IH]; intros H; [reflexivity|]. simpl.
  rewrite attemptStep_stopped by exact H. now apply IH.
Qed.

(** The loop from attempt [a] on, with [n] further attempts allowed after
    it ([a + n = retries]). *)
Lemma loop_from save retries n : forall a st,
  a + n = retries -> control st = Running -> saveCalls st = a ->
  delays st = map backoff (List.seq 0 a) ->
  let final := fold_left (attemptStep save retries) (List.seq a (S n)) st in
  exists k,
    a <= k <= retries
    /\ (forall j, a <= j < k -> transient (save j) = true)
    /\ (k < retries -> transient (save k) = false)
    /\ saveCalls final = S k
    /\ delays final = map backoff (List.seq 0 k)
    /\ resultOf final =
       match save k with
       | Saved => {| success := true; error := None |}
       | Failed e =>
           if isDuplicateKey e
           then {| success := false; error := Some "Duplicate sessionId" |}
           else {| success := false;
                   error := JS.or_ (err_message e)
                              (Some "Unknown error during conversation save") |}
       end.
Proof.
  induction n as [|n IH]; intros a st Han Hrun Hcalls Hdelays final.
  - exists a. subst final. cbn [List.seq fold_left].
    assert (Hlt : (a <? retries) = false) by (apply Nat.ltb_ge; lia).
    unfold attemptStep. rewrite Hrun, Hlt.
    split; [lia|]. split; [intros j Hj; lia|]. split; [lia|].
    destruct (save a) as [|e]; cbn.
    + now rewrite Hcalls, Hdelays.
    + destruct (isDuplicateKey e); cbn; now rewrite Hcalls, Hdelays.
  - subst final.
    change (List.seq a (S (S n))) with (a :: List.seq (S a) (S n)).
    cbn [fold_left].
    destruct (transient (save a)) eqn:Ht.
    + destruct (save a) as [|e] eqn:Hs; [discriminate|]. cbn in Ht.
      apply andb_true_iff in Ht as [Hd Hr]. apply negb_true_iff in Hd.
      assert (Hlt : (a <? retries) = true) by (apply Nat.ltb_lt; lia).
      set (st' := attemptStep save retries st a).
      assert (Hst' : st' = {| control := Running; lastError := Some e;
                              saveCalls := S (saveCalls st);
                              delays := (delays st ++ [backoff a])%list |}).
      { unfold st', attemptStep. now rewrite Hrun, Hs, Hd, Hlt, Hr. }
      destruct (IH (S a) st') as [k [Hk [Hall [Hstop Hrest]]]].
      * lia.
      * now rewrite Hst'.
      * rewrite Hst'. cbn [saveCalls]. now rewrite Hcalls.
      * rewrite Hst'. cbn [delays]. rewrite Hdelays, seq_S, map_app. reflexivity.
      * exists k. split; [lia|]. split; [|split; [exact Hstop|exact Hrest]].
        intros j Hj. destruct (Nat.eq_dec j a) as [->|Hne].
        -- rewrite Hs. cbn. now rewrite Hd, Hr.
        -- apply Hall. lia.
    + exists a.
      assert (Hstop : control (attemptStep save retries st a) <> Running).
      { unfold attemptStep. rewrite Hrun. destruct (save a) as [|e]; cbn;
          [discriminate|].
        cbn in Ht. destruct (isDuplicateKey e); cbn; [discriminate|].
        cbn in Ht. rewrite Ht, andb_false_r. discriminate. }
      rewrite attempts_stopped by exact Hstop.
      split; [lia|]. split; [intros j Hj; lia|]. split; [intros _; exact Ht|].
      unfold attemptStep. rewrite Hrun. destruct (save a) as [|e]; cbn.
      * now rewrite Hcalls, Hdelays.
      * cbn in Ht. destruct (isDuplicateKey e); cbn;
          [now rewrite Hcalls, Hdelays|].
        cbn in Ht. rewrite Ht, andb_false_r. cbn. now rewrite Hcalls, Hdelays.
Qed.

(** The run of the whole loop: it stops at the first attempt [k] that is
    no transient failure, or at the last attempt allowed. *)
Lemma attempts_stop save retries :
  exists k,
    k <= retries
    /\ (forall j, j < k -> transient (save j) = true)
    /\ (k < retries -> transient (save k) = false)
    /\ saveCalls (attempts save retries) = S k
    /\ delays (attempts save retries) = map backoff (List.seq 0 k)
    /\ resultOf (attempts save retries) =
       match save k with
       | Saved => {| success := true; error := None |}
       | Failed e =>
           if isDuplicateKey e
           then {| success := false; error := Some "Duplicate sessionId" |}
           else {| success := false;
                   error := JS.or_ (err_message e)
                              (Some "Unknown error during conversation save") |}
       end.
Proof.
  destruct (loop_from save retries retries 0 initialState)
    as [k [Hk [Hall Hrest]]]; try reflexivity.
  exists k. split; [lia|]. split; [|exact Hrest].
  intros j Hj. apply Hall. lia.
Qed.

Lemma stop_unique save retries k k' :
  k <= retries -> k' <= retries ->
  (forall j, j < k -> transient (save j) = true) ->
  (k < retries -> transient (save k) = false) ->
  (forall j, j < k' -> transient (save j) = true) ->
  transient (save k') = false ->
  k = k'.
Proof.
  intros Hk Hk' Hall Hstop Hall' Hstop'.
  destruct (Nat.lt_trichotomy k k') as [Hlt|[Heq|Hgt]]; [|exact Heq|].
  - specialize (Hall' k Hlt). rewrite Hstop in Hall' by lia. discriminate.
  - rewrite (Hall k' Hgt) in Hstop'. discriminate.
Qed.

(** X14. The save succeeds exactly when some attempt within the budget saves
    and every attempt before it failed with a network or timeout error. *)
Theorem save_succeeds_iff save options :
  success (safeSaveConversation save options) = true
  <-> exists k, k <= default 2 (opt_retries options)
                /\ save k = Saved
                /\ forall j, j < k -> transient (save j) = true.
Proof.
  unfold safeSaveConversation. set (retries := default 2 (opt_retries options)).
  destruct (attempts_stop save retries)
    as [k0 [Hk0 [Hall [Hstop [_ [_ Hres]]]]]].
  rewrite Hres. split.
  - intros H. exists k0. split; [exact Hk0|]. split; [|exact Hall].
    destruct (save k0) as [|e]; [reflexivity|].
    destruct (isDuplicateKey e); discriminate.
  - intros [k [Hk [Hs Hbefore]]].
    assert (k0 = k) as ->.
    { apply (stop_unique save retries); auto. now rewrite Hs. }
    now rewrite Hs.
Qed.

(** X15. The helper stops at the first attempt that saves or fails for good:
    [save()] is not called again, the delays slept are those of the
    attempts before it, and a duplicate key is reported as such. *)
Theorem save_stops_at_first_final_outcome save options k :
  k <= default 2 (opt_retries options) ->
  (forall j, j < k -> transient (save j) = true) ->
  transient (save k) = false ->
  let run := attempts save (default 2 (opt_retries options)) in
  saveCalls run = S k
  /\ delays run = map backoff (List.seq 0 k)
  /\ safeSaveConversation save options =
     match save k with
     | Saved => {| success := true; error := None |}
     | Failed e =>
         if isDuplicateKey e
         then {| success := false; error := Some "Duplicate sessionId" |}
         else {| success := false;
                 error := JS.or_ (err_message e)
                            (Some "Unknown error during conversation save") |}
     end.
Proof.
  intros Hk Hbefore Hfinal run. unfold safeSaveConversation. subst run.
  set (retries := default 2 (opt_retries options)) in *.
  destruct (attempts_stop save retries)
    as [k0 [Hk0 [Hall [Hstop Hrest]]]].
  assert (k0 = k) as -> by (apply (stop_unique save retries); auto).
  destruct Hrest as [H1 [H2 H3]]. auto.
Qed.

(** A network error, then a duplicate key: two calls, one delay of
    100 ms, no third call. *)
Lemma save_stops_at_first_final_outcome_witness :
  let save := fun attempt =>
    if attempt =? 0
    then Failed {| err_name := "MongoNetworkError"; err_code := None;
                   err_message := Some "connection reset" |}
    else Failed {| err_name := "MongoServerError"; err_code := Some 11000%Z;
                   err_message := Some "E11000 duplicate key" |} in
  saveCalls (attempts save 2) = 2
  /\ delays (attempts save 2) = [100]
  /\ safeSaveConversation save {| opt_retries := None |}
     = {| success := false; error := Some "Duplicate sessionId" |}.
Proof.
  intros save.
  apply (save_stops_at_first_final_outcome save {| opt_retries := None |} 1).
  - simpl. lia.
  - intros j Hj. assert (j = 0) as -> by lia. reflexivity.
  - reflexivity.
Defined.

Lemma backoff_bounds attempt : 100 <= backoff attempt <= 1000.
Proof.
  unfold backoff. split; [|lia].
  assert (1 <= 2 ^ attempt).
  { clear. induction attempt as [|n IH]; simpl; lia. }
  lia.
Qed.

(** X16. At most [retries + 1] calls of [save()], one delay between two
    consecutive calls, each between 100 and 1000 ms; with the default
    budget the delays add up to 300 ms at most. *)
Theorem save_attempts_are_bounded save retries :
  1 <= saveCalls (attempts save retries) <= S retries
  /\ S (length (delays (attempts save retries)))
     = saveCalls (attempts save retries)
  /\ Forall (fun d => 100 <= d <= 1000) (delays (attempts save retries))
  /\ list_sum (delays (attempts save 2)) <= 300.
Proof.
  destruct (attempts_stop save retries) as [k [Hk [_ [_ [Hc [Hd _]]]]]].
  rewrite Hc, Hd. split; [lia|]. split.
  - now rewrite length_map, length_seq.
  - split.
    + apply List.Forall_forall. intros d [j [<- _]]%in_map_iff.
      apply backoff_bounds.
    + destruct (attempts_stop save 2) as [k2 [Hk2 [_ [_ [_ [Hd2 _]]]]]].
      rewrite Hd2.
      destruct k2 as [|[|[|k2]]]; [cbn; lia..|lia].
Qed.

End SaveWithRetries.

(* ===================================================================== *)
(** ** The candidates of [searchEvents] *)
(* ===================================================================== *)

Section SearchCandidates.
Import Duplicates.
Import SerperService.

(** *** Trimming twice *)

Lemma trimStart_head c s :
  JS.isSpace c = false -> JS.trimStart (String c s) = String c s.
Proof. intros H. simpl. now rewrite H. Qed.

Lemma trimStart_cases s :
  JS.trimStart s = ""
  \/ exists c t, JS.trimStart s = String c t /\ JS.isSpace c = false.
Proof.
  induction s as [|c s IH]; [now left|]. simpl.
  destruct (JS.isSpace c) eqn:E; [exact IH|]. right. now exists c, s.
Qed.

Lemma trimEnd_cons c s :
  JS.trimEnd (String c s) =
  match JS.trimEnd s with
  | EmptyString => if JS.isSpace c then EmptyString else String c EmptyString
  | t => String c t
  end.
Proof. reflexivity. Qed.

Lemma trimEnd_trimEnd s : JS.trimEnd (JS.trimEnd s) = JS.trimEnd s.
Proof.
  induction s as [|c s IH]; [reflexivity|]. rewrite trimEnd_cons.
  destruct (JS.trimEnd s) as [|d t] eqn:E.
  - destruct (JS.isSpace c) eqn:Ec; [reflexivity|]. simpl. now rewrite Ec.
  - rewrite trimEnd_cons, IH. reflexivity.
Qed.

Lemma trimEnd_head c s :
  JS.isSpace c = false -> exists t, JS.trimEnd (String c s) = String c t.
Proof.
  intros H. rewrite trimEnd_cons. destruct (JS.trimEnd s) as [|d t].
  - rewrite H. now exists "".
  - now exists (String d t).
Qed.

Lemma trim_trim s : JS.trim (JS.trim s) = JS.trim s.
Proof.
  unfold JS.trim. destruct (trimStart_cases s) as [->|[c [t [-> Hc]]]].
  - reflexivity.
  - destruct (trimEnd_head c t Hc) as [t' Ht']. rewrite Ht'.
    rewrite trimStart_head by exact Hc. rewrite <- Ht'. apply trimEnd_trimEnd.
Qed.

(** *** The loop of [searchEvents] *)

Lemma urlKey_truthy c :
  JS.whenTruthy (urlKey c) =
  if String.eqb (JS.trim (JS.toLowerCase (c_sourceUrl c))) ""
  then None else Some (JS.trim (JS.toLowerCase (c_sourceUrl c))).
Proof.
  unfold urlKey. destruct (String.eqb_spec (c_sourceUrl c) "") as [->|_].
  - reflexivity.
  - unfold JS.whenTruthy, JS.truthy.
    now destruct (String.eqb (JS.trim (JS.toLowerCase (c_sourceUrl c))) "").
Qed.

Lemma omap_one {A B} (f : A -> option B) (x : A) :
  omap f [x] = match f x with Some y => [y] | None => [] end.
Proof. reflexivity. Qed.

Lemma batchOk_empty w apiUsed : batchOk w apiUsed emptyBatch.
Proof. split; simpl; try (intros; contradiction); constructor. Qed.

Lemma batchOk_step env w filters apiUsed st result :
  batchOk w apiUsed st ->
  batchOk w apiUsed (resultStep env w filters apiUsed st result).
Proof.
  intros [Ht Hu Hdt Hdu He]. unfold resultStep.
  set (eventTitle := JS.trim (sn_title result)).
  destruct (String.eqb eventTitle "" || (String.length eventTitle <? 3)) eqn:Eshort;
    [now split|].
  apply orb_false_iff in Eshort as [_ Hlen]. apply Nat.ltb_ge in Hlen.
  set (titleKey' := JS.trim (JS.toLowerCase eventTitle)).
  set (urlKey' := JS.trim (JS.toLowerCase (sn_link result))).
  destruct (setHas (b_seenTitles st) titleKey'
            || negb (String.eqb urlKey' "") && setHas (b_seenUrls st) urlKey')
    eqn:Eseen; [now split|].
  apply orb_false_iff in Eseen as [Hnt Hnu].
  match goal with
  | |- context [existsb (storedMatch ?d) _] => set (eventData := d)
  end.
  assert (Hmono : forall c u, In c (b_events st) ->
                    JS.whenTruthy (urlKey c) = Some u ->
                    setHas (if negb (String.eqb urlKey' "")
                            then setAdd (b_seenUrls st) urlKey'
                            else b_seenUrls st) u = true).
  { intros c u Hc Hcu. destruct (negb _);
      [apply setHas_setAdd_mono|]; now apply (Hu c). }
  destruct (existsb (storedMatch eventData) (eventsDb w)) eqn:Estored.
  - split; cbn [b_events b_seenTitles b_seenUrls]; auto.
    intros c Hc. now apply setHas_setAdd_mono, Ht.
  - assert (Hkey : titleKey eventData = titleKey') by reflexivity.
    assert (Hurl : JS.whenTruthy (urlKey eventData)
                   = if String.eqb urlKey' "" then None else Some urlKey')
      by apply urlKey_truthy.
    split; cbn [b_events b_seenTitles b_seenUrls].
    + intros c [Hc|[<-|[]]]%in_app_or.
      * now apply setHas_setAdd_mono, Ht.
      * rewrite Hkey. apply setHas_setAdd.
    + intros c u [Hc|[<-|[]]]%in_app_or Hcu; [now apply (Hmono c)|].
      rewrite Hurl in Hcu. destruct (String.eqb urlKey' ""); [discriminate|].
      injection Hcu as <-. apply setHas_setAdd.
    + rewrite map_app. apply NoDup_app. split; [exact Hdt|]. split.
      * intros t Hin ->%list_elem_of_singleton.
        apply list_elem_of_In, in_map_iff in Hin as [c [Hc Hin]].
        rewrite Hkey in Hc. rewrite <- Hc, (Ht c Hin) in Hnt. discriminate.
      * simpl. apply NoDup_singleton.
    + rewrite omap_app. apply NoDup_app. split; [exact Hdu|]. split.
      * rewrite omap_one, Hurl.
        destruct (String.eqb urlKey' "") eqn:Eu; [intros u _ Hin; inversion Hin|].
        intros u Hin ->%list_elem_of_singleton.
        apply list_elem_of_omap in Hin as [c [Hc Hcu]].
        apply list_elem_of_In in Hc.
        rewrite (Hu c _ Hc Hcu) in Hnu. discriminate.
      * rewrite omap_one. destruct (JS.whenTruthy (urlKey eventData));
          [apply NoDup_singleton|constructor].
    + apply Forall_app. split; [exact He|]. constructor; [|constructor].
      unfold wellFormed. cbn [c_title c_source eventData].
      split; [exact Hlen|]. split; [apply trim_trim|]. split; [reflexivity|].
      exact Estored.
Qed.

Lemma batchOk_fold env w filters apiUsed results st :
  batchOk w apiUsed st ->
  batchOk w apiUsed (fold_left (resultStep env w filters apiUsed) results st).
Proof.
  revert st. induction results as [|r results IH]; intros st H; [exact H|].
  simpl. apply IH. now apply batchOk_step.
Qed.

Lemma searchEvents_cases env w query filters :
  searchEvents env w query filters = []
  \/ exists apiUsed results,
       (apiUsed = "serpapi" \/ apiUsed = "serper")
       /\ searchEvents env w query filters
          = candidatesOf env w filters apiUsed results.
Proof.
  unfold searchEvents.
  destruct (searchWithSerpAPI env _) as [results|].
  - right. exists "serpapi", results. auto.
  - destruct (serperApiKey env); [|now left].
    destruct (searchWithSerper env _) as [results|]; [|now left].
    right. exists "serper", results. auto.
Qed.

Lemma searchEvents_ok env w query filters :
  NoDup (map titleKey (searchEvents env w query filters))
  /\ NoDup (omap (fun c => JS.whenTruthy (urlKey c))
                 (searchEvents env w query filters))
  /\ Forall (fun c => exists apiUsed,
                 (apiUsed = "serpapi" \/ apiUsed = "serper")
                 /\ wellFormed w apiUsed c)
            (searchEvents env w query filters).
Proof.
  destruct (searchEvents_cases env w query filters)
    as [->|[apiUsed [results [Hapi ->]]]].
  - repeat split; constructor.
  - destruct (batchOk_fold env w filters apiUsed results emptyBatch
                (batchOk_empty w apiUsed)) as [_ _ Hdt Hdu He].
    split; [exact Hdt|]. split; [exact Hdu|].
    eapply List.Forall_impl; [|exact He]. intros c Hc. now exists apiUsed.
Qed.

Lemma not_stored_not_found c w :
  existsb (storedMatch c) (eventsDb w) = false -> findExisting c w = None.
Proof.
  unfold findExisting. induction (eventsDb w) as [|e l IH]; [reflexivity|].
  simpl. intros [He Hl]%orb_false_iff. rewrite IH by exact Hl.
  assert (Hp : (JS.isString (ed_title (ev_data e)) (c_title c)
                && isSerpSource (ed_source (ev_data e)))
               || (JS.isString (ed_sourceUrl (ev_data e)) (c_sourceUrl c)
                   && isSerpSource (ed_source (ev_data e))) = false);
    [|now rewrite Hp].
  unfold storedMatch in He. apply orb_false_iff in He as [H1 H2].
  rewrite H2, orb_false_r.
  destruct (ed_title (ev_data e)) as [t|]; [|reflexivity]. simpl.
  destruct (String.eqb_spec t (c_title c)) as [->|_]; [|reflexivity].
  now rewrite String.eqb_refl in H1.
Qed.

(** X17. Every candidate [searchEvents] returns has a title of at least
    three characters, passes the Event schema's validators once the
    handler adds the user id, and is not found by the handler's own
    existence check in the store as it was searched (before the save
    loop adds to it). *)
Theorem search_results_can_be_saved env w query filters userId :
  Forall (fun c => 3 <= String.length (c_title c)
                   /\ validEventData (castEventData (candidateData c userId))
                      = true
                   /\ findExisting c w = None)
         (searchEvents env w query filters).
Proof.
  destruct (searchEvents_ok env w query filters) as [_ [_ H]].
  eapply List.Forall_impl; [|exact H].
  intros c [apiUsed [Hapi [Hlen [Htrim [Hsrc Hnew]]]]]. split; [exact Hlen|].
  split; [|now apply not_stored_not_found].
  unfold validEventData, castEventData, candidateData.
  cbn [ed_title ed_userId ed_mode ed_source fmap option_fmap option_map].
  rewrite Htrim, Hsrc.
  assert (JS.truthy (Some (c_title c)) = true) as ->.
  { destruct (c_title c); [simpl in Hlen; lia|reflexivity]. }
  destruct Hapi as [-> | ->]; reflexivity.
Qed.

(** X18. The candidates returned by one search have pairwise different title
    keys and pairwise different non-empty URL keys, and none of them
    matches a stored search event by title (up to letter case) or by
    source URL. *)
Theorem search_results_are_distinct_and_new env w query filters :
  NoDup (map titleKey (searchEvents env w query filters))
  /\ NoDup (omap (fun c => JS.whenTruthy (urlKey c))
                 (searchEvents env w query filters))
  /\ Forall (fun c => existsb (storedMatch c) (eventsDb w) = false)
            (searchEvents env w query filters).
Proof.
  destruct (searchEvents_ok env w query filters) as [Ht [Hu H]].
  split; [exact Ht|]. split; [exact Hu|].
  eapply List.Forall_impl; [|exact H].
  now intros c [apiUsed [_ [_ [_ [_ Hnew]]]]].
Qed.

Lemma kept_among_input pre a :
  In a (uniqueEvents (dedupState pre)) -> In a pre.
Proof.
  unfold dedupState.
  destruct (uniqueEvents_fold_sublist pre noneSeen) as [kept [-> Hsub]].
  simpl. intros Ha. apply list_elem_of_In.
  eapply elem_of_sublist; [|exact Hsub]. now apply list_elem_of_In.
Qed.

(** X19. On the results of [searchEvents], the handler's own test for an
    already seen title key or URL key never fires: whatever its
    de-duplication drops from them, it drops for similarity. *)
Theorem exact_key_test_never_fires_after_search
    env w query filters pre event post :
  searchEvents env w query filters = (pre ++ event :: post)%list ->
  alreadySeen (dedupState pre) event = false.
Proof.
  intros Hsplit.
  destruct (searchEvents_ok env w query filters) as [Ht [Hu _]].
  rewrite Hsplit in Ht, Hu.
  pose proof (consistent_dedupState pre) as [_ _ St Su].
  unfold alreadySeen. apply orb_false_iff. split.
  - destruct (setHas _ (titleKey event)) eqn:E; [|reflexivity]. exfalso.
    destruct (St _ E) as [a [Ha Heq]]. apply kept_among_input in Ha.
    rewrite map_app in Ht. apply NoDup_app in Ht as [_ [Ht _]].
    apply (Ht (titleKey event)).
    + rewrite <- Heq. apply list_elem_of_In, in_map, Ha.
    + simpl. left.
  - destruct (JS.whenTruthy (urlKey event)) as [u|] eqn:Eu; [|reflexivity].
    destruct (setHas _ u) eqn:E; [|reflexivity]. exfalso.
    destruct (Su _ E) as [a [Ha Heq]]. apply kept_among_input in Ha.
    rewrite omap_app in Hu. apply NoDup_app in Hu as [_ [Hu _]].
    apply (Hu u).
    + apply list_elem_of_omap. exists a. split; [|exact Heq].
      now apply list_elem_of_In.
    + apply list_elem_of_omap. exists event. split; [left|exact Eu].
Qed.

(** The second of three results respells the first and is skipped; the
    third is met with the first one kept. *)
Lemma exact_key_test_never_fires_witness :
  SerperService.searchEvents Samples.searchEnv emptyWorld (Some "jazz")
    Samples.noFilters
  = ([Samples.found "Jazz Night" "https://a.example/jazz" 0]
     ++ Samples.found "Jazz Fight" "https://a.example/fight" 2 :: [])%list
  /\ alreadySeen
       (dedupState [Samples.found "Jazz Night" "https://a.example/jazz" 0])
       (Samples.found "Jazz Fight" "https://a.example/fight" 2) = false.
Proof.
  split; [vm_compute; reflexivity|].
  apply (exact_key_test_never_fires_after_search Samples.searchEnv emptyWorld
           (Some "jazz") Samples.noFilters
           [Samples.found "Jazz Night" "https://a.example/jazz" 0]
           (Samples.found "Jazz Fight" "https://a.example/fight" 2) []).
  vm_compute. reflexivity.
Defined.

End SearchCandidates.

(* ===================================================================== *)
(** ** The details of [searchEventDetails] *)
(* ===================================================================== *)

Section SearchDetails.
Import Duplicates.
Import SerperService SerperDetailsService.

Lemma orEmpty_truthy v link :
  JS.whenTruthy v = Some link -> orEmpty v = link /\ link <> "".
Proof.
  unfold orEmpty. intros H. rewrite H. split; [reflexivity|].
  unfold JS.whenTruthy in H. destruct (JS.truthy v) eqn:E; [|discriminate].
  subst v. simpl in E. intros ->. discriminate.
Qed.

Lemma uniqueOk_step allResults st r :
  In r allResults -> uniqueOk allResults st ->
  uniqueOk allResults (uniqueStep st r).
Proof.
  intros Hr [Hin Hl Hs Hd]. unfold uniqueStep.
  destruct (JS.whenTruthy (raw_link r)) as [link|] eqn:E; [|now split].
  destruct (setHas (snd st) link) eqn:Eseen; [now split|].
  split; cbn [fst snd].
  - intros x [Hx|[<-|[]]]%in_app_or; auto.
  - intros x [Hx|[<-|[]]]%in_app_or.
    + destruct (Hl x Hx) as [l [H1 H2]]. exists l. split; [exact H1|].
      now apply setHas_setAdd_mono.
    + exists link. split; [exact E|apply setHas_setAdd].
  - intros l [H| ->]%setHas_setAdd_inv.
    + destruct (Hs l H) as [x [Hx Hxl]]. exists x. split; [|exact Hxl].
      apply in_or_app. now left.
    + exists r. split; [|exact E]. apply in_or_app. right. now left.
  - rewrite map_app. apply NoDup_app. split; [exact Hd|]. split.
    + intros l Hin' ->%list_elem_of_singleton.
      apply list_elem_of_In, in_map_iff in Hin' as [x [Hx Hxin]].
      destruct (Hl x Hxin) as [l' [H1 H2]].
      apply orEmpty_truthy in H1 as [H1 _].
      pose proof (orEmpty_truthy _ _ E) as [E' _].
      rewrite H1, E' in Hx. subst l'. congruence.
    + apply NoDup_singleton.
Qed.

Lemma uniqueOk_fold allResults rest st :
  (forall r, In r rest -> In r allResults) ->
  uniqueOk allResults st ->
  uniqueOk allResults (fold_left uniqueStep rest st).
Proof.
  revert st. induction rest as [|r rest IH]; intros st Hsub H; [exact H|].
  simpl. apply IH; [intros x Hx; apply Hsub; now right|].
  apply uniqueOk_step; [apply Hsub; now left|exact H].
Qed.

Lemma uniqueOk_uniqueResults allResults :
  uniqueOk allResults (fold_left uniqueStep allResults ([], [])).
Proof.
  apply uniqueOk_fold; [auto|].
  split; simpl; try (intros; contradiction); try discriminate. constructor.
Qed.

Lemma unique_grows rest st r :
  In r (fst st) -> In r (fst (fold_left uniqueStep rest st)).
Proof.
  revert st. induction rest as [|x rest IH]; intros st H; [exact H|].
  simpl. apply IH. unfold uniqueStep.
  destruct (JS.whenTruthy (raw_link x)); [|exact H].
  destruct (setHas (snd st) _); [exact H|]. simpl. apply in_or_app. now left.
Qed.

Lemma linked_result_gives_unique allResults r :
  In r allResults -> JS.truthy (raw_link r) = true ->
  uniqueResultsOf allResults <> [].
Proof.
  intros [pre [post ->]]%in_split Hr. unfold uniqueResultsOf.
  rewrite fold_left_app. simpl.
  set (st := fold_left uniqueStep pre ([], [])).
  assert (Hok : uniqueOk pre st) by apply uniqueOk_uniqueResults.
  assert (exists x, In x (fst (uniqueStep st r))) as [x Hx].
  { destruct (raw_link r) as [link|] eqn:El; [|discriminate Hr].
    unfold uniqueStep, JS.whenTruthy. rewrite El, Hr.
    destruct (setHas (snd st) link) eqn:E.
    - destruct (seen_unique _ _ Hok _ E) as [x [Hx _]]. now exists x.
    - exists r. simpl. apply in_or_app. right. now left. }
  apply (unique_grows post) in Hx. intros Hnil. rewrite Hnil in Hx. exact Hx.
Qed.

(** X20. The search for an event's details reports [found] exactly when some
    result of the three queries has a link, and then gives a source URL. *)
Theorem details_found_iff_linked_result env eventName :
  (det_found (searchEventDetails env eventName) = true
   <-> exists r, In r (allResultsOf env eventName)
                 /\ JS.truthy (raw_link r) = true)
  /\ (det_found (searchEventDetails env eventName) = true ->
      is_Some (det_sourceUrl (searchEventDetails env eventName))).
Proof.
  unfold searchEventDetails, detailsOf.
  set (allResults := allResultsOf env eventName).
  pose proof (uniqueOk_uniqueResults allResults) as Hok.
  fold (uniqueResultsOf allResults) in Hok.
  destruct (uniqueResultsOf allResults) as [|firstResult rest] eqn:E.
  - cbn [det_found det_sourceUrl]. split; [|discriminate]. split; [discriminate|].
    intros [r [Hr Hl]]. exfalso.
    now apply (linked_result_gives_unique allResults r).
  - cbn [det_found det_sourceUrl].
    destruct (unique_linked _ _ Hok firstResult) as [link [Hl _]].
    { unfold uniqueResultsOf in E. rewrite E. now left. }
    split; [|intros _; rewrite Hl; now eexists].
    split; [|reflexivity]. intros _. exists firstResult. split.
    + apply (unique_from_input _ _ Hok). unfold uniqueResultsOf in E.
      rewrite E. now left.
    + unfold JS.whenTruthy in Hl. now destruct (JS.truthy _).
Qed.

Lemma sublist_map {A B} (f : A -> B) l1 l2 :
  sublist l1 l2 -> sublist (map f l1) (map f l2).
Proof. induction 1; simpl; now constructor. Qed.

Lemma sublist_List_filter {A} (f : A -> bool) l : sublist (List.filter f l) l.
Proof.
  induction l as [|x l IH]; simpl; [constructor|].
  destruct (f x); now constructor.
Qed.

(** X21. The snippets handed to the draft: at most ten, with pairwise
    different, non-empty links, each with a snippet text or a title. *)
Theorem raw_snippets_are_few_and_distinct env eventName :
  let raws := det_rawSnippets (searchEventDetails env eventName) in
  length raws <= 10
  /\ NoDup (map sn_link raws)
  /\ Forall (fun s => sn_link s <> ""
                      /\ (sn_snippet s <> "" \/ sn_title s <> "")) raws.
Proof.
  unfold searchEventDetails, detailsOf.
  set (allResults := allResultsOf env eventName).
  pose proof (uniqueOk_uniqueResults allResults) as Hok.
  fold (uniqueResultsOf allResults) in Hok.
  cbv zeta.
  destruct (uniqueResultsOf allResults) as [|firstResult rest] eqn:E;
    cbn [det_rawSnippets].
  { simpl. split; [lia|]. split; constructor. }
  set (unique := firstResult :: rest) in *.
  set (keep := fun r : Snippet =>
                 nonEmptyString (sn_snippet r) || nonEmptyString (sn_title r)).
  split; [|split].
  - etransitivity; [apply List.filter_length_le|].
    rewrite length_map, length_take. lia.
  - assert (Hsub : sublist (map sn_link
                              (List.filter keep (map rawSnippetOf (take 10 unique))))
                           (map (fun r => orEmpty (raw_link r)) unique)).
    { replace (map (fun r => orEmpty (raw_link r)) unique)
        with (map sn_link (map rawSnippetOf unique))
        by (rewrite map_map; reflexivity).
      apply sublist_map. etransitivity; [apply sublist_List_filter|].
      apply sublist_map, sublist_take. }
    eapply sublist_NoDup; [|exact Hsub].
    pose proof (unique_distinct _ _ Hok) as Hd.
    unfold uniqueResultsOf in E. now rewrite E in Hd.
  - apply List.Forall_forall. intros s [Hs Hkeep]%filter_In.
    apply in_map_iff in Hs as [r [<- Hr]].
    assert (Hin : In r unique).
    { apply list_elem_of_In. eapply elem_of_sublist;
        [apply list_elem_of_In, Hr|apply sublist_take]. }
    destruct (unique_linked _ _ Hok r) as [link [Hl _]].
    { unfold uniqueResultsOf in E. now rewrite E. }
    apply orEmpty_truthy in Hl as [Hl Hne]. split.
    + cbn [rawSnippetOf sn_link]. now rewrite Hl.
    + unfold keep, nonEmptyString in Hkeep.
      apply orb_true_iff in Hkeep as [H|H]; apply negb_true_iff in H;
        apply String.eqb_neq in H; auto.
Qed.

End SearchDetails.

(* ===================================================================== *)
(** ** [createRegistration] and [createEvent] *)
(* ===================================================================== *)

Section ServiceOutcomes.
Import Outcome Stores.

Lemma toLowerCase_empty s : JS.toLowerCase s = "" <-> s = "".
Proof. destruct s; simpl; split; intros H; congruence. Qed.

Lemma findRegistration_none userId eventId w :
  findRegistration userId eventId w = None ->
  existsb (fun r => (reg_userId r =? userId) && (reg_eventId r =? eventId))
          (registrationsDb w) = false
  /\ ~ In (userId, eventId)
          (map (fun r => (reg_userId r, reg_eventId r)) (registrationsDb w)).
Proof.
  unfold findRegistration. intros H. split.
  - destruct (existsb _ _) eqn:E; [|reflexivity].
    apply existsb_exists in E as [r [Hr Hp]].
    now rewrite (find_none _ _ H r Hr) in Hp.
  - intros [r [Heq Hr]]%in_map_iff. injection Heq as Hu He.
    pose proof (find_none _ _ H r Hr) as Hp. cbn in Hp.
    rewrite Hu, He, !Nat.eqb_refl in Hp. discriminate.
Qed.

(** The three ways [createRegistration] can go. *)
Lemma createRegistration_run userId eventId name email w :
  (exists existing,
      findRegistration userId eventId w = Some existing
      /\ createRegistration userId eventId name email w
         = (Ok (RegistrationFailure alreadyRegistered), w))
  \/ (findRegistration userId eventId w = None
      /\ (JS.trim name = "" \/ JS.trim email = "")
      /\ exists w',
           createRegistration userId eventId name email w
           = (Ok (RegistrationFailure "Registration failed"), w')
           /\ registrationsDb w' = registrationsDb w
           /\ eventsDb w' = eventsDb w)
  \/ (findRegistration userId eventId w = None
      /\ JS.trim name <> "" /\ JS.trim email <> ""
      /\ exists w',
           createRegistration userId eventId name email w
           = (Ok (RegistrationSuccess
                    {| reg_id := nextObjectId w; reg_userId := userId;
                       reg_eventId := eventId; reg_name := JS.trim name;
                       reg_email := JS.toLowerCase (JS.trim email);
                       reg_status := "confirmed" |}), w')
           /\ registrationsDb w'
              = (registrationsDb w
                 ++ [{| reg_id := nextObjectId w; reg_userId := userId;
                        reg_eventId := eventId; reg_name := JS.trim name;
                        reg_email := JS.toLowerCase (JS.trim email);
                        reg_status := "confirmed" |}])%list
           /\ eventsDb w' = eventsDb w).
Proof.
  unfold createRegistration, tryCatch, bind, getWorld.
  destruct (findRegistration userId eventId w) as [existing|] eqn:Hfind.
  { left. exists existing. split; reflexivity. }
  right. destruct (findRegistration_none _ _ _ Hfind) as [Hex _].
  unfold newRegistration, saveRegistration.
  cbn [reg_name reg_email reg_userId reg_eventId registrationsDb].
  destruct (String.eqb_spec (JS.trim name) "") as [Hn|Hn].
  { left. split; [reflexivity|]. split; [now left|].
    cbn [orb]. eexists. split; [reflexivity|]. split; reflexivity. }
  destruct (String.eqb_spec (JS.toLowerCase (JS.trim email)) "") as [He|He].
  { left. split; [reflexivity|]. split; [right; now apply toLowerCase_empty|].
    cbn [orb]. eexists. split; [reflexivity|]. split; reflexivity. }
  right. split; [reflexivity|]. split; [exact Hn|].
  split; [intros H; apply He; now apply toLowerCase_empty|].
  cbn [orb]. rewrite Hex.
  unfold findUserById, findEventById, record, ret.
  cbn [eventsDb usersDb registrationsDb conversationsDb nextObjectId trace].
  destruct (List.find _ (usersDb w)) as [u|];
    destruct (List.find _ (eventsDb w)) as [e|];
    try destruct (JS.whenTruthy (user_email u));
    destruct (JS.whenTruthy (Some email));
    eexists; (split; [reflexivity|]); split; reflexivity.
Qed.

(** X22. [createRegistration] never throws; a success adds exactly the row it
    returns, with the name trimmed and the email trimmed and
    lower-cased; a failure adds nothing; events are never touched (the
    attendee count included). *)
Theorem createRegistration_outcome userId eventId name email :
  returns (createRegistration userId eventId name email)
    (fun w result w' =>
       eventsDb w' = eventsDb w
       /\ match result with
          | RegistrationSuccess reg =>
              registrationsDb w' = (registrationsDb w ++ [reg])%list
              /\ reg_userId reg = userId /\ reg_eventId reg = eventId
              /\ reg_name reg = JS.trim name
              /\ reg_email reg = JS.toLowerCase (JS.trim email)
              /\ reg_status reg = "confirmed"
          | RegistrationFailure _ => registrationsDb w' = registrationsDb w
          end).
Proof.
  intros w.
  destruct (createRegistration_run userId eventId name email w)
    as [[existing [_ E]]|[[_ [_ [w' [E [Hr He]]]]]|[_ [_ [_ [w' [E [Hr He]]]]]]]];
    rewrite E; eexists _, _; (split; [reflexivity|]); cbn; auto.
  repeat split; auto.
Qed.

(** X23. A registration succeeds exactly when the user has none for the event
    yet and neither the name nor the email is blank. Whether the event
    exists plays no part. *)
Theorem createRegistration_succeeds_iff userId eventId name email w :
  (exists reg w',
      createRegistration userId eventId name email w
      = (Ok (RegistrationSuccess reg), w'))
  <-> findRegistration userId eventId w = None
      /\ JS.trim name <> "" /\ JS.trim email <> "".
Proof.
  destruct (createRegistration_run userId eventId name email w)
    as [[existing [Hf E]]|[[Hf [Hb [w' [E _]]]]|[Hf [Hn [He [w' [E _]]]]]]];
    rewrite E.
  - split; [intros [reg [w1 [=]]]|]. rewrite Hf. intros [[=] _].
  - split; [intros [reg [w1 [=]]]|]. intros [_ [Hn He]]. tauto.
  - split; [auto|]. intros _. eexists _, _. reflexivity.
Qed.

(** X24. The collection keeps at most one registration per user and
    event. *)
Theorem registrations_stay_unique userId eventId name email w result w' :
  uniqueRegistrations w ->
  createRegistration userId eventId name email w = (result, w') ->
  uniqueRegistrations w'.
Proof.
  unfold uniqueRegistrations. intros Hu Hrun.
  destruct (createRegistration_run userId eventId name email w)
    as [[existing [_ E]]|[[_ [_ [w1 [E [Hr _]]]]]|[Hf [_ [_ [w1 [E [Hr _]]]]]]]];
    rewrite E in Hrun; injection Hrun as _ <-; [exact Hu|now rewrite Hr|].
  rewrite Hr, map_app. apply NoDup_app. split; [exact Hu|]. split.
  - intros key Hin ->%list_elem_of_singleton.
    apply list_elem_of_In in Hin.
    now apply (findRegistration_none _ _ _ Hf).
  - apply NoDup_singleton.
Qed.

(** A second user of the sample store registers for another event. *)
Lemma registrations_stay_unique_witness :
  uniqueRegistrations Scenario.registered
  /\ uniqueRegistrations
       (snd (createRegistration 7 43 "Grace" "Grace@Example.org"
               Scenario.registered)).
Proof.
  assert (H : uniqueRegistrations Scenario.registered).
  { unfold uniqueRegistrations. simpl. apply NoDup_singleton. }
  split; [exact H|].
  apply (registrations_stay_unique 7 43 "Grace" "Grace@Example.org"
           Scenario.registered
           (fst (createRegistration 7 43 "Grace" "Grace@Example.org"
                   Scenario.registered))
           (snd (createRegistration 7 43 "Grace" "Grace@Example.org"
                   Scenario.registered)) H).
  apply surjective_pairing.
Defined.


Lemma find_app_none {A} (f : A -> bool) l1 l2 :
  (forall x, In x l1 -> f x = false) ->
  List.find f (l1 ++ l2) = List.find f l2.
Proof.
  induction l1 as [|x l1 IH]; intros H; [reflexivity|]. simpl.
  rewrite (H x) by now left. apply IH. intros y Hy. apply H. now right.
Qed.

(** X26. An event that [createEvent] has stored is the one [getEventById]
    returns for its id, and the next id is fresh again. *)
Theorem created_event_is_found_by_id O eventData w event w' :
  freshIds w ->
  createEvent O eventData w = (Ok (CreateSuccess event), w') ->
  findEventById (ev_id event) w' = Some event /\ freshIds w'.
Proof.
  unfold freshIds. intros Hfresh Hrun.
  unfold createEvent, tryCatch, bind, newEvent, saveEvent in Hrun.
  cbn [ev_data] in Hrun.
  destruct (validEventData (castEventData eventData)); [|discriminate].
  cbn in Hrun. injection Hrun as <- <-. cbn [eventsDb nextObjectId ev_id].
  split.
  - unfold findEventById. cbn [eventsDb].
    rewrite find_app_none.
    + cbn. now rewrite Nat.eqb_refl.
    + intros e He. rewrite List.Forall_forall in Hfresh.
      specialize (Hfresh e He). apply Nat.eqb_neq. lia.
  - apply Forall_app. split.
    + eapply List.Forall_impl; [|exact Hfresh]. intros e He. simpl in *. lia.
    + constructor; [cbn; lia|constructor].
Qed.

(** "Jazz Night" created in the sample store. *)
Lemma created_event_is_found_witness :
  findEventById 2
    (snd (createEvent (Scenario.oracle "ok" None None) Samples.jazzData
            Scenario.registered))
  = Some Samples.jazzEvent
  /\ freshIds
       (snd (createEvent (Scenario.oracle "ok" None None) Samples.jazzData
               Scenario.registered)).
Proof.
  apply (created_event_is_found_by_id (Scenario.oracle "ok" None None)
           Samples.jazzData Scenario.registered Samples.jazzEvent
           (snd (createEvent (Scenario.oracle "ok" None None) Samples.jazzData
                   Scenario.registered))).
  - unfold freshIds. simpl. constructor.
  - vm_compute. reflexivity.
Defined.

End ServiceOutcomes.

(* ===================================================================== *)
(** ** The handler on the sample sessions *)
(* ===================================================================== *)

(** "yes" to a draft without date, time or location. *)
Lemma chat_keeps_drafts_waiting_witness :
  allDraftsWaiting (Scenario.world (Scenario.draft None None None) None)
  /\ allDraftsWaiting
       (snd (chat (Scenario.oracle "yes" None None) (Scenario.say "yes")
               (Scenario.world (Scenario.draft None None None) None))).
Proof.
  assert (H : allDraftsWaiting
                (Scenario.world (Scenario.draft None None None) None)).
  { intros c [<-|[]]. reflexivity. }
  split; [exact H|].
  apply (chat_keeps_drafts_waiting (Scenario.oracle "yes" None None)
           (Scenario.say "yes")
           (Scenario.world (Scenario.draft None None None) None)
           (fst (chat (Scenario.oracle "yes" None None) (Scenario.say "yes")
                   (Scenario.world (Scenario.draft None None None) None)))
           (snd (chat (Scenario.oracle "yes" None None) (Scenario.say "yes")
                   (Scenario.world (Scenario.draft None None None) None)))
           H).
  apply surjective_pairing.
Defined.

(** The draft with a time and no date, on each proceed path: the fallback
    path stores it, the main path throws on the missing date. *)
Lemma proceedFallback_stores_witness :
  exists reply ev w',
    proceedFallback (Scenario.oracle "ok" None None)
      (Scenario.stored Scenario.timeOnlyDraft None) Scenario.timeOnlyDraft
      None 7 (Scenario.world Scenario.timeOnlyDraft None)
    = (Ok (Json reply "s1" true), w')
    /\ eventsDb w' = [ev]
    /\ exists d, ev_data ev
                 = castEventData (eventDataOf Scenario.timeOnlyDraft d None 7).
Proof.
  apply (proceedFallback_stores (Scenario.oracle "ok" None None)
           (Scenario.stored Scenario.timeOnlyDraft None)
           Scenario.timeOnlyDraft None 7
           (Scenario.world Scenario.timeOnlyDraft None)).
  vm_compute. reflexivity.
Defined.

Lemma proceedMain_stores_or_throws_witness :
  (exists reply ev w',
      proceedMain (Scenario.oracle "ok" None None)
        (Scenario.stored Scenario.timeOnlyDraft None) Scenario.timeOnlyDraft
        None 7 (Scenario.world Scenario.timeOnlyDraft None)
      = (Ok (Json reply "s1" true), w')
      /\ eventsDb w' = [ev]
      /\ exists d, ev_data ev
                   = castEventData (eventDataOf Scenario.timeOnlyDraft d None 7))
  \/ (exists e w',
        proceedMain (Scenario.oracle "ok" None None)
          (Scenario.stored Scenario.timeOnlyDraft None) Scenario.timeOnlyDraft
          None 7 (Scenario.world Scenario.timeOnlyDraft None)
        = (Throw e, w')
        /\ eventsDb w' = []
        /\ conversationsDb w' = [Scenario.stored Scenario.timeOnlyDraft None]).
Proof.
  apply (proceedMain_stores_or_throws (Scenario.oracle "ok" None None)
           (Scenario.stored Scenario.timeOnlyDraft None)
           Scenario.timeOnlyDraft None 7
           (Scenario.world Scenario.timeOnlyDraft None)).
  vm_compute. reflexivity.
Defined.
